(** * Interval timer: workout model, timeline, playback machine, editor moves

    A shallow embedding of the interval-timer application
    (lib/timer-storage, the timer page, the view page and the editor pages)
    together with the properties its specification states about it and
    further properties of the storage functions, the editor operations,
    the timelines and the playback machine.

    Conventions of the embedding.
    - A JavaScript [number] that the data model declares to be an integer
      (seconds, repetitions, millisecond timestamps) is a [Z].
    - An array index and an array length are [nat].
    - A JavaScript array that the code writes by index is a list of
      optional cells: [None] is a hole (reads back as [undefined]).
    - A React state variable is a record field; a [useRef] cell is a record
      field too; what a callback closed over when it was created is stored
      next to the timer handle that will run the callback. *)

From Stdlib Require Import ZArith String Ascii List Lia Permutation.
From Stdlib Require DecimalString DecimalZ DecimalPos.
From stdpp Require Import base option list strings gmap.

Open Scope string_scope.
Open Scope Z_scope.
Open Scope list_scope.

(* ===================================================================== *)
(** ** 1. Data model (lib/timer-storage)                                  *)
(* ===================================================================== *)

Inductive ExerciseType := running | walking.
Inductive IntensityLevel := low | medium | high.

Record Exercise := mkExercise {
  ex_id : string;
  ex_type : ExerciseType;
  ex_duration : Z;
  ex_intensity : option IntensityLevel;
  ex_name : option string
}.

Record Rest := mkRest {
  rest_id : string;
  rest_duration : Z;
  rest_name : option string
}.

(** [type WorkoutItem = Exercise | Set | Rest]; the tag is the [type]
    field ("set", "rest", or an exercise type). *)
#[warnings="-register-all"]
Inductive WorkoutItem :=
| ItemExercise (e : Exercise)
| ItemSet (id : string) (repetitions : Z) (items : list WorkoutItem)
          (name : option string)
| ItemRest (r : Rest).

Record WorkoutPlan := mkPlan {
  id : string;
  name : string;
  description : string;
  warmupTime : Z;
  cooldownTime : Z;
  items : list WorkoutItem;
  createdAt : Z;
  updatedAt : Z
}.

(** The elements of a flattened workout: [(Exercise | Rest)[]]. *)
Inductive Step :=
| StepExercise (e : Exercise)
| StepRest (r : Rest).

Definition duration (s : Step) : Z :=
  match s with
  | StepExercise e => ex_duration e
  | StepRest r => rest_duration r
  end.

Definition item_id (it : WorkoutItem) : string :=
  match it with
  | ItemExercise e => ex_id e
  | ItemSet i _ _ _ => i
  | ItemRest r => rest_id r
  end.

(** The runtime value of the [type] field. *)
Definition type_tag (t : ExerciseType) : string :=
  match t with running => "running" | walking => "walking" end.

Definition level_tag (l : IntensityLevel) : string :=
  match l with low => "low" | medium => "medium" | high => "high" end.

Definition step_type (s : Step) : string :=
  match s with
  | StepExercise e => type_tag (ex_type e)
  | StepRest _ => "rest"
  end.

(** [item.intensity]: absent on a rest, optional on an exercise. *)
Definition step_intensity (s : Step) : option string :=
  match s with
  | StepExercise e => level_tag <$> ex_intensity e
  | StepRest _ => None
  end.

(* ===================================================================== *)
(** ** 2. Workout calculations (lib/timer-storage)                        *)
(* ===================================================================== *)

(** [for (let rep = 0; rep < repetitions; rep++) { push the pass }]:
    the body runs once for each integer in [0, repetitions), each run
    appending one pass to [result]. *)
Definition passes {A} (repetitions : Z) (pass : list A) : list A :=
  Z.iter repetitions (fun result => result ++ pass) [].

(** What one item pushes onto [result] in the inner loop of
    [flattenWorkout]; a set pushes [flattenWorkout(item.items,
    item.repetitions)], which is the same two loops on the children. *)
Fixpoint flattenItem (item : WorkoutItem) : list Step :=
  match item with
  | ItemExercise e => [StepExercise e]
  | ItemRest r => [StepRest r]
  | ItemSet _ repetitions children _ =>
      passes repetitions (flat_map flattenItem children)
  end.

Definition flattenWorkout (items : list WorkoutItem) (repetitions : Z)
  : list Step :=
  passes repetitions (flat_map flattenItem items).

(** [xs.reduce((sum, item) => sum + item.duration, 0)] *)
Definition sum_durations (xs : list Step) : Z :=
  fold_left (fun sum item => sum + duration item) xs 0.

Definition calculateTotalTime (workout : WorkoutPlan) : Z :=
  let flattenedWorkout := flattenWorkout (items workout) 1 in
  let workoutTime := sum_durations flattenedWorkout in
  warmupTime workout + workoutTime + cooldownTime workout.

Definition countIntervals (workout : WorkoutPlan) : Z :=
  let flattenedWorkout := flattenWorkout (items workout) 1 in
  let count := Z.of_nat (length flattenedWorkout) in
  let count := if 0 <? warmupTime workout then count + 1 else count in
  let count := if 0 <? cooldownTime workout then count + 1 else count in
  count.

(* ===================================================================== *)
(** ** 3. Intensity calculators (lib/timer-storage)                       *)
(* ===================================================================== *)

(** The [type] argument is the runtime tag, so that the [default] branch
    (reached by "rest" from the view page) is part of the model; the
    [intensity] argument is [None] when the caller omits it, which
    selects the default parameter value "medium". *)
Definition calculateFinalIntensity (type : string) (intensity : option string)
  : Z :=
  let intensity := default "medium" intensity in
  if String.eqb type "walking" then
    if String.eqb intensity "low" then 1
    else if String.eqb intensity "medium" then 2
    else if String.eqb intensity "high" then 3
    else 2
  else if String.eqb type "running" then
    if String.eqb intensity "low" then 3
    else if String.eqb intensity "medium" then 4
    else if String.eqb intensity "high" then 5
    else 4
  else 1.

Definition getRestIntensity (_ : unit) : Z := 1.

Definition getWarmupCooldownIntensity (_ : unit) : Z := 2.

(* ===================================================================== *)
(** ** 4. Timelines (timer page and view page)                            *)
(* ===================================================================== *)

(** [interface TimerExercise extends Exercise { startTime; endTime }];
    the main entries are spreads of flattened steps, so [type] holds the
    runtime tag. *)
Record TimerExercise := mkTimerExercise {
  te_id : string;
  te_type : string;
  te_duration : Z;
  te_intensity : option string;
  te_name : option string;
  startTime : Z;
  endTime : Z
}.

Definition step_id (s : Step) : string :=
  match s with
  | StepExercise e => ex_id e
  | StepRest r => rest_id r
  end.

Definition step_name (s : Step) : option string :=
  match s with
  | StepExercise e => ex_name e
  | StepRest r => rest_name r
  end.

(** The builder threads the array under construction and the running
    offset [timelineCurrentTime]. *)
Definition TimelineAcc : Type := list TimerExercise * Z.

Definition push_warmup (workout : WorkoutPlan) (acc : TimelineAcc)
  : TimelineAcc :=
  let '(completeTimeline, timelineCurrentTime) := acc in
  if 0 <? warmupTime workout then
    (completeTimeline ++
       [mkTimerExercise "warmup" "walking" (warmupTime workout) None
          (Some "웜업") timelineCurrentTime
          (timelineCurrentTime + warmupTime workout)],
     timelineCurrentTime + warmupTime workout)
  else acc.

Definition push_step (acc : TimelineAcc) (item : Step) : TimelineAcc :=
  let '(completeTimeline, timelineCurrentTime) := acc in
  (completeTimeline ++
     [mkTimerExercise (step_id item) (step_type item) (duration item)
        (step_intensity item) (step_name item) timelineCurrentTime
        (timelineCurrentTime + duration item)],
   timelineCurrentTime + duration item).

Definition push_cooldown (workout : WorkoutPlan) (acc : TimelineAcc)
  : TimelineAcc :=
  let '(completeTimeline, timelineCurrentTime) := acc in
  if 0 <? cooldownTime workout then
    (completeTimeline ++
       [mkTimerExercise "cooldown" "walking" (cooldownTime workout) None
          (Some "쿨다운") timelineCurrentTime
          (timelineCurrentTime + cooldownTime workout)],
     timelineCurrentTime)
  else acc.

(** The timer page's [completeTimeline] (the same block appears in the
    component body and in each effect). *)
Definition completeTimeline (workout : WorkoutPlan) : list TimerExercise :=
  let flattenedWorkout := flattenWorkout (items workout) 1 in
  let acc := ([], 0) in
  let acc := push_warmup workout acc in
  let acc := fold_left push_step flattenedWorkout acc in
  let acc := push_cooldown workout acc in
  fst acc.

(** The view page's [timelineData]: the same three phases, with the
    fields the chart needs. *)
Record TimelineEntry := mkTimelineEntry {
  tl_id : string;
  tl_type : string;
  tl_intensity : option string;
  tl_duration : Z;
  tl_startTime : Z;
  tl_endTime : Z;
  tl_name : option string;
  tl_isWarmupCooldown : bool;
  tl_finalIntensity : Z
}.

Definition ViewAcc : Type := list TimelineEntry * Z.

Definition view_push_warmup (workout : WorkoutPlan) (acc : ViewAcc) : ViewAcc :=
  let '(timelineData, currentTime) := acc in
  if 0 <? warmupTime workout then
    (timelineData ++
       [mkTimelineEntry "warmup" "walking" (Some "low") (warmupTime workout)
          currentTime (currentTime + warmupTime workout)
          (Some "웜업") true (getWarmupCooldownIntensity tt)],
     currentTime + warmupTime workout)
  else acc.

Definition view_push_step (acc : ViewAcc) (item : Step) : ViewAcc :=
  let '(timelineData, currentTime) := acc in
  let finalIntensity :=
    calculateFinalIntensity (step_type item)
      (Some (default "medium" (step_intensity item))) in
  (timelineData ++
     [mkTimelineEntry (step_id item) (step_type item) (step_intensity item)
        (duration item) currentTime (currentTime + duration item)
        (step_name item) false finalIntensity],
   currentTime + duration item).

Definition view_push_cooldown (workout : WorkoutPlan) (acc : ViewAcc)
  : ViewAcc :=
  let '(timelineData, currentTime) := acc in
  if 0 <? cooldownTime workout then
    (timelineData ++
       [mkTimelineEntry "cooldown" "walking" (Some "low")
          (cooldownTime workout) currentTime
          (currentTime + cooldownTime workout)
          (Some "쿨다운") true (getWarmupCooldownIntensity tt)],
     currentTime)
  else acc.

Definition timelineData (workout : WorkoutPlan) : list TimelineEntry :=
  let flattenedWorkout := flattenWorkout (items workout) 1 in
  let acc := ([], 0) in
  let acc := view_push_warmup workout acc in
  let acc := fold_left view_push_step flattenedWorkout acc in
  let acc := view_push_cooldown workout acc in
  fst acc.

(** [timeline.last.endOffset], or 0 for the empty timeline. *)
Definition last_endTime (timeline : list TimerExercise) : Z :=
  match last timeline with
  | Some step => endTime step
  | None => 0
  end.

(* ===================================================================== *)
(** ** 5. Storage lookups (lib/timer-storage)                             *)
(* ===================================================================== *)

(** A JavaScript evaluation either returns a value or throws. *)
Inductive Completion (A : Type) :=
| Returns (value : A)
| Throws (error : string).
Arguments Returns {A} value.
Arguments Throws {A} error.

Definition bind_completion {A B} (c : Completion A) (k : A -> Completion B)
  : Completion B :=
  match c with
  | Returns a => k a
  | Throws e => Throws e
  end.

(** [try { body } catch (error) { handler }] *)
Definition try_catch {A} (body : Completion A) (handler : string -> Completion A)
  : Completion A :=
  match body with
  | Returns a => Returns a
  | Throws e => handler e
  end.

Definition STORAGE_KEY : string := "interval-timer-workouts".

(** What [JSON.parse] can yield for stored text, as far as the storage
    functions read it.  An element of an array is an object with an
    [id], read at the declared type [WorkoutPlan]; or [null], where
    reading [w.id] throws; or any other value (a number, a string, a
    boolean, an array, an object without [id]), whose [id] is
    [undefined] and equal to no identifier; [text] keeps such a value
    apart from others. *)
Inductive JsonElement :=
| ElemPlan (w : WorkoutPlan)
| ElemNull
| ElemOther (text : string).

(** A value that is not an array is [null], a boolean, a number, a
    string or an object; of an object the code reads [length] only, and
    [length_positive] says whether [value.length > 0] holds. *)
Inductive JsonValue :=
| JsonArray (elements : list JsonElement)
| JsonNull
| JsonBoolean (b : bool)
| JsonNumber (text : string)
| JsonString (s : string)
| JsonObject (length_positive : bool).

(** The browser as the storage functions see it: whether [window] is
    defined, [localStorage.getItem] (which returns [null] for a missing
    key and may throw), and [JSON.parse] on stored text, which throws on
    text that is not JSON and otherwise yields a value, an array or
    not. *)
Record Browser := mkBrowser {
  has_window : bool;
  getItem : string -> Completion (option string);
  JSON_parse : string -> Completion JsonValue
}.

(** [stored ? a : b]: [null] and the empty string are falsy. *)
Definition truthy (stored : option string) : bool :=
  match stored with
  | None => false
  | Some s => negb (String.eqb s "")
  end.

(** [getWorkouts] returns what [JSON.parse] yields, whatever it is; the
    [catch] turns a throwing read or parse into the empty array. *)
Definition getWorkouts (env : Browser) : Completion JsonValue :=
  if negb (has_window env) then Returns (JsonArray [])
  else
    try_catch
      (bind_completion (getItem env STORAGE_KEY) (fun stored =>
         if truthy stored then JSON_parse env (default "" stored)
         else Returns (JsonArray [])))
      (fun error => Returns (JsonArray [])).

(** [workouts.find], [workouts.push], [workouts.findIndex] and
    [workouts.filter]: only an array has the method; on [null] the
    property read throws, on any other value the method is undefined and
    calling it throws, a TypeError both times. *)
Definition array_method (workouts : JsonValue)
  : Completion (list JsonElement) :=
  match workouts with
  | JsonArray elements => Returns elements
  | _ => Throws "TypeError"
  end.

(** [elements.find((w) => w.id === id)], elements visited in order. *)
Fixpoint find_by_id (id0 : string) (elements : list JsonElement)
  : Completion (option WorkoutPlan) :=
  match elements with
  | [] => Returns None
  | ElemPlan w :: rest =>
      if decide (id w = id0) then Returns (Some w) else find_by_id id0 rest
  | ElemNull :: _ => Throws "TypeError"
  | ElemOther _ :: rest => find_by_id id0 rest
  end.

(** [workouts.find((w) => w.id === id) || null]; [None] is [null]. *)
Definition getWorkout (env : Browser) (id0 : string)
  : Completion (option WorkoutPlan) :=
  bind_completion (getWorkouts env) (fun workouts =>
    bind_completion (array_method workouts) (fun elements =>
      find_by_id id0 elements)).

(* ===================================================================== *)
(** ** 6. Editor: moveItem (edit page and create page)                    *)
(* ===================================================================== *)

Inductive Direction := up | down.

(** [[a[i], a[j]] = [a[j], a[i]]] on the copy; both cells exist at the
    two call sites, where the guards keep the indices in range. *)
Definition swap_cells {A} (i j : nat) (newItems : list A) : list A :=
  match newItems !! i, newItems !! j with
  | Some x, Some y => <[j := x]> (<[i := y]> newItems)
  | _, _ => newItems
  end.

(** [items.findIndex((item) => item.id === itemId)]; [None] is -1. *)
Definition findIndex (itemId : string) (items : list WorkoutItem) : option nat :=
  fst <$> list_find (fun item => item_id item = itemId) items.

(** The part of [moveInItems] after the [index === -1] test. *)
Definition move_at (direction : Direction) (index : nat)
    (items : list WorkoutItem) : list WorkoutItem :=
  let newItems := items in
  match direction with
  | up =>
      if (0 <? index)%nat then swap_cells (index - 1) index newItems
      else newItems
  | down =>
      if Z.of_nat index <? Z.of_nat (length items) - 1
      then swap_cells index (index + 1) newItems
      else newItems
  end.

(** The callback of [items.map] in the [index === -1] branch: a set is
    rebuilt around [moveInItems(item.items)], anything else is returned
    as it is. *)
Fixpoint moveInItem (itemId : string) (direction : Direction)
    (item : WorkoutItem) : WorkoutItem :=
  match item with
  | ItemSet i repetitions children nm =>
      ItemSet i repetitions
        (match findIndex itemId children with
         | None => map (moveInItem itemId direction) children
         | Some index => move_at direction index children
         end) nm
  | _ => item
  end.

Definition moveInItems (itemId : string) (direction : Direction)
    (items : list WorkoutItem) : list WorkoutItem :=
  match findIndex itemId items with
  | None => map (moveInItem itemId direction) items
  | Some index => move_at direction index items
  end.

(** Every identifier of the tree, parents before children. *)
Fixpoint item_ids (item : WorkoutItem) : list string :=
  match item with
  | ItemSet i _ children _ => i :: flat_map item_ids children
  | _ => [item_id item]
  end.

Definition tree_ids (items : list WorkoutItem) : list string :=
  flat_map item_ids items.

(* ===================================================================== *)
(** ** 7. Playback (timer page)                                           *)
(* ===================================================================== *)

Inductive TimerState :=
| ts_ready | ts_countdown_start | ts_countdown_transition
| ts_running | ts_paused | ts_completed.

Inductive ExerciseStatus := es_pending | es_running | es_completed | es_skipped.

Inductive CountdownType := cd_start | cd_transition.

(** What the callback installed by [startCountdown] closed over: the two
    arguments, and the [totalElapsedTime] of the render that created this
    instance of [startCountdown]. *)
Record Countdown := mkCountdown {
  cd_type : CountdownType;
  cd_targetIndex : option nat;
  cd_totalElapsedTime : Z
}.

(** What the playback callback installed by the tick effect closed over:
    the [currentExerciseIndex] of the render that ran the effect, and,
    through that render's [startCountdown], its [totalElapsedTime]. *)
Record Tick := mkTick {
  tick_currentExerciseIndex : nat;
  tick_totalElapsedTime : Z
}.

(** The component's state variables, its refs, the two interval handles
    ([None]: no live interval) and the log of [playBeep] calls
    (frequency, duration), newest first. *)
Record Playback := mkPlayback {
  timerState : TimerState;
  currentExerciseIndex : nat;
  remainingTime : Z;
  totalElapsedTime : Z;
  countdownValue : Z;
  nextExerciseIndex : nat;
  exerciseStatuses : list (option ExerciseStatus);
  showStopConfirm : bool;
  currentExerciseElapsed : Z;
  exerciseElapsedTimes : list (option Z);
  startTimeRef : Z;
  pausedTimeRef : Z;
  currentExerciseStartRef : Z;
  intervalRef : option Tick;
  countdownIntervalRef : option Countdown;
  beeps : list (Z * Z)
}.

Definition set_timerState (v : TimerState) (s : Playback) : Playback :=
  match s with
  | mkPlayback x0 x1 x2 x3 x4 x5 x6 x7 x8 x9 x10 x11 x12 x13 x14 x15 =>
    mkPlayback v x1 x2 x3 x4 x5 x6 x7 x8 x9 x10 x11 x12 x13 x14 x15
  end.

Definition set_currentExerciseIndex (v : nat) (s : Playback) : Playback :=
  match s with
  | mkPlayback x0 x1 x2 x3 x4 x5 x6 x7 x8 x9 x10 x11 x12 x13 x14 x15 =>
    mkPlayback x0 v x2 x3 x4 x5 x6 x7 x8 x9 x10 x11 x12 x13 x14 x15
  end.

Definition set_remainingTime (v : Z) (s : Playback) : Playback :=
  match s with
  | mkPlayback x0 x1 x2 x3 x4 x5 x6 x7 x8 x9 x10 x11 x12 x13 x14 x15 =>
    mkPlayback x0 x1 v x3 x4 x5 x6 x7 x8 x9 x10 x11 x12 x13 x14 x15
  end.

Definition set_totalElapsedTime (v : Z) (s : Playback) : Playback :=
  match s with
  | mkPlayback x0 x1 x2 x3 x4 x5 x6 x7 x8 x9 x10 x11 x12 x13 x14 x15 =>
    mkPlayback x0 x1 x2 v x4 x5 x6 x7 x8 x9 x10 x11 x12 x13 x14 x15
  end.

Definition set_countdownValue (v : Z) (s : Playback) : Playback :=
  match s with
  | mkPlayback x0 x1 x2 x3 x4 x5 x6 x7 x8 x9 x10 x11 x12 x13 x14 x15 =>
    mkPlayback x0 x1 x2 x3 v x5 x6 x7 x8 x9 x10 x11 x12 x13 x14 x15
  end.

Definition set_nextExerciseIndex (v : nat) (s : Playback) : Playback :=
  match s with
  | mkPlayback x0 x1 x2 x3 x4 x5 x6 x7 x8 x9 x10 x11 x12 x13 x14 x15 =>
    mkPlayback x0 x1 x2 x3 x4 v x6 x7 x8 x9 x10 x11 x12 x13 x14 x15
  end.

Definition set_exerciseStatuses (v : list (option ExerciseStatus)) (s : Playback) : Playback :=
  match s with
  | mkPlayback x0 x1 x2 x3 x4 x5 x6 x7 x8 x9 x10 x11 x12 x13 x14 x15 =>
    mkPlayback x0 x1 x2 x3 x4 x5 v x7 x8 x9 x10 x11 x12 x13 x14 x15
  end.

Definition set_showStopConfirm (v : bool) (s : Playback) : Playback :=
  match s with
  | mkPlayback x0 x1 x2 x3 x4 x5 x6 x7 x8 x9 x10 x11 x12 x13 x14 x15 =>
    mkPlayback x0 x1 x2 x3 x4 x5 x6 v x8 x9 x10 x11 x12 x13 x14 x15
  end.

Definition set_currentExerciseElapsed (v : Z) (s : Playback) : Playback :=
  match s with
  | mkPlayback x0 x1 x2 x3 x4 x5 x6 x7 x8 x9 x10 x11 x12 x13 x14 x15 =>
    mkPlayback x0 x1 x2 x3 x4 x5 x6 x7 v x9 x10 x11 x12 x13 x14 x15
  end.

Definition set_exerciseElapsedTimes (v : list (option Z)) (s : Playback) : Playback :=
  match s with
  | mkPlayback x0 x1 x2 x3 x4 x5 x6 x7 x8 x9 x10 x11 x12 x13 x14 x15 =>
    mkPlayback x0 x1 x2 x3 x4 x5 x6 x7 x8 v x10 x11 x12 x13 x14 x15
  end.

Definition set_startTimeRef (v : Z) (s : Playback) : Playback :=
  match s with
  | mkPlayback x0 x1 x2 x3 x4 x5 x6 x7 x8 x9 x10 x11 x12 x13 x14 x15 =>
    mkPlayback x0 x1 x2 x3 x4 x5 x6 x7 x8 x9 v x11 x12 x13 x14 x15
  end.

Definition set_pausedTimeRef (v : Z) (s : Playback) : Playback :=
  match s with
  | mkPlayback x0 x1 x2 x3 x4 x5 x6 x7 x8 x9 x10 x11 x12 x13 x14 x15 =>
    mkPlayback x0 x1 x2 x3 x4 x5 x6 x7 x8 x9 x10 v x12 x13 x14 x15
  end.

Definition set_currentExerciseStartRef (v : Z) (s : Playback) : Playback :=
  match s with
  | mkPlayback x0 x1 x2 x3 x4 x5 x6 x7 x8 x9 x10 x11 x12 x13 x14 x15 =>
    mkPlayback x0 x1 x2 x3 x4 x5 x6 x7 x8 x9 x10 x11 v x13 x14 x15
  end.

Definition set_intervalRef (v : option Tick) (s : Playback) : Playback :=
  match s with
  | mkPlayback x0 x1 x2 x3 x4 x5 x6 x7 x8 x9 x10 x11 x12 x13 x14 x15 =>
    mkPlayback x0 x1 x2 x3 x4 x5 x6 x7 x8 x9 x10 x11 x12 v x14 x15
  end.

Definition set_countdownIntervalRef (v : option Countdown) (s : Playback) : Playback :=
  match s with
  | mkPlayback x0 x1 x2 x3 x4 x5 x6 x7 x8 x9 x10 x11 x12 x13 x14 x15 =>
    mkPlayback x0 x1 x2 x3 x4 x5 x6 x7 x8 x9 x10 x11 x12 x13 v x15
  end.

Definition set_beeps (v : list (Z * Z)) (s : Playback) : Playback :=
  match s with
  | mkPlayback x0 x1 x2 x3 x4 x5 x6 x7 x8 x9 x10 x11 x12 x13 x14 x15 =>
    mkPlayback x0 x1 x2 x3 x4 x5 x6 x7 x8 x9 x10 x11 x12 x13 x14 v
  end.

(** [arr[i] = v] on a JavaScript array: in range it overwrites the cell;
    past the end it extends the array, leaving holes in between. *)
Definition js_set {A} (i : nat) (v : A) (arr : list (option A))
  : list (option A) :=
  if (i <? length arr)%nat then <[i := Some v]> arr
  else arr ++ replicate (i - length arr) None ++ [Some v].

(** [arr[i]]: [None] for a hole and for an index past the end. *)
Definition js_get {A} (arr : list (option A)) (i : nat) : option A :=
  match arr !! i with
  | Some cell => cell
  | None => None
  end.

Definition timerState_eqb (a b : TimerState) : bool :=
  match a, b with
  | ts_ready, ts_ready
  | ts_countdown_start, ts_countdown_start
  | ts_countdown_transition, ts_countdown_transition
  | ts_running, ts_running
  | ts_paused, ts_paused
  | ts_completed, ts_completed => true
  | _, _ => false
  end.

(** [useState] initial values and [useRef] initial values. *)
Definition useState_defaults : Playback :=
  mkPlayback ts_ready 0%nat 0 0 0 0%nat [] false 0 [] 0 0 0 None None [].

(** The functional update shared by tick completion and skip:
    [newStatuses[i] = mark; if (i + 1 < newStatuses.length)
     newStatuses[i + 1] = "running"]. *)
Definition advance_statuses (mark : ExerciseStatus) (i : nat)
    (prev : list (option ExerciseStatus)) : list (option ExerciseStatus) :=
  let newStatuses := js_set i mark prev in
  if (i + 1 <? length newStatuses)%nat
  then js_set (i + 1) es_running newStatuses
  else newStatuses.

(** [xs.map((_, index) => (index === 0 ? "running" : "pending"))];
    [map] leaves holes as holes. *)
Definition reset_status {A} (index : nat) (_ : A) : ExerciseStatus :=
  if (index =? 0)%nat then es_running else es_pending.

(** [r === 3 || r === 2 || r === 1], the test of the warning cue. *)
Definition is_threshold (r : Z) : bool := (r =? 3) || (r =? 2) || (r =? 1).

Definition playBeep (frequency duration0 : Z) (s : Playback) : Playback :=
  set_beeps ((frequency, duration0) :: beeps s) s.

Inductive Action :=
| ClickStart        (* "start" in ready, "continue" in paused: handleStart *)
| ClickPause        (* handlePause *)
| ClickStop         (* "stop", and "restart" on the completed view: handleStop *)
| ClickConfirmStop  (* dialog: confirmStop *)
| ClickCancelStop   (* dialog: setShowStopConfirm(false) *)
| ClickSkip         (* handleSkip *)
| PlaybackTick      (* the 100 ms interval fires *)
| CountdownTick.    (* the 1000 ms interval fires *)

Inductive View :=
| LoadingView | NotFoundView | CompletedView | CountdownView | MainView.

Section Playback.

Variable workout : WorkoutPlan.

Definition timeline : list TimerExercise := completeTimeline workout.

(** The two mount effects that depend on [workout] only. *)
Definition init : Playback :=
  let s := useState_defaults in
  let s := set_exerciseStatuses
             (imap (fun index x => Some (reset_status index x)) timeline) s in
  let s := set_exerciseElapsedTimes (map (fun _ => Some 0) timeline) s in
  match timeline !! currentExerciseIndex s with
  | Some currentExercise => set_remainingTime (te_duration currentExercise) s
  | None => s
  end.

(** [startCountdown(type, targetIndex)]; [captured] is the
    [totalElapsedTime] this instance of the function closed over. *)
Definition startCountdown (captured : Z) (type : CountdownType)
    (targetIndex : option nat) (s : Playback) : Playback :=
  let countdownDuration := match type with cd_start => 5 | cd_transition => 3 end in
  let s := set_countdownValue countdownDuration s in
  let s := set_timerState
             (match type with
              | cd_start => ts_countdown_start
              | cd_transition => ts_countdown_transition
              end) s in
  let s := match targetIndex with
           | Some t => set_nextExerciseIndex t s
           | None => s
           end in
  set_countdownIntervalRef (Some (mkCountdown type targetIndex captured)) s.

(** The callback of the countdown interval.  [startCountdown] is only
    called with a target for a transition, so [targetIndex!] is a number
    there. *)
Definition countdown_callback (c : Countdown) (now : Z) (s : Playback)
  : Playback :=
  let prev := countdownValue s in
  let newValue := prev - 1 in
  let s := if 0 <? newValue then playBeep 800 200 s else playBeep 1000 400 s in
  let s :=
    if newValue <=? 0 then
      let s := set_countdownIntervalRef None s in
      match cd_type c with
      | cd_start =>
          let s := set_startTimeRef now s in
          let s := set_currentExerciseStartRef now s in
          let s := set_pausedTimeRef 0 s in
          let s := set_currentExerciseElapsed 0 s in
          set_timerState ts_running s
      | cd_transition =>
          let s := set_currentExerciseIndex
                     (default (currentExerciseIndex s) (cd_targetIndex c)) s in
          let s := set_startTimeRef now s in
          let s := set_currentExerciseStartRef now s in
          let s := set_pausedTimeRef (cd_totalElapsedTime c) s in
          let s := set_currentExerciseElapsed 0 s in
          set_timerState ts_running s
      end
    else s in
  set_countdownValue newValue s.

(** The callback of the playback interval; [Math.floor(x / 1000)] on an
    integer is [x / 1000] in [Z]. *)
Definition tick_callback (k : Tick) (now : Z) (s : Playback) : Playback :=
  let currentExerciseIndex := tick_currentExerciseIndex k in
  match timeline !! currentExerciseIndex with
  | None => s
  | Some currentExercise =>
      let elapsed := (now - startTimeRef s) / 1000 + pausedTimeRef s in
      let currentElapsed := (now - currentExerciseStartRef s) / 1000 in
      let currentRemaining := te_duration currentExercise - currentElapsed in
      let s := set_totalElapsedTime elapsed s in
      let s := set_currentExerciseElapsed currentElapsed s in
      let s := set_remainingTime (Z.max 0 currentRemaining) s in
      let s :=
        if is_threshold currentRemaining then playBeep 600 150 s else s in
      if currentRemaining <=? 0 then
        let s := set_exerciseStatuses
                   (advance_statuses es_completed currentExerciseIndex
                      (exerciseStatuses s)) s in
        if Z.of_nat currentExerciseIndex <? Z.of_nat (length timeline) - 1 then
          let s := set_intervalRef None s in
          startCountdown (tick_totalElapsedTime k) cd_transition
            (Some (currentExerciseIndex + 1)%nat) s
        else
          let s := set_timerState ts_completed s in
          set_intervalRef None s
      else s
  end.

(** Click handlers: [r] is the render the handler belongs to, whose state
    variables the handler reads. *)
Definition confirmStop (r : Playback) : Playback :=
  let s := set_countdownIntervalRef None r in
  let s := set_timerState ts_ready s in
  let s := set_currentExerciseIndex 0%nat s in
  let s := set_remainingTime
             (match timeline !! 0%nat with
              | Some first => te_duration first
              | None => 0
              end) s in
  let s := set_totalElapsedTime 0 s in
  let s := set_currentExerciseElapsed 0 s in
  let s := set_exerciseElapsedTimes [] s in
  let s := set_pausedTimeRef 0 s in
  let s := set_showStopConfirm false s in
  set_exerciseStatuses
    (imap (fun index cell => reset_status index <$> cell) (exerciseStatuses s)) s.

Definition handleStop (r : Playback) : Playback :=
  match timerState r with
  | ts_running | ts_paused => set_showStopConfirm true r
  | _ => confirmStop r
  end.

Definition handleSkip (r : Playback) : Playback :=
  let currentExerciseIndex := currentExerciseIndex r in
  if Z.of_nat currentExerciseIndex <? Z.of_nat (length timeline) - 1 then
    match timeline !! currentExerciseIndex with
    | None => r
    | Some currentExercise =>
        let s := set_exerciseElapsedTimes
                   (js_set currentExerciseIndex (currentExerciseElapsed r)
                      (exerciseElapsedTimes r)) r in
        let s := set_exerciseStatuses
                   (advance_statuses es_skipped currentExerciseIndex
                      (exerciseStatuses s)) s in
        let s := set_intervalRef None s in
        let nextIndex := (currentExerciseIndex + 1)%nat in
        let s := set_totalElapsedTime (endTime currentExercise) s in
        let s := set_pausedTimeRef (endTime currentExercise) s in
        startCountdown (totalElapsedTime r) cd_transition (Some nextIndex) s
    end
  else r.

Definition handleStart (now : Z) (r : Playback) : Playback :=
  match timerState r with
  | ts_ready => startCountdown (totalElapsedTime r) cd_start None r
  | ts_paused =>
      let s := set_startTimeRef now r in
      let s := set_currentExerciseStartRef
                 (now - currentExerciseElapsed r * 1000) s in
      set_timerState ts_running s
  | _ => r
  end.

Definition handlePause (r : Playback) : Playback :=
  match timerState r with
  | ts_running =>
      let s := set_pausedTimeRef (totalElapsedTime r) r in
      set_timerState ts_paused s
  | _ => r
  end.

(** The effects React runs after the render that follows an event, with
    [before] the previous render and [after] the new one; [now] is
    [Date.now()] at that moment.
    - deps [workout, timerState, currentExerciseIndex]: clean up the old
      playback interval and, when running on an existing step, install a
      new one that closes over the new render;
    - deps [workout, currentExerciseIndex]: reload the remaining time. *)
Definition run_effects (before after : Playback) (now : Z) : Playback :=
  let index_changed :=
    negb (currentExerciseIndex before =? currentExerciseIndex after)%nat in
  let state_changed :=
    negb (timerState_eqb (timerState before) (timerState after)) in
  let s := after in
  let s :=
    if state_changed || index_changed then
      match timerState after, timeline !! currentExerciseIndex after with
      | ts_running, Some _ =>
          set_intervalRef
            (Some (mkTick (currentExerciseIndex after) (totalElapsedTime after))) s
      | _, _ => set_intervalRef None s
      end
    else s in
  if index_changed then
    match timeline !! currentExerciseIndex after with
    | Some currentExercise =>
        let s := set_remainingTime (te_duration currentExercise) s in
        match timerState after with
        | ts_running => set_currentExerciseStartRef now s
        | _ => s
        end
    | None => s
    end
  else s.

Definition handler (a : Action) (now : Z) (s : Playback) : Playback :=
  match a with
  | ClickStart => handleStart now s
  | ClickPause => handlePause s
  | ClickStop => handleStop s
  | ClickConfirmStop => confirmStop s
  | ClickCancelStop => set_showStopConfirm false s
  | ClickSkip => handleSkip s
  | PlaybackTick =>
      match intervalRef s with
      | Some k => tick_callback k now s
      | None => s
      end
  | CountdownTick =>
      match countdownIntervalRef s with
      | Some c => countdown_callback c now s
      | None => s
      end
  end.

(** Which view the component returns once the plan is loaded. *)
Definition view_of (s : Playback) : View :=
  match timerState s with
  | ts_completed => CompletedView
  | ts_countdown_start | ts_countdown_transition => CountdownView
  | _ => MainView
  end.

(** Which actions the page offers: a button that the current view
    renders, or an interval that is live. *)
Definition enabled (a : Action) (s : Playback) : bool :=
  let currentExercise := timeline !! currentExerciseIndex s in
  let nextExercise := timeline !! (currentExerciseIndex s + 1)%nat in
  match a, timerState s with
  | ClickStart, (ts_ready | ts_paused) => bool_decide (is_Some currentExercise)
  | ClickPause, ts_running => bool_decide (is_Some currentExercise)
  | ClickStop, (ts_running | ts_paused) => bool_decide (is_Some currentExercise)
  | ClickStop, ts_completed => true
  | ClickSkip, ts_running =>
      bool_decide (is_Some currentExercise) && bool_decide (is_Some nextExercise)
  | (ClickConfirmStop | ClickCancelStop), (ts_ready | ts_running | ts_paused) =>
      showStopConfirm s
  | PlaybackTick, _ => bool_decide (is_Some (intervalRef s))
  | CountdownTick, _ => bool_decide (is_Some (countdownIntervalRef s))
  | _, _ => false
  end.

(** One event: the handler, then the render and its effects. *)
Definition step (a : Action) (now : Z) (s : Playback) : option Playback :=
  if enabled a s then Some (run_effects s (handler a now s) now) else None.

Fixpoint run (events : list (Action * Z)) (s : Playback) : option Playback :=
  match events with
  | [] => Some s
  | (a, now) :: rest =>
      match step a now s with
      | Some s' => run rest s'
      | None => None
      end
  end.

Inductive reachable : Playback -> Prop :=
| reachable_init : reachable init
| reachable_step a now s s' :
    reachable s -> step a now s = Some s' -> reachable s'.

End Playback.

(* ===================================================================== *)
(** ** 8. The timer page around playback                                  *)
(* ===================================================================== *)

(** [workout], [isLoading] and the playback state of one mounted page. *)
Record Page := mkPage {
  pg_workout : option WorkoutPlan;
  pg_isLoading : bool;
  pg_playback : Playback
}.

Definition mounted : Page := mkPage None true useState_defaults.

(** The mount effect: [setWorkout(getWorkout(params.id))],
    [setIsLoading(false)]; the effects that depend on [workout] return at
    once when it is [null].  The effect has no [catch]: when [getWorkout]
    throws, the effect throws and no view of the page is rendered. *)
Definition loadWorkout (env : Browser) (id0 : string) (pg : Page)
  : Completion Page :=
  bind_completion (getWorkout env id0) (fun loadedWorkout =>
    Returns (mkPage loadedWorkout false
               (match loadedWorkout with
                | Some w => init w
                | None => pg_playback pg
                end))).

(** The early returns of the component, then the playback views. *)
Definition TimerPage_view (pg : Page) : View :=
  if pg_isLoading pg then LoadingView
  else match pg_workout pg with
       | None => NotFoundView
       | Some _ => view_of (pg_playback pg)
       end.


(* ===================================================================== *)
(** ** 9. Specification vocabulary                                        *)
(* ===================================================================== *)

(** The status array has its running cell at [k]: finished cells before,
    pending cells after. *)
Definition status_shape (k : nat) (statuses : list (option ExerciseStatus))
  : Prop :=
  js_get statuses k = Some es_running /\
  (forall i, (i < k)%nat ->
     js_get statuses i = Some es_completed \/
     js_get statuses i = Some es_skipped) /\
  (forall i, (k < i)%nat -> (i < length statuses)%nat ->
     js_get statuses i = Some es_pending).

Definition active (st : TimerState) : Prop :=
  st = ts_running \/ st = ts_paused \/
  st = ts_countdown_start \/ st = ts_countdown_transition.

(** The step whose status is "running" in each state: the current one,
    or the target of the transition under way. *)
Definition running_index (s : Playback) : nat :=
  match timerState s with
  | ts_countdown_transition => nextExerciseIndex s
  | _ => currentExerciseIndex s
  end.

(** The thresholds at which the warning cue sounds over consecutive
    playback ticks from [s]: a tick that adds a beep to the log sounded
    it at the remaining time it displayed. *)
Fixpoint warning_cues (workout : WorkoutPlan) (ticks : list Z) (s : Playback)
  : list Z :=
  match ticks with
  | [] => []
  | now :: rest =>
      match step workout PlaybackTick now s with
      | None => []
      | Some s' =>
          (if (length (beeps s') =? S (length (beeps s)))%nat
           then [remainingTime s'] else [])
          ++ warning_cues workout rest s'
      end
  end.

(** The whole seconds a step of length [d] that began at [start] has
    left at time [now]. *)
Definition remaining_at (d start now : Z) : Z := d - (now - start) / 1000.

(** Written from the specification's words for [moveItem]: the result
    differs from the tree in one sibling list, the one that holds the
    item, where the item either stays (first and moving up, last and
    moving down) or changes place with its neighbour. *)
Inductive sibling_move (itemId : string)
  : Direction -> list WorkoutItem -> list WorkoutItem -> Prop :=
| move_first_up x post :
    item_id x = itemId ->
    sibling_move itemId up (x :: post) (x :: post)
| move_last_down pre x :
    item_id x = itemId ->
    sibling_move itemId down (pre ++ [x]) (pre ++ [x])
| move_swap_up pre a x post :
    item_id x = itemId ->
    sibling_move itemId up (pre ++ a :: x :: post) (pre ++ x :: a :: post)
| move_swap_down pre x b post :
    item_id x = itemId ->
    sibling_move itemId down (pre ++ x :: b :: post) (pre ++ b :: x :: post)
| move_inside dir pre i repetitions children children' nm post :
    sibling_move itemId dir children children' ->
    sibling_move itemId dir
      (pre ++ ItemSet i repetitions children nm :: post)
      (pre ++ ItemSet i repetitions children' nm :: post).

(** One 40 s run with a warm-up of -60 s, as the editor stores it when
    -1 is typed into the minutes field ([parseInt("-1") * 60]), and with
    a cool-down of -60 s. *)
Definition negative_warmup_plan : WorkoutPlan :=
  mkPlan "n" "negative" "" (-60) 0
    [ItemExercise (mkExercise "e" running 40 None None)] 0 0.

Definition negative_cooldown_plan : WorkoutPlan :=
  mkPlan "n" "negative" "" 0 (-60)
    [ItemExercise (mkExercise "e" running 40 None None)] 0 0.

(** The plan of the skip scenario: warm-up 10 s, one 30 s run,
    cool-down 10 s. *)
Definition skip_plan : WorkoutPlan :=
  mkPlan "p" "skip" "" 10 10
    [ItemExercise (mkExercise "e" running 30 None None)] 0 0.

(** Start, the five-second countdown, warm-up to its end, the
    three-second countdown, then five seconds of the run. *)
Definition skip_prefix : list (Action * Z) :=
  [(ClickStart, 0);
   (CountdownTick, 1000); (CountdownTick, 2000); (CountdownTick, 3000);
   (CountdownTick, 4000); (CountdownTick, 5000);
   (PlaybackTick, 10000); (PlaybackTick, 15000);
   (CountdownTick, 16000); (CountdownTick, 17000); (CountdownTick, 18000);
   (PlaybackTick, 22000); (PlaybackTick, 23000)].

(** The skip, its countdown, and the first tick of the cool-down. *)
Definition skip_suffix : list (Action * Z) :=
  [(CountdownTick, 24050); (CountdownTick, 25050); (CountdownTick, 26050);
   (PlaybackTick, 26150)].

(** A plan of one 10 s run, and the events that bring it to its first
    running step (which then began at time 5000). *)
Definition cue_plan : WorkoutPlan :=
  mkPlan "c" "cue" "" 0 0
    [ItemExercise (mkExercise "e" running 10 None None)] 0 0.

Definition cue_start : list (Action * Z) :=
  [(ClickStart, 0);
   (CountdownTick, 1000); (CountdownTick, 2000); (CountdownTick, 3000);
   (CountdownTick, 4000); (CountdownTick, 5000)].

(** A tree for the editor: a rest, then a set of an exercise and a rest. *)
Definition move_tree : list WorkoutItem :=
  [ItemRest (mkRest "a" 15 None);
   ItemSet "s" 2
     [ItemExercise (mkExercise "x" running 30 None None);
      ItemRest (mkRest "y" 15 None)] None].

(** What holds of the playback state between events, state by state:
    which interval is live and what it closed over, where the current
    index stands, and the shape of the status array. *)
Definition playback_inv (workout : WorkoutPlan) (s : Playback) : Prop :=
  let n := length (timeline workout) in
  let idx := currentExerciseIndex s in
  length (exerciseStatuses s) = n /\
  (forall i, (i < n)%nat -> is_Some (js_get (exerciseStatuses s) i)) /\
  match timerState s with
  | ts_ready =>
      idx = 0%nat /\ intervalRef s = None /\ countdownIntervalRef s = None /\
      ((0 < n)%nat -> status_shape 0 (exerciseStatuses s))
  | ts_countdown_start =>
      idx = 0%nat /\ intervalRef s = None /\
      (exists c, countdownIntervalRef s = Some c /\ cd_type c = cd_start) /\
      (0 < n)%nat /\ status_shape 0 (exerciseStatuses s)
  | ts_running =>
      (idx < n)%nat /\
      (exists k, intervalRef s = Some k /\ tick_currentExerciseIndex k = idx) /\
      countdownIntervalRef s = None /\
      status_shape idx (exerciseStatuses s)
  | ts_paused =>
      (idx < n)%nat /\ intervalRef s = None /\ countdownIntervalRef s = None /\
      status_shape idx (exerciseStatuses s)
  | ts_countdown_transition =>
      nextExerciseIndex s = (idx + 1)%nat /\ (idx + 1 < n)%nat /\
      intervalRef s = None /\
      (exists c, countdownIntervalRef s = Some c /\
                 cd_type c = cd_transition /\
                 cd_targetIndex c = Some (idx + 1)%nat) /\
      status_shape (idx + 1) (exerciseStatuses s)
  | ts_completed => intervalRef s = None /\ countdownIntervalRef s = None
  end.

(** The displayed remaining time agrees with the displayed elapsed time
    of the current step: it is what the last tick computed, or the
    step has not ticked yet and shows its whole duration. *)
Definition remaining_inv (workout : WorkoutPlan) (s : Playback) : Prop :=
  match timerState s with
  | ts_ready | ts_countdown_start =>
      currentExerciseElapsed s = 0 /\
      forall ex, timeline workout !! 0%nat = Some ex ->
                 remainingTime s = te_duration ex
  | ts_running | ts_paused =>
      forall ex, timeline workout !! currentExerciseIndex s = Some ex ->
                 remainingTime s
                 = Z.max 0 (te_duration ex - currentExerciseElapsed s) \/
                 (currentExerciseElapsed s = 0 /\
                  remainingTime s = te_duration ex)
  | _ => True
  end.

(** What one playback tick at [now] makes of a running state [s] on the
    step [ex]: the displayed times, the beep log, and what stays as it
    was while the step has time left. *)
Definition tick_post (s : Playback) (ex : TimerExercise) (now : Z)
    (s' : Playback) : Prop :=
  let r := remaining_at (te_duration ex) (currentExerciseStartRef s) now in
  totalElapsedTime s' = (now - startTimeRef s) / 1000 + pausedTimeRef s /\
  currentExerciseElapsed s' = (now - currentExerciseStartRef s) / 1000 /\
  remainingTime s' = Z.max 0 r /\
  beeps s' = (if is_threshold r then [(600, 150)] else []) ++ beeps s /\
  (0 < r ->
   timerState s' = timerState s /\
   intervalRef s' = intervalRef s /\
   currentExerciseIndex s' = currentExerciseIndex s /\
   currentExerciseStartRef s' = currentExerciseStartRef s /\
   exerciseStatuses s' = exerciseStatuses s).

(* ===================================================================== *)
(** ** 10. Storage writes (lib/timer-storage)                             *)
(* ===================================================================== *)

(** [localStorage] as the storage functions use it: whether [window]
    exists, the stored strings, whether [getItem] throws, and for which
    key and value [setItem] throws (a full quota, a disabled store). *)
Record LocalStorage := mkLocalStorage {
  ls_window : bool;
  ls_contents : gmap string string;
  ls_getItem_throws : bool;
  ls_setItem_throws : string -> string -> bool
}.

(** [JSON.stringify], which the code applies to the array it read (and
    changed), and [JSON.parse], which yields any value or throws. *)
Record Json := mkJson {
  json_stringify : list JsonElement -> string;
  json_parse : string -> Completion JsonValue
}.

(** What [createWorkout] takes:
    [Omit<WorkoutPlan, "id" | "createdAt" | "updatedAt">]. *)
Record WorkoutDraft := mkDraft {
  draft_name : string;
  draft_description : string;
  draft_warmupTime : Z;
  draft_cooldownTime : Z;
  draft_items : list WorkoutItem
}.

(** [Partial<Omit<WorkoutPlan, "id" | "createdAt">>]: a field is [None]
    when the object does not have it. *)
Record WorkoutUpdates := mkUpdates {
  upd_name : option string;
  upd_description : option string;
  upd_warmupTime : option Z;
  upd_cooldownTime : option Z;
  upd_items : option (list WorkoutItem);
  upd_updatedAt : option Z
}.

(** The two overloads of [updateWorkout]. *)
Inductive UpdateArgs :=
| UpdateWhole (workout : WorkoutPlan)
| UpdateById (id0 : string) (updates : option WorkoutUpdates).

Section Storage.

Variable json : Json.

(** The reading side, as [getWorkouts] sees it. *)
Definition browser_of (d : LocalStorage) : Browser :=
  mkBrowser (ls_window d)
    (fun key => if ls_getItem_throws d then Throws "getItem"
                else Returns (ls_contents d !! key))
    (json_parse json).

Definition setItem (d : LocalStorage) (key value : string)
  : Completion LocalStorage :=
  if ls_setItem_throws d key value then Throws "setItem"
  else Returns (mkLocalStorage (ls_window d) (<[key := value]> (ls_contents d))
                  (ls_getItem_throws d) (ls_setItem_throws d)).

(** [saveWorkouts]: a failed write is logged and dropped. *)
Definition saveWorkouts (d : LocalStorage) (workouts : list JsonElement)
  : LocalStorage :=
  if negb (ls_window d) then d
  else match setItem d STORAGE_KEY (json_stringify json workouts) with
       | Returns d' => d'
       | Throws error => d
       end.

(** [createWorkout(workout)]; [newId] is what [generateId()] returns and
    [created], [updated] are the two readings of [Date.now()].
    [workouts.push] throws when [getWorkouts] gave no array, before
    anything is written. *)
Definition createWorkout (d : LocalStorage) (workout : WorkoutDraft)
    (newId : string) (created updated : Z)
  : Completion (WorkoutPlan * LocalStorage) :=
  let newWorkout :=
    mkPlan newId (draft_name workout) (draft_description workout)
      (draft_warmupTime workout) (draft_cooldownTime workout)
      (draft_items workout) created updated in
  bind_completion (getWorkouts (browser_of d)) (fun workouts =>
    bind_completion (array_method workouts) (fun workouts =>
      let workouts := workouts ++ [ElemPlan newWorkout] in
      let d := saveWorkouts d workouts in
      Returns (newWorkout, d))).

Definition no_updates : WorkoutUpdates :=
  mkUpdates None None None None None None.

(** [{ ...current, ...updateData, updatedAt: Date.now() }] *)
Definition merge_updates (current : WorkoutPlan) (updateData : WorkoutUpdates)
    (now : Z) : WorkoutPlan :=
  mkPlan (id current)
    (default (name current) (upd_name updateData))
    (default (description current) (upd_description updateData))
    (default (warmupTime current) (upd_warmupTime updateData))
    (default (cooldownTime current) (upd_cooldownTime updateData))
    (default (items current) (upd_items updateData))
    (createdAt current)
    now.

(** [workouts.findIndex((w) => w.id === id)] with the element found,
    elements visited in order from index [k]; [None] is -1. *)
Fixpoint find_index_from (k : nat) (id0 : string)
    (elements : list JsonElement) : Completion (option (nat * WorkoutPlan)) :=
  match elements with
  | [] => Returns None
  | ElemPlan w :: rest =>
      if decide (id w = id0) then Returns (Some (k, w))
      else find_index_from (S k) id0 rest
  | ElemNull :: _ => Throws "TypeError"
  | ElemOther _ :: rest => find_index_from (S k) id0 rest
  end.

(** [updateWorkout]; [None] is [null]. *)
Definition updateWorkout (d : LocalStorage) (args : UpdateArgs) (now : Z)
  : Completion (option WorkoutPlan * LocalStorage) :=
  bind_completion (getWorkouts (browser_of d)) (fun workouts =>
    let '(id0, updateData) :=
      match args with
      | UpdateById id0 updates => (id0, default no_updates updates)
      | UpdateWhole w =>
          (id w,
           mkUpdates (Some (name w)) (Some (description w))
             (Some (warmupTime w)) (Some (cooldownTime w)) (Some (items w))
             None)
      end in
    bind_completion (array_method workouts) (fun workouts =>
      bind_completion (find_index_from 0 id0 workouts) (fun found =>
        match found with
        | None => Returns (None, d)
        | Some (index, current) =>
            let merged := merge_updates current updateData now in
            let workouts := <[index := ElemPlan merged]> workouts in
            let d := saveWorkouts d workouts in
            Returns (Some merged, d)
        end))).

(** [workouts.filter((w) => w.id !== id)]: every element is visited; a
    value without an [id] is kept. *)
Fixpoint filter_out (id0 : string) (elements : list JsonElement)
  : Completion (list JsonElement) :=
  match elements with
  | [] => Returns []
  | ElemPlan w :: rest =>
      bind_completion (filter_out id0 rest) (fun kept =>
        Returns (if decide (id w <> id0) then ElemPlan w :: kept else kept))
  | ElemNull :: _ => Throws "TypeError"
  | ElemOther text :: rest =>
      bind_completion (filter_out id0 rest) (fun kept =>
        Returns (ElemOther text :: kept))
  end.

Definition deleteWorkout (d : LocalStorage) (id0 : string)
  : Completion (bool * LocalStorage) :=
  bind_completion (getWorkouts (browser_of d)) (fun workouts =>
    bind_completion (array_method workouts) (fun workouts =>
      bind_completion (filter_out id0 workouts) (fun filteredWorkouts =>
        if (length filteredWorkouts =? length workouts)%nat
        then Returns (false, d)
        else Returns (true, saveWorkouts d filteredWorkouts)))).

(** [existing.length > 0] on what [getWorkouts] gave: [null.length]
    throws; a boolean and a number have no [length], and
    [undefined > 0] is false. *)
Definition length_is_positive (existing : JsonValue) : Completion bool :=
  match existing with
  | JsonArray elements => Returns (0 <? length elements)%nat
  | JsonNull => Throws "TypeError"
  | JsonString s => Returns (0 <? String.length s)%nat
  | JsonObject length_positive => Returns length_positive
  | JsonBoolean _ | JsonNumber _ => Returns false
  end.

(** The three sample plans; [ids n] is the result of the [n]-th call of
    [generateId()] in the array literal. *)
Definition sampleWorkouts (ids : nat -> string) : list WorkoutDraft :=
  [ mkDraft "HIIT 러닝" "고강도 인터벌 훈련" 300 300
      [ ItemExercise (mkExercise (ids 0%nat) running 120 None None);
        ItemSet (ids 1%nat) 3
          [ ItemExercise (mkExercise (ids 2%nat) running 60 None None);
            ItemRest (mkRest (ids 3%nat) 30 None) ] None;
        ItemExercise (mkExercise (ids 4%nat) walking 180 None None) ];
    mkDraft "초보자 러닝" "걷기와 조깅 반복" 180 180
      [ ItemSet (ids 5%nat) 6
          [ ItemExercise (mkExercise (ids 6%nat) walking 90 None None);
            ItemExercise (mkExercise (ids 7%nat) running 60 None None) ]
          None ];
    mkDraft "스프린트 훈련" "단거리 전력질주 훈련" 600 600
      [ ItemSet (ids 8%nat) 5
          [ ItemExercise (mkExercise (ids 9%nat) running 30 None None);
            ItemRest (mkRest (ids 10%nat) 90 None) ] None;
        ItemExercise (mkExercise (ids 11%nat) walking 300 None None);
        ItemSet (ids 12%nat) 5
          [ ItemExercise (mkExercise (ids 13%nat) running 20 None None);
            ItemRest (mkRest (ids 14%nat) 60 None) ] None ] ].

(** [sampleWorkouts.forEach((workout) => createWorkout(workout))]; the
    [k]-th creation takes the next identifier and the next two clock
    readings. *)
Fixpoint create_each (ids : nat -> string) (clock : nat -> Z) (k : nat)
    (workouts : list WorkoutDraft) (d : LocalStorage)
  : Completion LocalStorage :=
  match workouts with
  | [] => Returns d
  | workout :: rest =>
      bind_completion
        (createWorkout d workout (ids (15 + k)%nat)
           (clock (2 * k)%nat) (clock (2 * k + 1)%nat))
        (fun created => create_each ids clock (S k) rest (snd created))
  end.

Definition initializeSampleData (d : LocalStorage) (ids : nat -> string)
    (clock : nat -> Z) : Completion LocalStorage :=
  bind_completion (getWorkouts (browser_of d)) (fun existing =>
    bind_completion (length_is_positive existing) (fun has_plans =>
      if has_plans then Returns d
      else create_each ids clock 0 (sampleWorkouts ids) d)).

(** The create page's [handleSave]: what the user is shown. *)
Inductive SaveOutcome :=
| AlertNameMissing
| AlertNoItems
| AlertSaveFailed
| NavigatedToView (id0 : string).

(** [trim] is [String.prototype.trim]. *)
Definition handleSave (trim : string -> string) (d : LocalStorage)
    (workout : WorkoutDraft) (newId : string) (created updated : Z)
  : SaveOutcome * LocalStorage :=
  if String.eqb (trim (draft_name workout)) "" then (AlertNameMissing, d)
  else if (length (draft_items workout) =? 0)%nat then (AlertNoItems, d)
  else match createWorkout d workout newId created updated with
       | Returns (savedWorkout, d') => (NavigatedToView (id savedWorkout), d')
       | Throws error => (AlertSaveFailed, d)
       end.

(** The edit page's [handleSave], with the loaded plan as edited. *)
Definition handleSaveEdit (trim : string -> string) (d : LocalStorage)
    (workout : WorkoutPlan) (now : Z) : SaveOutcome * LocalStorage :=
  if String.eqb (trim (name workout)) "" then (AlertNameMissing, d)
  else if (length (items workout) =? 0)%nat then (AlertNoItems, d)
  else match updateWorkout d (UpdateWhole workout) now with
       | Returns (Some updatedWorkout, d') => (NavigatedToView (id workout), d')
       | Returns (None, d') => (AlertSaveFailed, d')
       | Throws error => (AlertSaveFailed, d)
       end.

End Storage.

(* ===================================================================== *)
(** ** 11. Editor: add and remove (edit page and create page)             *)
(* ===================================================================== *)

(** The callback of [items.map] in [addToParent]: a set with the parent's
    identifier gets the new item at the end of its children and is not
    searched further; any other set is searched. *)
Fixpoint addToParentItem (parentId : string) (newItem : WorkoutItem)
    (item : WorkoutItem) : WorkoutItem :=
  match item with
  | ItemSet i repetitions children nm =>
      if String.eqb i parentId
      then ItemSet i repetitions (children ++ [newItem]) nm
      else ItemSet i repetitions
             (map (addToParentItem parentId newItem) children) nm
  | _ => item
  end.

Definition addToParent (items : list WorkoutItem) (parentId : string)
    (newItem : WorkoutItem) : list WorkoutItem :=
  map (addToParentItem parentId newItem) items.

(** The state update shared by [addExercise], [addRest] and [addSet]:
    [if (parentId)] is false for an absent and for an empty parent. *)
Definition addItem (parentId : option string) (newItem : WorkoutItem)
    (items : list WorkoutItem) : list WorkoutItem :=
  if truthy parentId then addToParent items (default "" parentId) newItem
  else items ++ [newItem].

Definition addExercise (type : ExerciseType) (intensity : IntensityLevel)
    (duration0 : Z) (parentId : option string) (newId : string)
    (items : list WorkoutItem) : list WorkoutItem :=
  addItem parentId
    (ItemExercise (mkExercise newId type duration0 (Some intensity) None)) items.

Definition addRest (duration0 : Z) (parentId : option string) (newId : string)
    (items : list WorkoutItem) : list WorkoutItem :=
  addItem parentId (ItemRest (mkRest newId duration0 None)) items.

Definition addSet (repetitions : Z) (parentId : option string) (newId : string)
    (items : list WorkoutItem) : list WorkoutItem :=
  addItem parentId (ItemSet newId repetitions [] None) items.

(** [items.filter((item) => item.id !== itemId).map(...)], with the
    recursion into the sets that remain. *)
Fixpoint removeFromItem (itemId : string) (item : WorkoutItem) : WorkoutItem :=
  match item with
  | ItemSet i repetitions children nm =>
      ItemSet i repetitions
        ((fix keep (l : list WorkoutItem) : list WorkoutItem :=
            match l with
            | [] => []
            | c :: rest =>
                if String.eqb (item_id c) itemId then keep rest
                else removeFromItem itemId c :: keep rest
            end) children) nm
  | _ => item
  end.

Definition removeFromItems (itemId : string) (items : list WorkoutItem)
  : list WorkoutItem :=
  map (removeFromItem itemId)
      (filter (fun item => item_id item <> itemId) items).

(* ===================================================================== *)
(** ** 12. Time display and intensity labels (pages, lib/timer-storage)   *)
(* ===================================================================== *)

(** [n.toString()] and the template literal on an integer. *)
Definition toString (n : Z) : string :=
  DecimalString.NilZero.string_of_int (Z.to_int n).

(** [s.padStart(targetLength, padString)]: the pad string is repeated
    and cut to fill the missing length; an empty pad string fills
    nothing. *)
Definition padStart (targetLength : nat) (padString s : string) : string :=
  let missing := (targetLength - String.length s)%nat in
  (String.substring 0 missing
     (String.concat "" (replicate missing padString)) ++ s)%string.

(** [formatTime]; [Math.floor(seconds / 60)] is [seconds / 60] and [%]
    takes the sign of the dividend. *)
Definition formatTime (seconds : Z) : string :=
  let mins := seconds / 60 in
  let secs := Z.rem seconds 60 in
  (toString mins ++ ":" ++ padStart 2 "0" (toString secs))%string.

(** Reading a decimal numeral. *)
Definition parseInt (s : string) : option Z :=
  Z.of_int <$> DecimalString.NilZero.int_of_string s.

(** Reading [m:ss] back as seconds: the last two characters are the
    seconds, the character before them is the colon. *)
Definition parse_clock (s : string) : option Z :=
  let n := String.length s in
  match parseInt (String.substring 0 (n - 3) s),
        String.get (n - 3) s,
        parseInt (String.substring (n - 2) 2 s) with
  | Some mins, Some ":"%char, Some secs => Some (mins * 60 + secs)
  | _, _, _ => None
  end.

Definition two_digits (secs : Z) : bool :=
  let shown := padStart 2 "0" (toString secs) in
  bool_decide (String.length shown = 2%nat /\ parseInt shown = Some secs).

(** [getIntensityLabel] (lib/timer-storage), on the runtime strings as
    [calculateFinalIntensity]. *)
Definition getIntensityLabel (type intensity : string) : string :=
  if String.eqb type "walking" then
    if String.eqb intensity "low" then "천천히"
    else if String.eqb intensity "high" then "빠르게"
    else "보통"
  else if String.eqb type "running" then
    if String.eqb intensity "low" then "조깅"
    else if String.eqb intensity "high" then "전속력"
    else "보통"
  else "운동".

(** [intensityOptions] of the edit and create pages: what the intensity
    select offers for each exercise type. *)
Definition intensityOptions (type : ExerciseType)
  : list (IntensityLevel * string) :=
  match type with
  | walking => [(low, "천천히"); (medium, "보통"); (high, "빠르게")]
  | running => [(low, "조깅"); (medium, "보통"); (high, "전속력")]
  end.

(* ===================================================================== *)
(** ** 13. Vocabulary: storage                                            *)
(* ===================================================================== *)

(** A browser whose store reads and writes without throwing. *)
Definition healthy (d : LocalStorage) : Prop :=
  ls_window d = true /\ ls_getItem_throws d = false /\
  forall key value, ls_setItem_throws d key value = false.

(** [JSON.parse] gives back this list from what [JSON.stringify] made of
    it (which is never the empty string). *)
Definition codec_ok (json : Json) (workouts : list WorkoutPlan) : Prop :=
  json_parse json (json_stringify json (map ElemPlan workouts))
  = Returns (JsonArray (map ElemPlan workouts)) /\
  json_stringify json (map ElemPlan workouts) <> "".

(** [getWorkouts] reads this array of plans from the store. *)
Definition stored (json : Json) (d : LocalStorage) (workouts : list WorkoutPlan)
  : Prop :=
  getWorkouts (browser_of json d) = Returns (JsonArray (map ElemPlan workouts)).

(** The identifier and the fields an update call works with. *)
Definition update_target (args : UpdateArgs) : string :=
  match args with
  | UpdateWhole w => id w
  | UpdateById id0 _ => id0
  end.

Definition update_data (args : UpdateArgs) : WorkoutUpdates :=
  match args with
  | UpdateWhole w =>
      mkUpdates (Some (name w)) (Some (description w)) (Some (warmupTime w))
        (Some (cooldownTime w)) (Some (items w)) None
  | UpdateById _ updates => default no_updates updates
  end.

(** The plan [createWorkout] builds from a draft. *)
Definition plan_of_draft (workout : WorkoutDraft) (newId : string)
    (created updated : Z) : WorkoutPlan :=
  mkPlan newId (draft_name workout) (draft_description workout)
    (draft_warmupTime workout) (draft_cooldownTime workout)
    (draft_items workout) created updated.

(** The plans [initializeSampleData] creates, in order. *)
Definition sample_plans (ids : nat -> string) (clock : nat -> Z)
  : list WorkoutPlan :=
  imap (fun k workout =>
          plan_of_draft workout (ids (15 + k)%nat)
            (clock (2 * k)%nat) (clock (2 * k + 1)%nat))
       (sampleWorkouts ids).

(** Data for the examples: a codec that writes the identifiers and names
    of a list and reads back the lists of a table and a few literals, an
    empty store, a browser without [window], a store with a given text,
    and a source of identifiers and a clock. *)
Definition element_text (element : JsonElement) : string :=
  match element with
  | ElemPlan w => (id w ++ ":" ++ name w)%string
  | ElemNull => "null"
  | ElemOther text => text
  end.

Definition table_stringify (elements : list JsonElement) : string :=
  ("[" ++ String.concat "," (map element_text elements) ++ "]")%string.

(** [JSON.parse] on the texts of the examples that are in no table. *)
Definition parse_literal (s : string) : Completion JsonValue :=
  if String.eqb s "null" then Returns JsonNull
  else if String.eqb s "{}" then Returns (JsonObject false)
  else if String.eqb s "5" then Returns (JsonNumber "5")
  else if String.eqb s "[null]" then Returns (JsonArray [ElemNull])
  else Throws "SyntaxError".

Definition table_json (known : list (list WorkoutPlan)) : Json :=
  mkJson table_stringify
    (fun s =>
       match list_find (fun ws => table_stringify (map ElemPlan ws) = s)
               known with
       | Some (_, ws) => Returns (JsonArray (map ElemPlan ws))
       | None => parse_literal s
       end).

Definition empty_storage : LocalStorage :=
  mkLocalStorage true ∅ false (fun _ _ => false).

Definition no_window : LocalStorage :=
  mkLocalStorage false ∅ false (fun _ _ => false).

(** A working store that holds [text] under the application's key. *)
Definition storage_holding (text : string) : LocalStorage :=
  mkLocalStorage true {[STORAGE_KEY := text]} false (fun _ _ => false).

Definition example_ids (n : nat) : string :=
  ("id" ++ toString (Z.of_nat n))%string.

Definition example_clock (n : nat) : Z := 1000 + Z.of_nat n.

Definition example_draft : WorkoutDraft :=
  mkDraft "morning" "" 10 10
    [ItemExercise (mkExercise "e" running 30 None None)].

Definition example_plan : WorkoutPlan := plan_of_draft example_draft "n1" 1 2.

Definition example_rename : UpdateArgs :=
  UpdateById "p" (Some (mkUpdates (Some "renamed") None None None None None)).

Definition example_renamed : WorkoutPlan :=
  merge_updates skip_plan (update_data example_rename) 7.

(* ===================================================================== *)
(** ** 14. Vocabulary: editor and totals                                 *)
(* ===================================================================== *)

(** The identifiers of the sets of a tree, parents before children:
    the identifiers [addToParent] can match. *)
Fixpoint set_ids_of (item : WorkoutItem) : list string :=
  match item with
  | ItemSet i _ children _ => i :: flat_map set_ids_of children
  | _ => []
  end.

Definition set_ids (items : list WorkoutItem) : list string :=
  flat_map set_ids_of items.

(** [{ ...workout, items }]: the plan the editor holds after an
    operation on its items. *)
Definition with_items (P : WorkoutPlan) (items' : list WorkoutItem)
  : WorkoutPlan :=
  mkPlan (id P) (name P) (description P) (warmupTime P) (cooldownTime P)
    items' (createdAt P) (updatedAt P).

(** What removal does to one item that is kept. *)
Definition removal_facts (itemId : string) (item : WorkoutItem) : Prop :=
  (item_id item <> itemId -> itemId ∉ item_ids (removeFromItem itemId item)) /\
  (item_ids (removeFromItem itemId item) `sublist_of` item_ids item) /\
  (flattenItem (removeFromItem itemId item) `sublist_of` flattenItem item) /\
  (itemId ∉ item_ids item -> removeFromItem itemId item = item).

(** The children of the first set with the parent's identifier, in the
    order [addToParent] visits the tree. *)
Fixpoint children_in (parentId : string) (item : WorkoutItem)
  : option (list WorkoutItem) :=
  match item with
  | ItemSet i _ children _ =>
      if String.eqb i parentId then Some children
      else (fix first (l : list WorkoutItem) : option (list WorkoutItem) :=
              match l with
              | [] => None
              | c :: rest =>
                  match children_in parentId c with
                  | Some found => Some found
                  | None => first rest
                  end
              end) children
  | _ => None
  end.

Fixpoint children_of (parentId : string) (items : list WorkoutItem)
  : option (list WorkoutItem) :=
  match items with
  | [] => None
  | c :: rest =>
      match children_in parentId c with
      | Some found => Some found
      | None => children_of parentId rest
      end
  end.

(** What [addToParent] does to one item: nothing when no set in it has
    the parent's identifier; otherwise the first such set gets the new
    item last, and the identifiers grow by those of the new item. *)
Definition adding_facts (parentId : string) (newItem item : WorkoutItem)
  : Prop :=
  (parentId ∉ set_ids_of item ->
   addToParentItem parentId newItem item = item /\
   children_in parentId item = None) /\
  (parentId ∈ set_ids_of item ->
   children_in parentId (addToParentItem parentId newItem item)
   = (fun children => children ++ [newItem]) <$> children_in parentId item /\
   is_Some (children_in parentId item)) /\
  (parentId ∈ set_ids_of item -> NoDup (set_ids_of item) ->
   item_ids (addToParentItem parentId newItem item)
   ≡ₚ item_ids item ++ item_ids newItem).

(** The time and the number of steps of an item, by recursion on the
    tree: a set counts its children once per repetition. *)
Fixpoint item_time (item : WorkoutItem) : Z :=
  match item with
  | ItemExercise e => ex_duration e
  | ItemRest r => rest_duration r
  | ItemSet _ repetitions children _ =>
      Z.max 0 repetitions * fold_right Z.add 0 (map item_time children)
  end.

Fixpoint item_steps (item : WorkoutItem) : Z :=
  match item with
  | ItemSet _ repetitions children _ =>
      Z.max 0 repetitions * fold_right Z.add 0 (map item_steps children)
  | _ => 1
  end.

Definition tree_time (items : list WorkoutItem) : Z :=
  fold_right Z.add 0 (map item_time items).

Definition tree_steps (items : list WorkoutItem) : Z :=
  fold_right Z.add 0 (map item_steps items).

(* ===================================================================== *)
(** ** 15. Vocabulary: timelines                                         *)
(* ===================================================================== *)

(** A timeline whose first entry starts at [t], each entry lasting its
    duration and the next one starting where it ends. *)
Fixpoint contiguous (t : Z) (tl : list TimerExercise) : Prop :=
  match tl with
  | [] => True
  | e :: rest =>
      startTime e = t /\ endTime e = t + te_duration e /\
      contiguous (endTime e) rest
  end.

(** The durations a plan plays, in order: warm-up and cool-down only
    when positive. *)
Definition played_durations (workout : WorkoutPlan) : list Z :=
  (if 0 <? warmupTime workout then [warmupTime workout] else [])
  ++ map duration (flattenWorkout (items workout) 1)
  ++ (if 0 <? cooldownTime workout then [cooldownTime workout] else []).

Definition timer_span (e : TimerExercise) : string * Z * Z :=
  (te_id e, startTime e, endTime e).

Definition view_span (e : TimelineEntry) : string * Z * Z :=
  (tl_id e, tl_startTime e, tl_endTime e).

(* ===================================================================== *)
(** ** 16. Vocabulary: playback                                          *)
(* ===================================================================== *)

(** What the page shows after a stop that went through. *)
Definition stopped (workout : WorkoutPlan) (s : Playback) : Prop :=
  timerState s = ts_ready /\
  currentExerciseIndex s = 0%nat /\
  totalElapsedTime s = 0 /\
  currentExerciseElapsed s = 0 /\
  remainingTime s = remainingTime (init workout) /\
  exerciseStatuses s = exerciseStatuses (init workout) /\
  exerciseElapsedTimes s = [] /\
  showStopConfirm s = false /\
  intervalRef s = None /\
  countdownIntervalRef s = None.

(* ===================================================================== *)
(** * Properties                                                          *)
(* ===================================================================== *)

(** ** Flattening *)

Lemma iter_push_pass {A} (n : nat) (pass acc : list A) :
  Nat.iter n (fun result => result ++ pass) acc
  = acc ++ mjoin (replicate n pass).
Proof.
  revert acc. induction n as [|n IH]; intros acc; simpl.
  - rewrite app_nil_r. reflexivity.
  - rewrite IH. clear IH. rewrite <- app_assoc. f_equal.
    induction n as [|n IH]; simpl.
    + rewrite app_nil_r. reflexivity.
    + rewrite <- app_assoc, IH. reflexivity.
Qed.

Lemma passes_of_nat {A} (n : nat) (pass : list A) :
  passes (Z.of_nat n) pass = mjoin (replicate n pass).
Proof.
  unfold passes. rewrite iter_nat_of_Z by lia.
  rewrite Zabs2Nat.id. apply (iter_push_pass n pass []).
Qed.

Lemma passes_nonpositive {A} (r : Z) (pass : list A) :
  r <= 0 -> passes r pass = [].
Proof. intros H. unfold passes. destruct r; try reflexivity. lia. Qed.

Lemma passes_one {A} (pass : list A) : passes 1 pass = pass.
Proof. reflexivity. Qed.

Lemma passes_nil {A} (r : Z) : passes r (@nil A) = [].
Proof.
  destruct (Z.le_gt_cases r 0) as [H|H].
  - apply passes_nonpositive, H.
  - rewrite <- (Z2Nat.id r) by lia. rewrite passes_of_nat.
    induction (Z.to_nat r); simpl; auto.
Qed.

Lemma flattenItem_set i repetitions children nm :
  flattenItem (ItemSet i repetitions children nm)
  = flattenWorkout children repetitions.
Proof. reflexivity. Qed.

Lemma flattenWorkout_one items :
  flattenWorkout items 1 = flat_map flattenItem items.
Proof. reflexivity. Qed.

Lemma mjoin_replicate_add {A} (n m : nat) (l : list A) :
  mjoin (replicate (n + m) l) = mjoin (replicate n l) ++ mjoin (replicate m l).
Proof.
  induction n as [|n IH]; simpl; [reflexivity|].
  rewrite IH, app_assoc. reflexivity.
Qed.

Lemma mjoin_replicate_mul {A} (n m : nat) (l : list A) :
  mjoin (replicate n (mjoin (replicate m l))) = mjoin (replicate (n * m) l).
Proof.
  induction n as [|n IH]; simpl; [reflexivity|].
  rewrite IH, mjoin_replicate_add. reflexivity.
Qed.

(** C1. For a repetition count [r >= 1], [flattenWorkout items r] is [r]
    passes over the items; one pass visits the items in order; a set
    contributes the flattening of its children under its own repetition
    count; an exercise or a rest contributes itself; an empty list, at
    the top or inside a set, contributes nothing; and a set repeated 3
    times around a set repeated 2 times contributes 6 copies of the
    inner content.  (Being a total function to finite lists, the result
    is determined by the tree.) *)
Theorem flattenWorkout_expands (items : list WorkoutItem) (r : Z) :
  1 <= r ->
  (exists n : nat,
      Z.of_nat n = r /\
      flattenWorkout items r = mjoin (replicate n (flattenWorkout items 1))) /\
  (forall item rest,
      flattenWorkout (item :: rest) 1
      = flattenWorkout [item] 1 ++ flattenWorkout rest 1) /\
  (forall i repetitions children nm,
      flattenWorkout [ItemSet i repetitions children nm] 1
      = flattenWorkout children repetitions) /\
  (forall e, flattenWorkout [ItemExercise e] 1 = [StepExercise e]) /\
  (forall r0, flattenWorkout [ItemRest r0] 1 = [StepRest r0]) /\
  flattenWorkout [] r = [] /\
  (forall i repetitions nm, flattenWorkout [ItemSet i repetitions [] nm] r = []) /\
  (forall i1 nm1 i2 nm2 inner,
      flattenWorkout [ItemSet i1 3 [ItemSet i2 2 inner nm2] nm1] 1
      = mjoin (replicate 6 (flattenWorkout inner 1))).
Proof.
  intros Hr. repeat split.
  - exists (Z.to_nat r). split; [lia|].
    unfold flattenWorkout. rewrite passes_one.
    rewrite <- (Z2Nat.id r) at 1 by lia. apply passes_of_nat.
  - intros item rest. rewrite !flattenWorkout_one. simpl.
    rewrite app_nil_r. reflexivity.
  - intros i repetitions children nm. rewrite flattenWorkout_one. simpl.
    rewrite app_nil_r. reflexivity.
  - unfold flattenWorkout. simpl. apply passes_nil.
  - intros i repetitions nm. unfold flattenWorkout. simpl.
    rewrite passes_nil. simpl. apply passes_nil.
  - intros i1 nm1 i2 nm2 inner. rewrite !flattenWorkout_one.
    cbn [flat_map flattenItem]. rewrite !app_nil_r.
    change 3 with (Z.of_nat 3). change 2 with (Z.of_nat 2).
    rewrite !passes_of_nat.
    rewrite (mjoin_replicate_mul 3 2). reflexivity.
Qed.

Lemma flattenWorkout_expands_witness :
  1 <= 2 /\
  flattenWorkout [ItemRest (mkRest "a" 15 None)] 2
  = [StepRest (mkRest "a" 15 None); StepRest (mkRest "a" 15 None)].
Proof.
  split; [lia|].
  destruct (flattenWorkout_expands [ItemRest (mkRest "a" 15 None)] 2 ltac:(lia))
    as [[n [Hn ->]] _].
  assert (n = 2%nat) as -> by lia. reflexivity.
Defined.

(** ** Total time and interval count against the timelines *)

Lemma fold_sum_acc (xs : list Step) (a : Z) :
  fold_left (fun sum item => sum + duration item) xs a = a + sum_durations xs.
Proof.
  unfold sum_durations. revert a.
  induction xs as [|x xs IH]; intros a; simpl; [lia|].
  rewrite IH, (IH (0 + duration x)). lia.
Qed.

Lemma sum_durations_cons x xs :
  sum_durations (x :: xs) = duration x + sum_durations xs.
Proof. unfold sum_durations at 1. simpl. apply fold_sum_acc. Qed.

Lemma sum_durations_fold_right xs :
  sum_durations xs = fold_right Z.add 0 (map duration xs).
Proof.
  induction xs as [|x xs IH]; [reflexivity|].
  rewrite sum_durations_cons, IH. reflexivity.
Qed.

Lemma last_endTime_snoc tl e : last_endTime (tl ++ [e]) = endTime e.
Proof. unfold last_endTime. rewrite last_snoc. reflexivity. Qed.

(** The main phase of the builder: offsets advance by the durations,
    one entry is pushed per step, and the last entry ends where the
    offset stands. *)
Lemma fold_push_step xs : forall tl t,
  snd (fold_left push_step xs (tl, t)) = t + sum_durations xs /\
  length (fst (fold_left push_step xs (tl, t))) = (length tl + length xs)%nat /\
  last_endTime (fst (fold_left push_step xs (tl, t)))
  = match xs with [] => last_endTime tl | _ => t + sum_durations xs end.
Proof.
  induction xs as [|x xs IH]; intros tl t.
  - simpl. unfold sum_durations. simpl. repeat split; lia.
  - cbn [fold_left push_step].
    destruct (IH (tl ++ [mkTimerExercise (step_id x) (step_type x) (duration x)
                           (step_intensity x) (step_name x) t (t + duration x)])
                 (t + duration x)) as (H1 & H2 & H3).
    rewrite sum_durations_cons. rewrite H1, H2, H3.
    rewrite length_app. simpl. repeat split; try lia.
    destruct xs as [|y ys].
    + rewrite last_endTime_snoc. simpl. unfold sum_durations. simpl. lia.
    + lia.
Qed.

Lemma fold_view_push_step xs : forall tl t,
  length (fst (fold_left view_push_step xs (tl, t))) = (length tl + length xs)%nat.
Proof.
  induction xs as [|x xs IH]; intros tl t.
  - simpl. lia.
  - cbn [fold_left view_push_step]. rewrite IH, length_app. simpl. lia.
Qed.

(** C2, amended.  For a plan with warm-up and cool-down times that are
    not negative, [calculateTotalTime] is the warm-up time plus the summed
    durations of the flattened items plus the cool-down time, and it is
    the end time of the last step of the playback timeline, which reads
    as 0 when the timeline is empty. *)
Theorem calculateTotalTime_is_timeline_end (P : WorkoutPlan) :
  0 <= warmupTime P -> 0 <= cooldownTime P ->
  calculateTotalTime P
  = warmupTime P
    + fold_right Z.add 0 (map duration (flattenWorkout (items P) 1))
    + cooldownTime P /\
  calculateTotalTime P = last_endTime (completeTimeline P) /\
  (completeTimeline P = [] -> calculateTotalTime P = 0).
Proof.
  intros Hw Hc.
  assert (Hend : calculateTotalTime P = last_endTime (completeTimeline P)).
  { unfold calculateTotalTime, completeTimeline, push_warmup, push_cooldown.
    set (xs := flattenWorkout (items P) 1).
    destruct (Z.ltb_spec 0 (warmupTime P)) as [Hw'|Hw'].
    - destruct (fold_push_step xs
                  ([] ++ [mkTimerExercise "warmup" "walking" (warmupTime P) None
                            (Some "웜업") 0 (0 + warmupTime P)])
                  (0 + warmupTime P)) as (H1 & _ & H3).
      destruct (fold_left push_step xs _) as [tl t] eqn:E. simpl in H1, H3.
      destruct (Z.ltb_spec 0 (cooldownTime P)).
      + simpl. rewrite last_endTime_snoc. simpl. lia.
      + simpl. rewrite H3. destruct xs.
        * unfold last_endTime, sum_durations. simpl. lia.
        * lia.
    - destruct (fold_push_step xs [] 0) as (H1 & _ & H3).
      destruct (fold_left push_step xs _) as [tl t] eqn:E. simpl in H1, H3.
      destruct (Z.ltb_spec 0 (cooldownTime P)).
      + simpl. rewrite last_endTime_snoc. simpl. lia.
      + simpl. rewrite H3. destruct xs.
        * unfold last_endTime, sum_durations. simpl. lia.
        * lia. }
  split; [|split].
  - unfold calculateTotalTime. rewrite sum_durations_fold_right. reflexivity.
  - exact Hend.
  - intros Hnil. rewrite Hend, Hnil. reflexivity.
Qed.

Lemma calculateTotalTime_is_timeline_end_witness :
  calculateTotalTime skip_plan = 50 /\
  last_endTime (completeTimeline skip_plan) = 50.
Proof.
  destruct (calculateTotalTime_is_timeline_end skip_plan) as (_ & H & _);
    [simpl; lia | simpl; lia |].
  split; [reflexivity | rewrite <- H; reflexivity].
Defined.

(** Against C2 as stated, for every plan: with a warm-up of -60 s the
    total is -20 while the timeline, which leaves the warm-up out, ends
    at 40; the same with a cool-down of -60 s. *)
Lemma calculateTotalTime_negative_warmup :
  calculateTotalTime negative_warmup_plan = -20 /\
  last_endTime (completeTimeline negative_warmup_plan) = 40 /\
  calculateTotalTime negative_warmup_plan
  <> last_endTime (completeTimeline negative_warmup_plan) /\
  calculateTotalTime negative_cooldown_plan
  <> last_endTime (completeTimeline negative_cooldown_plan).
Proof.
  split; [vm_compute; reflexivity|].
  split; [vm_compute; reflexivity|].
  split; vm_compute; discriminate.
Qed.

(** C3. [countIntervals] is the length of the flattened items, plus one
    for a positive warm-up time and one for a positive cool-down time,
    and that is the number of steps of the playback timeline and of the
    view page's timeline. *)
Theorem countIntervals_is_timeline_length (P : WorkoutPlan) :
  countIntervals P
  = Z.of_nat (length (flattenWorkout (items P) 1))
    + (if 0 <? warmupTime P then 1 else 0)
    + (if 0 <? cooldownTime P then 1 else 0) /\
  countIntervals P = Z.of_nat (length (completeTimeline P)) /\
  countIntervals P = Z.of_nat (length (timelineData P)).
Proof.
  unfold countIntervals, completeTimeline, timelineData,
    push_warmup, push_cooldown, view_push_warmup, view_push_cooldown.
  set (xs := flattenWorkout (items P) 1).
  destruct (0 <? warmupTime P); destruct (0 <? cooldownTime P);
    (split; [lia|]); split.
  all: match goal with
       | |- context [fold_left push_step ?l (?tl, ?t)] =>
           pose proof (fold_push_step l tl t) as (_ & H & _);
           destruct (fold_left push_step l (tl, t)) as [tl' t']
       | |- context [fold_left view_push_step ?l (?tl, ?t)] =>
           pose proof (fold_view_push_step l tl t) as H;
           destruct (fold_left view_push_step l (tl, t)) as [tl' t']
       end;
    simpl in *; rewrite ?length_app; simpl; lia.
Qed.

(** ** Intensity table *)

(** C4. [calculateFinalIntensity] returns the table of the
    specification: walking 1, 2, 3 and running 3, 4, 5 for low, medium,
    high; an omitted level counts as medium; any other type gives 1;
    [getRestIntensity] is 1 and [getWarmupCooldownIntensity] is 2. *)
Theorem calculateFinalIntensity_table :
  calculateFinalIntensity "walking" (Some "low") = 1 /\
  calculateFinalIntensity "walking" (Some "medium") = 2 /\
  calculateFinalIntensity "walking" (Some "high") = 3 /\
  calculateFinalIntensity "running" (Some "low") = 3 /\
  calculateFinalIntensity "running" (Some "medium") = 4 /\
  calculateFinalIntensity "running" (Some "high") = 5 /\
  (forall type,
      calculateFinalIntensity type None
      = calculateFinalIntensity type (Some "medium")) /\
  (forall type level,
      type <> "walking" -> type <> "running" ->
      calculateFinalIntensity type level = 1) /\
  (forall t l,
      calculateFinalIntensity (type_tag t) (Some (level_tag l))
      = match t, l with
        | walking, low => 1 | walking, medium => 2 | walking, high => 3
        | running, low => 3 | running, medium => 4 | running, high => 5
        end) /\
  getRestIntensity tt = 1 /\
  getWarmupCooldownIntensity tt = 2.
Proof.
  repeat split; try reflexivity.
  - intros type level Hw Hr. unfold calculateFinalIntensity.
    apply String.eqb_neq in Hw, Hr. rewrite Hw, Hr. reflexivity.
  - intros [] []; reflexivity.
Qed.

(** ** Lookup of a plan that is not stored *)


(** On an array of plans, [find] is the search for the first plan with
    the identifier. *)
Lemma find_by_id_plans (id0 : string) (ws : list WorkoutPlan) :
  find_by_id id0 (map ElemPlan ws)
  = Returns (snd <$> list_find (fun w => id w = id0) ws).
Proof.
  induction ws as [|w ws IH]; [reflexivity|].
  cbn [map find_by_id list_find]. destruct (decide (id w = id0)).
  - reflexivity.
  - rewrite IH. destruct (list_find _ ws) as [[i x]|]; reflexivity.
Qed.


(** C9, evaluated where it fails.  The store holds the text [null] (or
    [{}], or [5]) under the application's key.  [JSON.parse] returns the
    value without throwing, so the [catch] of [getWorkouts] is not
    entered and [getWorkouts] returns a value that is no array
    ([null] for the text [null]); [getWorkout] then throws a TypeError
    for every id, and the mount effect of the timer page throws instead
    of leading to the not-found view.  With [[]] stored, the same
    lookup returns [null] and the page shows the not-found view. *)
Theorem getWorkout_throws_on_non_array :
  getWorkouts (browser_of (table_json [[]]) (storage_holding "null"))
  = Returns JsonNull /\
  (forall id0,
      getWorkout (browser_of (table_json [[]]) (storage_holding "null")) id0
      = Throws "TypeError" /\
      loadWorkout (browser_of (table_json [[]]) (storage_holding "null"))
        id0 mounted = Throws "TypeError") /\
  (forall id0,
      getWorkout (browser_of (table_json [[]]) (storage_holding "{}")) id0
      = Throws "TypeError") /\
  (forall id0,
      getWorkout (browser_of (table_json [[]]) (storage_holding "5")) id0
      = Throws "TypeError") /\
  (forall id0,
      getWorkout (browser_of (table_json [[]]) (storage_holding "[]")) id0
      = Returns None /\
      exists pg,
        loadWorkout (browser_of (table_json [[]]) (storage_holding "[]"))
          id0 mounted = Returns pg /\
        TimerPage_view pg = NotFoundView).
Proof.
  split; [vm_compute; reflexivity|].
  split; [intros id0; split; vm_compute; reflexivity|].
  split; [intros id0; vm_compute; reflexivity|].
  split; [intros id0; vm_compute; reflexivity|].
  intros id0. split; [vm_compute; reflexivity|].
  eexists. split; [vm_compute; reflexivity|]. reflexivity.
Qed.


(** ** Moving an item among its siblings *)

(** Induction on item trees, with the hypothesis available for every
    child of a set. *)
Lemma WorkoutItem_tree_ind (P : WorkoutItem -> Prop) :
  (forall e, P (ItemExercise e)) ->
  (forall r, P (ItemRest r)) ->
  (forall i repetitions children nm,
      Forall P children -> P (ItemSet i repetitions children nm)) ->
  forall item, P item.
Proof.
  intros He Hr Hs. fix IH 1.
  intros [e|i repetitions children nm|r]; [apply He| |apply Hr].
  apply Hs. induction children as [|c cs IHcs]; constructor.
  - apply IH.
  - exact IHcs.
Qed.

Lemma moveInItem_set itemId dir i repetitions children nm :
  moveInItem itemId dir (ItemSet i repetitions children nm)
  = ItemSet i repetitions (moveInItems itemId dir children) nm.
Proof. reflexivity. Qed.

Lemma item_id_in_item_ids item : item_id item ∈ item_ids item.
Proof. destruct item; simpl; apply list_elem_of_here. Qed.

Lemma tree_ids_app xs ys : tree_ids (xs ++ ys) = tree_ids xs ++ tree_ids ys.
Proof. apply flat_map_app. Qed.

Lemma tree_ids_cons x xs : tree_ids (x :: xs) = item_ids x ++ tree_ids xs.
Proof. reflexivity. Qed.

Lemma tree_ids_elem itemId items :
  itemId ∈ tree_ids items <-> exists x, x ∈ items /\ itemId ∈ item_ids x.
Proof.
  unfold tree_ids. rewrite list_elem_of_In, in_flat_map.
  split; intros (x & Hx & Hid); exists x;
    rewrite ?list_elem_of_In in *; auto.
Qed.

Lemma findIndex_None itemId items :
  findIndex itemId items = None <->
  forall x, x ∈ items -> item_id x <> itemId.
Proof.
  unfold findIndex.
  destruct (list_find _ items) as [[i x]|] eqn:E; simpl.
  - split; [discriminate|]. intros H. exfalso.
    apply list_find_Some in E. destruct E as (E & Hid & _).
    eapply H; [eapply list_elem_of_lookup_2, E | exact Hid].
  - split; [|reflexivity]. intros _.
    apply list_find_None in E. rewrite Forall_forall in E. exact E.
Qed.

Lemma findIndex_Some itemId items index :
  findIndex itemId items = Some index ->
  exists pre x post,
    items = pre ++ x :: post /\ length pre = index /\ item_id x = itemId.
Proof.
  unfold findIndex.
  destruct (list_find _ items) as [[i x]|] eqn:E; simpl; [|discriminate].
  intros [= <-]. apply list_find_Some in E. destruct E as (E & Hid & _).
  exists (take i items), x, (drop (S i) items). repeat split.
  - symmetry. apply take_drop_middle, E.
  - apply length_take_le. apply lookup_lt_Some in E. lia.
  - exact Hid.
Qed.

(** An identifier that occurs nowhere leaves every item as it is. *)
Lemma moveInItem_absent itemId dir item :
  itemId ∉ item_ids item -> moveInItem itemId dir item = item.
Proof.
  induction item as [e|r|i repetitions children nm IH]
    using WorkoutItem_tree_ind; intros Hnot; try reflexivity.
  rewrite moveInItem_set. f_equal.
  simpl in Hnot. apply not_elem_of_cons in Hnot. destruct Hnot as [_ Hnot].
  change (flat_map item_ids children) with (tree_ids children) in Hnot.
  unfold moveInItems.
  assert (Hnone : findIndex itemId children = None).
  { apply findIndex_None. intros x Hx Hid. apply Hnot.
    apply tree_ids_elem. exists x. split; [exact Hx|].
    rewrite <- Hid. apply item_id_in_item_ids. }
  rewrite Hnone.
  induction children as [|c cs IHcs]; [reflexivity|].
  inversion IH as [|? ? Hc Hcs]; subst. simpl. f_equal.
  - apply Hc. intros Hin. apply Hnot. rewrite tree_ids_cons.
    apply elem_of_app. left. exact Hin.
  - apply IHcs.
    + exact Hcs.
    + intros Hin. apply Hnot. rewrite tree_ids_cons.
      apply elem_of_app. right. exact Hin.
    + apply findIndex_None. intros x Hx.
      apply (proj1 (findIndex_None itemId (c :: cs)) Hnone).
      apply list_elem_of_further, Hx.
Qed.

Lemma map_moveInItem_absent itemId dir items :
  itemId ∉ tree_ids items -> map (moveInItem itemId dir) items = items.
Proof.
  induction items as [|x xs IH]; intros Hnot; [reflexivity|].
  rewrite tree_ids_cons in Hnot. simpl. f_equal.
  - apply moveInItem_absent. intros Hin. apply Hnot.
    apply elem_of_app. left. exact Hin.
  - apply IH. intros Hin. apply Hnot.
    apply elem_of_app. right. exact Hin.
Qed.

Lemma swap_cells_adjacent {A} (pre : list A) (a b : A) (post : list A) :
  swap_cells (length pre) (length pre + 1) (pre ++ a :: b :: post)
  = pre ++ b :: a :: post.
Proof.
  unfold swap_cells.
  rewrite (list_lookup_middle pre (b :: post) a (length pre) eq_refl).
  replace (pre ++ a :: b :: post) with ((pre ++ [a]) ++ b :: post) at 1
    by (rewrite <- app_assoc; reflexivity).
  rewrite (list_lookup_middle (pre ++ [a]) post b (length pre + 1))
    by (rewrite length_app; simpl; lia).
  replace (length pre) with (length pre + 0)%nat at 2 by lia.
  rewrite insert_app_r. simpl.
  rewrite insert_app_r. reflexivity.
Qed.

(** The branch of [moveInItems] that found the item at this level. *)
Lemma move_at_sibling_move itemId dir pre x post :
  item_id x = itemId ->
  sibling_move itemId dir (pre ++ x :: post)
    (move_at dir (length pre) (pre ++ x :: post)).
Proof.
  intros Hid. unfold move_at. destruct dir.
  - destruct (Nat.ltb_spec 0 (length pre)) as [Hpos|Hzero].
    + destruct (exists_last (l := pre)) as (pre' & a & ->).
      { intros ->. simpl in Hpos. lia. }
      rewrite length_app. simpl.
      replace (length pre' + 1 - 1)%nat with (length pre') by lia.
      rewrite <- !app_assoc. simpl.
      rewrite swap_cells_adjacent. apply move_swap_up, Hid.
    + destruct pre; [|simpl in Hzero; lia]. simpl.
      apply move_first_up, Hid.
  - rewrite length_app. simpl.
    destruct (Z.ltb_spec (Z.of_nat (length pre))
                (Z.of_nat (length pre + S (length post)) - 1)) as [Hlt|Hge].
    + destruct post as [|b post]; [simpl in Hlt; lia|].
      rewrite swap_cells_adjacent. apply move_swap_down, Hid.
    + destruct post as [|b post]; [|simpl in Hge; lia].
      apply move_last_down, Hid.
Qed.

Lemma sibling_move_ids itemId dir xs ys :
  sibling_move itemId dir xs ys -> tree_ids ys ≡ₚ tree_ids xs.
Proof.
  induction 1; try reflexivity.
  - rewrite !tree_ids_app, !tree_ids_cons.
    apply Permutation_app_head. rewrite !app_assoc.
    apply Permutation_app_tail, Permutation_app_comm.
  - rewrite !tree_ids_app, !tree_ids_cons.
    apply Permutation_app_head. rewrite !app_assoc.
    apply Permutation_app_tail, Permutation_app_comm.
  - rewrite !tree_ids_app, !tree_ids_cons.
    apply Permutation_app_head, Permutation_app_tail. simpl.
    constructor. exact IHsibling_move.
Qed.

Lemma sibling_move_length itemId dir xs ys :
  sibling_move itemId dir xs ys -> length ys = length xs.
Proof.
  induction 1; try reflexivity; rewrite !length_app; simpl; lia.
Qed.

Lemma moveInItems_sibling_move_children itemId dir item :
  forall i repetitions children nm,
    item = ItemSet i repetitions children nm ->
    NoDup (tree_ids children) -> itemId ∈ tree_ids children ->
    sibling_move itemId dir children (moveInItems itemId dir children).
Proof.
  induction item as [e|r|i0 repetitions0 children0 nm0 IH]
    using WorkoutItem_tree_ind; intros i repetitions children nm Heq;
    try discriminate.
  injection Heq as -> -> -> ->. intros Hnodup Hin.
  unfold moveInItems. destruct (findIndex itemId children) as [index|] eqn:E.
  - apply findIndex_Some in E. destruct E as (pre & x & post & -> & <- & Hid).
    apply move_at_sibling_move, Hid.
  - pose proof (proj1 (findIndex_None _ _) E) as Hnone.
    apply tree_ids_elem in Hin. destruct Hin as (x & Hx & Hidx).
    apply list_elem_of_split in Hx. destruct Hx as (pre & post & ->).
    rewrite tree_ids_app, tree_ids_cons in Hnodup.
    apply NoDup_app in Hnodup. destruct Hnodup as (_ & Hpre & Hrest).
    apply NoDup_app in Hrest. destruct Hrest as (Hx & Hpost & _).
    rewrite map_app. simpl.
    rewrite (map_moveInItem_absent itemId dir pre).
    2:{ intros Hin. apply (Hpre itemId Hin).
        apply elem_of_app. left. exact Hidx. }
    rewrite (map_moveInItem_absent itemId dir post).
    2:{ intros Hin. apply (Hpost itemId Hidx Hin). }
    rewrite Forall_app, Forall_cons in IH. destruct IH as (_ & IHx & _).
    destruct x as [e|j reps ch nmx|r].
    + exfalso. simpl in Hidx. apply list_elem_of_singleton in Hidx.
      apply (Hnone (ItemExercise e)); [|symmetry; exact Hidx].
      apply elem_of_app. right. apply list_elem_of_here.
    + rewrite moveInItem_set. apply move_inside.
      simpl in Hidx. apply elem_of_cons in Hidx.
      destruct Hidx as [Hj|Hch].
      * exfalso. apply (Hnone (ItemSet j reps ch nmx)); [|symmetry; exact Hj].
        apply elem_of_app. right. apply list_elem_of_here.
      * apply (IHx j reps ch nmx eq_refl); [|exact Hch].
        simpl in Hx. apply NoDup_cons in Hx. apply Hx.
    + exfalso. simpl in Hidx. apply list_elem_of_singleton in Hidx.
      apply (Hnone (ItemRest r)); [|symmetry; exact Hidx].
      apply elem_of_app. right. apply list_elem_of_here.
Qed.

(** C10. In a tree whose identifiers are all different, [moveItem] on an
    identifier of the tree changes one sibling list only, the one that
    holds the item: the item stays when it is first and moves up or last
    and moves down, and otherwise changes place with the sibling before
    or after it; every other item, with its contents, stays where it
    is, and the identifiers of the tree are the same multiset. *)
Theorem moveInItems_sibling_local (items : list WorkoutItem)
    (itemId : string) (dir : Direction) :
  NoDup (tree_ids items) -> itemId ∈ tree_ids items ->
  sibling_move itemId dir items (moveInItems itemId dir items) /\
  tree_ids (moveInItems itemId dir items) ≡ₚ tree_ids items /\
  length (moveInItems itemId dir items) = length items.
Proof.
  intros Hnodup Hin.
  assert (H : sibling_move itemId dir items (moveInItems itemId dir items)).
  { eapply (moveInItems_sibling_move_children itemId dir
              (ItemSet "" 1 items None)); eauto. }
  split; [exact H|]. split.
  - eapply sibling_move_ids, H.
  - eapply sibling_move_length, H.
Qed.

Lemma moveInItems_sibling_local_witness :
  NoDup (tree_ids move_tree) /\ "y" ∈ tree_ids move_tree /\
  length (moveInItems "y" up move_tree) = length move_tree.
Proof.
  assert (Hnodup : NoDup (tree_ids move_tree)).
  { apply (bool_decide_unpack _). vm_compute. exact I. }
  assert (Hin : "y" ∈ tree_ids move_tree).
  { apply (bool_decide_unpack _). vm_compute. exact I. }
  split; [exact Hnodup|]. split; [exact Hin|].
  apply (moveInItems_sibling_local move_tree "y" up Hnodup Hin).
Defined.

Example moveInItems_example :
  moveInItems "y" up move_tree
  = [ItemRest (mkRest "a" 15 None);
     ItemSet "s" 2
       [ItemRest (mkRest "y" 15 None);
        ItemExercise (mkExercise "x" running 30 None None)] None].
Proof. reflexivity. Qed.

(** ** Playback: arrays and the status array *)

Section JsArrays.
Context {A : Type}.
Implicit Types (arr : list (option A)) (i j : nat) (v : A).

Lemma js_set_length arr i v :
  (i < length arr)%nat -> length (js_set i v arr) = length arr.
Proof.
  intros H. unfold js_set. apply Nat.ltb_lt in H. rewrite H.
  apply length_insert.
Qed.

Lemma js_get_set_eq arr i v :
  (i < length arr)%nat -> js_get (js_set i v arr) i = Some v.
Proof.
  intros H. unfold js_set, js_get.
  pose proof H as Hb. apply Nat.ltb_lt in Hb. rewrite Hb.
  rewrite list_lookup_insert_eq by exact H. reflexivity.
Qed.

Lemma js_get_set_ne arr i j v :
  (i < length arr)%nat -> i <> j -> js_get (js_set i v arr) j = js_get arr j.
Proof.
  intros H Hne. unfold js_set, js_get. apply Nat.ltb_lt in H. rewrite H.
  rewrite list_lookup_insert_ne by exact Hne. reflexivity.
Qed.

Lemma js_get_beyond arr i : (length arr <= i)%nat -> js_get arr i = None.
Proof.
  intros H. unfold js_get. rewrite lookup_ge_None_2 by exact H. reflexivity.
Qed.

End JsArrays.

Lemma advance_statuses_length mark i prev :
  (i < length prev)%nat -> length (advance_statuses mark i prev) = length prev.
Proof.
  intros H. unfold advance_statuses.
  destruct (Nat.ltb_spec (i + 1) (length (js_set i mark prev))) as [H1|H1].
  - rewrite js_set_length; [apply js_set_length, H | exact H1].
  - apply js_set_length, H.
Qed.

Lemma advance_statuses_get mark i prev j :
  (i < length prev)%nat ->
  js_get (advance_statuses mark i prev) j
  = if decide (j = i) then Some mark
    else if decide (j = i + 1 /\ i + 1 < length prev)%nat then Some es_running
    else js_get prev j.
Proof.
  intros H. unfold advance_statuses. rewrite (js_set_length prev i mark H).
  destruct (Nat.ltb_spec (i + 1) (length prev)) as [H1|H1].
  - destruct (decide (j = i)) as [->|Hji].
    + rewrite js_get_set_ne by (rewrite ?js_set_length; lia).
      apply js_get_set_eq, H.
    + destruct (decide (j = (i + 1)%nat /\ (i + 1 < length prev)%nat))
        as [[-> _]|Hn].
      * apply js_get_set_eq. rewrite js_set_length; lia.
      * rewrite js_get_set_ne by (rewrite ?js_set_length; lia).
        apply js_get_set_ne; [exact H | congruence].
  - destruct (decide (j = i)) as [->|Hji].
    + apply js_get_set_eq, H.
    + destruct (decide (j = (i + 1)%nat /\ (i + 1 < length prev)%nat))
        as [[_ Hlt]|Hn]; [lia|].
      apply js_get_set_ne; [exact H | congruence].
Qed.

Lemma advance_statuses_filled mark i prev :
  (i < length prev)%nat ->
  (forall j, (j < length prev)%nat -> is_Some (js_get prev j)) ->
  forall j, (j < length prev)%nat ->
            is_Some (js_get (advance_statuses mark i prev) j).
Proof.
  intros H Hall j Hj. rewrite advance_statuses_get by exact H.
  repeat case_decide; eauto.
Qed.

(** Finishing the running step, by completion or by skip, moves the
    running cell one place to the right. *)
Lemma advance_statuses_shape mark i prev :
  mark = es_completed \/ mark = es_skipped ->
  (i + 1 < length prev)%nat ->
  status_shape i prev ->
  status_shape (i + 1) (advance_statuses mark i prev).
Proof.
  intros Hmark Hlt (Hrun & Hbefore & Hafter).
  assert (Hi : (i < length prev)%nat) by lia.
  unfold status_shape. rewrite advance_statuses_length by exact Hi.
  split; [|split].
  - rewrite advance_statuses_get by exact Hi.
    repeat case_decide; try lia; try reflexivity.
  - intros j Hj. rewrite advance_statuses_get by exact Hi.
    repeat case_decide; try lia.
    + destruct Hmark as [->| ->]; auto.
    + apply Hbefore. lia.
  - intros j Hj Hjn. rewrite advance_statuses_get by exact Hi.
    repeat case_decide; try lia. apply Hafter; lia.
Qed.

Lemma status_shape_unique k statuses i :
  status_shape k statuses -> js_get statuses i = Some es_running -> i = k.
Proof.
  intros (Hrun & Hbefore & Hafter) Hi.
  destruct (Nat.lt_trichotomy i k) as [Hlt|[Heq|Hgt]]; [|exact Heq|].
  - destruct (Hbefore i Hlt) as [H|H]; congruence.
  - destruct (Nat.lt_ge_cases i (length statuses)) as [Hin|Hout].
    + rewrite (Hafter i Hgt Hin) in Hi. discriminate.
    + rewrite js_get_beyond in Hi by exact Hout. discriminate.
Qed.

Lemma status_shape_in_range k statuses :
  status_shape k statuses -> (k < length statuses)%nat.
Proof.
  intros (Hrun & _). destruct (Nat.lt_ge_cases k (length statuses)); [assumption|].
  rewrite js_get_beyond in Hrun by assumption. discriminate.
Qed.

Lemma reset_statuses_get (prev : list (option ExerciseStatus)) j :
  js_get (imap (fun index cell => reset_status index <$> cell) prev) j
  = reset_status j <$> js_get prev j.
Proof.
  unfold js_get. rewrite list_lookup_imap.
  destruct (prev !! j) as [cell|]; reflexivity.
Qed.

Lemma reset_statuses_shape (prev : list (option ExerciseStatus)) :
  (forall j, (j < length prev)%nat -> is_Some (js_get prev j)) ->
  (0 < length prev)%nat ->
  status_shape 0 (imap (fun index cell => reset_status index <$> cell) prev).
Proof.
  intros Hall Hpos. unfold status_shape. rewrite length_imap.
  split; [|split].
  - rewrite reset_statuses_get. destruct (Hall 0%nat Hpos) as [x ->]. reflexivity.
  - intros i Hi. lia.
  - intros i Hi Hin. rewrite reset_statuses_get.
    destruct (Hall i Hin) as [x ->]. simpl. unfold reset_status.
    destruct i; [lia|reflexivity].
Qed.

Lemma initial_statuses_get {B} (l : list B) j :
  js_get (imap (fun index x => Some (reset_status index x)) l) j
  = (fun _ => reset_status j tt) <$> l !! j.
Proof.
  unfold js_get. rewrite list_lookup_imap.
  destruct (l !! j); reflexivity.
Qed.

Lemma initial_statuses_shape {B} (l : list B) :
  (0 < length l)%nat ->
  status_shape 0 (imap (fun index x => Some (reset_status index x)) l).
Proof.
  intros Hpos. unfold status_shape. rewrite length_imap.
  split; [|split].
  - rewrite initial_statuses_get.
    destruct (lookup_lt_is_Some_2 l 0 Hpos) as [x ->]. reflexivity.
  - intros i Hi. lia.
  - intros i Hi Hin. rewrite initial_statuses_get.
    destruct (lookup_lt_is_Some_2 l i Hin) as [x ->]. simpl.
    unfold reset_status. destruct i; [lia|reflexivity].
Qed.

(** ** Playback: what every reachable state satisfies *)

(** Evaluate handlers, setters and projections, by value. *)
Ltac reduce_goal :=
  cbv beta iota zeta delta
    [handler handleStart handlePause handleStop confirmStop handleSkip
     tick_callback countdown_callback run_effects
     set_timerState set_currentExerciseIndex set_remainingTime
     set_totalElapsedTime set_countdownValue set_nextExerciseIndex
     set_exerciseStatuses set_showStopConfirm set_currentExerciseElapsed
     set_exerciseElapsedTimes set_startTimeRef set_pausedTimeRef
     set_currentExerciseStartRef set_intervalRef set_countdownIntervalRef
     set_beeps playBeep startCountdown
     timerState currentExerciseIndex remainingTime totalElapsedTime
     countdownValue nextExerciseIndex exerciseStatuses showStopConfirm
     currentExerciseElapsed exerciseElapsedTimes startTimeRef pausedTimeRef
     currentExerciseStartRef intervalRef countdownIntervalRef beeps
     cd_type cd_targetIndex cd_totalElapsedTime
     tick_currentExerciseIndex tick_totalElapsedTime
     timerState_eqb negb orb andb default from_option Datatypes.id].

Ltac reduce_playback :=
  cbv beta iota zeta delta
    [handler handleStart handlePause handleStop confirmStop handleSkip
     tick_callback countdown_callback run_effects
     set_timerState set_currentExerciseIndex set_remainingTime
     set_totalElapsedTime set_countdownValue set_nextExerciseIndex
     set_exerciseStatuses set_showStopConfirm set_currentExerciseElapsed
     set_exerciseElapsedTimes set_startTimeRef set_pausedTimeRef
     set_currentExerciseStartRef set_intervalRef set_countdownIntervalRef
     set_beeps playBeep startCountdown
     timerState currentExerciseIndex remainingTime totalElapsedTime
     countdownValue nextExerciseIndex exerciseStatuses showStopConfirm
     currentExerciseElapsed exerciseElapsedTimes startTimeRef pausedTimeRef
     currentExerciseStartRef intervalRef countdownIntervalRef beeps
     cd_type cd_targetIndex cd_totalElapsedTime
     tick_currentExerciseIndex tick_totalElapsedTime
     timerState_eqb negb orb andb default from_option Datatypes.id] in *.

(** One case split on the first test that stands in the way. *)
Ltac split_condition :=
  match goal with
  | |- context [if (?a <=? ?b)%Z then _ else _] => destruct (Z.leb_spec a b)
  | |- context [if (?a <? ?b)%Z then _ else _] => destruct (Z.ltb_spec a b)
  | |- context [if (?a =? ?b)%nat then _ else _] => destruct (Nat.eqb_spec a b)
  | |- context [if ?c then _ else _] => destruct c eqn:?
  | |- context [match ?x with Some _ => _ | None => _ end] =>
      destruct x eqn:?
  end.

Ltac open_hypotheses :=
  repeat match goal with
         | H : _ /\ _ |- _ => destruct H
         | H : exists _, _ |- _ => destruct H
         | k : Tick |- _ => destruct k
         | c : Countdown |- _ => destruct c
         end.

Ltac lookup_facts :=
  repeat match goal with
  | H : is_Some (_ !! _) |- _ => apply lookup_lt_is_Some in H
  | H : _ !! _ = Some _ |- _ => apply lookup_lt_Some in H
  | H : _ !! _ = None |- _ => apply lookup_ge_None in H
  end.

Ltac status_goal :=
  match goal with
  | |- length (advance_statuses _ _ _) = _ =>
      rewrite advance_statuses_length by lia; assumption
  | Hlen : length ?sts = _
    |- forall i, _ -> is_Some (js_get (advance_statuses _ _ ?sts) i) =>
      rewrite <- Hlen in *; apply advance_statuses_filled; [lia | assumption]
  | |- status_shape (_ + 1) (advance_statuses _ _ _) =>
      apply advance_statuses_shape; [auto | lia | assumption]
  | |- length (imap _ _) = _ => rewrite length_imap; assumption
  | Hlen : length ?sts = _, Hfill : forall i, _ -> is_Some (js_get ?sts i)
    |- forall i, _ -> is_Some (js_get (imap _ ?sts) i) =>
      let i := fresh "i" in let Hi := fresh "Hi" in
      intros i Hi; rewrite reset_statuses_get;
      destruct (Hfill i Hi) as [? ->]; simpl; eauto
  | Hlen : length ?sts = _ |- _ -> status_shape 0 (imap _ ?sts) =>
      rewrite <- Hlen in *; intro; apply reset_statuses_shape; assumption
  end.

Ltac remaining_goal :=
  match goal with
  | |- forall ex, _ !! _ = Some ex -> _ =>
      let ex := fresh "ex" in let Hex := fresh "Hex" in
      intros ex Hex;
      first [ congruence | exfalso; lia | solve [eauto]
            | left; congruence
            | right; split; [reflexivity | congruence]
            | right; split; [reflexivity | solve [eauto]]
            | match goal with
              | H : forall e, _ -> _ |- _ =>
                  first [ apply H
                        | right; split; [reflexivity | apply H] ];
                  congruence
              end ]
  end.

Ltac contradiction_first :=
  try (exfalso; lookup_facts; first [lia | congruence]).

Ltac finish_inv :=
  unfold playback_inv, remaining_inv; reduce_goal;
  contradiction_first;
  repeat match goal with
         | |- _ /\ _ => split
         | |- exists _, _ => eexists
         end;
  first [ reflexivity | assumption | exact I | remaining_goal
        | lookup_facts;
          first [ lia | status_goal | (exfalso; lia) | auto; fail ] ].

(** Name the sixteen components of a playback state. *)
Ltac destruct_playback s :=
  destruct s as [st idx rem tot cdv nxt sts ssc ce ets stR paR ceR iR cR bps].

Opaque timeline.

Lemma init_inv workout :
  playback_inv workout (init workout) /\ remaining_inv workout (init workout).
Proof.
  unfold init, useState_defaults. reduce_playback.
  destruct (timeline workout !! 0%nat) as [first|] eqn:E;
    unfold playback_inv, remaining_inv; reduce_playback;
    rewrite length_imap; repeat split; auto; try congruence.
  all: try (intros i Hi; rewrite initial_statuses_get;
            destruct (lookup_lt_is_Some_2 _ _ Hi) as [x ->]; simpl; eauto).
  all: intros; apply initial_statuses_shape; assumption.
Qed.

Lemma step_inv workout a now s s' :
  playback_inv workout s /\ remaining_inv workout s ->
  step workout a now s = Some s' ->
  playback_inv workout s' /\ remaining_inv workout s'.
Proof.
  intros [Hinv Hrem] Hstep. unfold step in Hstep.
  destruct (enabled workout a s) eqn:En; [|discriminate]. injection Hstep as <-.
  destruct_playback s.
  unfold playback_inv in Hinv. unfold remaining_inv in Hrem.
  unfold enabled in En.
  cbn [timerState currentExerciseIndex remainingTime nextExerciseIndex
       exerciseStatuses showStopConfirm currentExerciseElapsed intervalRef
       countdownIntervalRef] in Hinv, Hrem, En.
  destruct a, st; try discriminate.
  all: try (apply bool_decide_eq_true in En).
  all: open_hypotheses;
    cbn [cd_type cd_targetIndex cd_totalElapsedTime
         tick_currentExerciseIndex tick_totalElapsedTime] in *;
    simplify_eq.
  all: reduce_playback.
  all: repeat first [ rewrite Nat.eqb_refl; reduce_goal
                    | split_condition; reduce_goal ].
  all: split; finish_inv.
Qed.

Lemma reachable_inv workout s :
  reachable workout s -> playback_inv workout s /\ remaining_inv workout s.
Proof.
  induction 1 as [|a now s s' Hs IH Hstep].
  - apply init_inv.
  - eapply step_inv; eauto.
Qed.

Lemma run_reachable workout events : forall s s',
  reachable workout s -> run workout events s = Some s' -> reachable workout s'.
Proof.
  induction events as [|[a now] rest IH]; intros s s' Hs Hrun; simpl in Hrun.
  - congruence.
  - destruct (step workout a now s) as [s1|] eqn:E; [|discriminate].
    eapply IH; [|exact Hrun]. eapply reachable_step; eauto.
Qed.

Lemma step_enabled workout a now s :
  enabled workout a s = true ->
  step workout a now s
  = Some (run_effects workout s (handler workout a now s) now).
Proof. intros H. unfold step. rewrite H. reflexivity. Qed.

(** What one playback tick displays and logs, and what it leaves alone
    while the step has time left. *)
Lemma tick_effect workout s k ex now :
  timerState s = ts_running ->
  intervalRef s = Some k ->
  tick_currentExerciseIndex k = currentExerciseIndex s ->
  timeline workout !! currentExerciseIndex s = Some ex ->
  exists s',
    step workout PlaybackTick now s = Some s' /\ tick_post s ex now s'.
Proof.
  intros Hst Hk Hidx Hex.
  destruct_playback s.
  destruct k as [kidx ktot].
  cbn [intervalRef currentExerciseIndex tick_currentExerciseIndex timerState]
    in *.
  subst st iR kidx.
  eexists. split.
  { apply step_enabled. reflexivity. }
  reduce_goal. rewrite Hex. reduce_goal.
  repeat first [ rewrite Nat.eqb_refl; reduce_goal
               | split_condition; reduce_goal ].
  all: unfold tick_post, remaining_at in *; reduce_goal.
  all: match goal with H : is_threshold _ = _ |- _ => rewrite H end.
  all: repeat split; try reflexivity; try (intros; exfalso; lia).
Qed.

Lemma enabled_on_step workout s ex :
  timeline workout !! currentExerciseIndex s = Some ex ->
  bool_decide (is_Some (timeline workout !! currentExerciseIndex s)) = true.
Proof. intros H. apply bool_decide_eq_true_2. eauto. Qed.

Lemma pause_effect workout s ex now :
  timerState s = ts_running ->
  timeline workout !! currentExerciseIndex s = Some ex ->
  step workout ClickPause now s
  = Some (set_intervalRef None
            (set_timerState ts_paused
               (set_pausedTimeRef (totalElapsedTime s) s))).
Proof.
  intros Hst Hex. rewrite step_enabled.
  - destruct_playback s. cbn [timerState] in Hst. subst.
    reduce_goal. rewrite Nat.eqb_refl. reflexivity.
  - unfold enabled. rewrite Hst. eapply enabled_on_step, Hex.
Qed.

Lemma resume_effect workout s ex now :
  timerState s = ts_paused ->
  timeline workout !! currentExerciseIndex s = Some ex ->
  step workout ClickStart now s
  = Some (set_intervalRef
            (Some (mkTick (currentExerciseIndex s) (totalElapsedTime s)))
            (set_timerState ts_running
               (set_currentExerciseStartRef
                  (now - currentExerciseElapsed s * 1000)
                  (set_startTimeRef now s)))).
Proof.
  intros Hst Hex. rewrite step_enabled.
  - destruct_playback s. cbn [timerState currentExerciseIndex] in Hst, Hex. subst.
    reduce_goal. rewrite Nat.eqb_refl, Hex. reflexivity.
  - unfold enabled. rewrite Hst. eapply enabled_on_step, Hex.
Qed.

(** ** The status array

    C5. In every state the page can reach, while playback is running,
    paused or counting down, the status array has one running cell, at
    the current step (at the target of the transition during a
    transition countdown); every cell before it is completed or
    skipped, every cell after it is pending, and no other cell is
    running.  Reachability covers initialization, ticks, skips, pauses,
    resumes and stops. *)
Theorem status_invariant (workout : WorkoutPlan) (s : Playback) :
  reachable workout s -> active (timerState s) ->
  (running_index s < length (exerciseStatuses s))%nat /\
  status_shape (running_index s) (exerciseStatuses s) /\
  (forall i, js_get (exerciseStatuses s) i = Some es_running ->
             i = running_index s).
Proof.
  intros Hreach Hactive.
  destruct (reachable_inv workout s Hreach) as [(Hlen & _ & Hst) _].
  assert (Hshape : status_shape (running_index s) (exerciseStatuses s)).
  { unfold running_index.
    destruct Hactive as [E|[E|[E|E]]]; rewrite E in *.
    - apply Hst.
    - apply Hst.
    - destruct Hst as (-> & _ & _ & _ & H). exact H.
    - destruct Hst as (-> & _ & _ & _ & H). exact H. }
  split; [|split].
  - eapply status_shape_in_range, Hshape.
  - exact Hshape.
  - intros i Hi. eapply status_shape_unique; eauto.
Qed.

Lemma status_invariant_witness :
  exists s,
    run skip_plan skip_prefix (init skip_plan) = Some s /\
    timerState s = ts_running /\
    status_shape 1 (exerciseStatuses s).
Proof.
  destruct (run skip_plan skip_prefix (init skip_plan)) as [s|] eqn:E;
    [|vm_compute in E; discriminate].
  exists s. split; [reflexivity|].
  assert (Hst : timerState s = ts_running).
  { vm_compute in E. injection E as <-. reflexivity. }
  assert (Hidx : running_index s = 1%nat).
  { vm_compute in E. injection E as <-. reflexivity. }
  split; [exact Hst|]. rewrite <- Hidx.
  apply (status_invariant skip_plan s).
  - eapply run_reachable; [apply reachable_init | exact E].
  - left. exact Hst.
Defined.

(** ** Skip

    C6, evaluated on the scenario of the specification (warm-up 10 s,
    a 30 s run, cool-down 10 s, skip after 5 s of the run).  The skip
    records 5 s for the run, marks it skipped and the cool-down running,
    shows 40 s of total elapsed time during the transition countdown,
    and enters the cool-down; but the countdown then restores the total
    that the render of the click had closed over, so the first tick of
    the cool-down shows 5 s: the total elapsed time decreases. *)
Theorem skip_total_elapsed_drops :
  exists before skipped after,
    run skip_plan skip_prefix (init skip_plan) = Some before /\
    timerState before = ts_running /\
    currentExerciseIndex before = 1%nat /\
    currentExerciseElapsed before = 5 /\
    totalElapsedTime before = 5 /\
    step skip_plan ClickSkip 23050 before = Some skipped /\
    timerState skipped = ts_countdown_transition /\
    nextExerciseIndex skipped = 2%nat /\
    js_get (exerciseElapsedTimes skipped) 1 = Some 5 /\
    exerciseStatuses skipped
    = [Some es_completed; Some es_skipped; Some es_running] /\
    totalElapsedTime skipped = 40 /\
    run skip_plan skip_suffix skipped = Some after /\
    timerState after = ts_running /\
    currentExerciseIndex after = 2%nat /\
    totalElapsedTime after = 5 /\
    totalElapsedTime after < totalElapsedTime skipped.
Proof.
  do 3 eexists. 
  split; [vm_compute; reflexivity|].
  repeat (split; [vm_compute; reflexivity|]).
  vm_compute; reflexivity.
Qed.

(** Skip does nothing on the last step, where no button offers it. *)
Lemma handleSkip_last_step workout r :
  (length (timeline workout) <= currentExerciseIndex r + 1)%nat ->
  handleSkip workout r = r /\ enabled workout ClickSkip r = false.
Proof.
  intros Hlast. split.
  - unfold handleSkip.
    destruct (Z.ltb_spec (Z.of_nat (currentExerciseIndex r))
                (Z.of_nat (length (timeline workout)) - 1)); [lia|reflexivity].
  - unfold enabled. destruct (timerState r); try reflexivity.
    rewrite (bool_decide_eq_false_2
               (is_Some (timeline workout !! (currentExerciseIndex r + 1)%nat))).
    + apply andb_false_r.
    + rewrite lookup_lt_is_Some. lia.
Qed.

(** ** Pause and resume *)

(** What pause, resume and the next tick display.  From a reachable
    running state of a plan whose durations are
    not negative, pause, resume at time [t] and the next tick at time
    [t'] give: a paused state with the playback interval gone and the
    total frozen; a running state that shows the same total, the same
    elapsed time of the step and the same remaining time; and a tick
    that shows the frozen values plus the whole seconds between [t] and
    [t'].  When less than a second lies between resume and tick, total
    elapsed time, step elapsed time and remaining time are exactly
    those shown before the pause. *)
Theorem pause_resume_keeps_time (workout : WorkoutPlan) (s : Playback)
    (t0 t t' : Z) :
  (forall ex, ex ∈ timeline workout -> 0 <= te_duration ex) ->
  reachable workout s -> timerState s = ts_running ->
  t <= t' ->
  exists s1 s2 s3 ex,
    timeline workout !! currentExerciseIndex s = Some ex /\
    step workout ClickPause t0 s = Some s1 /\
    step workout ClickStart t s1 = Some s2 /\
    step workout PlaybackTick t' s2 = Some s3 /\
    (timerState s1 = ts_paused /\ intervalRef s1 = None /\
     totalElapsedTime s1 = totalElapsedTime s /\
     pausedTimeRef s1 = totalElapsedTime s) /\
    (timerState s2 = ts_running /\
     totalElapsedTime s2 = totalElapsedTime s /\
     currentExerciseElapsed s2 = currentExerciseElapsed s /\
     remainingTime s2 = remainingTime s) /\
    (totalElapsedTime s3 = totalElapsedTime s + (t' - t) / 1000 /\
     currentExerciseElapsed s3 = currentExerciseElapsed s + (t' - t) / 1000 /\
     remainingTime s3
     = Z.max 0 (te_duration ex
                - (currentExerciseElapsed s + (t' - t) / 1000))) /\
    (t' - t < 1000 ->
     totalElapsedTime s3 = totalElapsedTime s /\
     currentExerciseElapsed s3 = currentExerciseElapsed s /\
     remainingTime s3 = remainingTime s).
Proof.
  intros Hdur Hreach Hrun Hle.
  destruct (reachable_inv workout s Hreach) as [(_ & _ & Hst) Hrem].
  unfold remaining_inv in Hrem. rewrite Hrun in Hst, Hrem.
  destruct Hst as (Hidx & _ & _ & _).
  destruct (lookup_lt_is_Some_2 _ _ Hidx) as [ex Hex].
  specialize (Hrem ex Hex).
  assert (Hd : 0 <= te_duration ex)
    by (eapply Hdur, list_elem_of_lookup_2, Hex).
  pose proof (pause_effect workout s ex t0 Hrun Hex) as H1.
  set (s1 := set_intervalRef None _) in H1.
  assert (Hp1 : timerState s1 = ts_paused /\
                timeline workout !! currentExerciseIndex s1 = Some ex).
  { subst s1. destruct_playback s. split; [reflexivity | exact Hex]. }
  destruct Hp1 as [Hst1 Hex1].
  pose proof (resume_effect workout s1 ex t Hst1 Hex1) as H2.
  set (s2 := set_intervalRef (Some _) _) in H2.
  destruct (tick_effect workout s2
              (mkTick (currentExerciseIndex s1) (totalElapsedTime s1)) ex t')
    as (s3 & H3 & Hpost).
  { subst s2 s1. destruct_playback s. reflexivity. }
  { subst s2 s1. destruct_playback s. reflexivity. }
  { subst s2 s1. destruct_playback s. reflexivity. }
  { subst s2 s1. destruct_playback s. exact Hex. }
  exists s1, s2, s3, ex.
  unfold tick_post, remaining_at in Hpost.
  destruct Hpost as (Htot & Hce & Hrm & _).
  subst s2 s1.
  destruct_playback s.
  reduce_playback.
  assert (Hdiv : (t' - (t - ce * 1000)) / 1000 = ce + (t' - t) / 1000).
  { replace (t' - (t - ce * 1000)) with (t' - t + ce * 1000) by lia.
    rewrite Z.div_add by lia. lia. }
  rewrite Hdiv in Hce, Hrm.
  repeat match goal with
         | |- _ /\ _ => split
         | |- _ < _ -> _ =>
             let Hlt := fresh "Hlt" in
             intros Hlt; rewrite (Z.div_small (t' - t) 1000) in * by lia
         end;
    first [assumption | reflexivity | lia].
Qed.

Lemma skip_plan_durations :
  forall ex, ex ∈ timeline skip_plan -> 0 <= te_duration ex.
Proof.
  intros ex Hin. apply list_elem_of_In in Hin. vm_compute in Hin.
  intuition (subst; simpl; lia).
Qed.

Lemma pause_resume_keeps_time_witness :
  exists s s3,
    run skip_plan skip_prefix (init skip_plan) = Some s /\
    timerState s = ts_running /\ 30000 <= 30000 /\
    totalElapsedTime s3 = totalElapsedTime s.
Proof.
  destruct (run skip_plan skip_prefix (init skip_plan)) as [s|] eqn:E;
    [|vm_compute in E; discriminate].
  assert (Hst : timerState s = ts_running).
  { vm_compute in E. injection E as <-. reflexivity. }
  assert (Hreach : reachable skip_plan s).
  { eapply run_reachable; [apply reachable_init | exact E]. }
  destruct (pause_resume_keeps_time skip_plan s 23050 30000 30000
              skip_plan_durations Hreach Hst ltac:(lia))
    as (s1 & s2 & s3 & ex & _ & _ & _ & _ & _ & _ & _ & Hsame).
  exists s, s3. split; [reflexivity|]. split; [exact Hst|].
  split; [lia|]. apply Hsame. lia.
Defined.

(** ** Pause and resume, against the uninterrupted run *)

Lemma div_1000_add (a b : Z) :
  (a + b) / 1000 = a / 1000 + b / 1000 + (a mod 1000 + b mod 1000) / 1000 /\
  0 <= (a mod 1000 + b mod 1000) / 1000 <= 1 /\
  ((a mod 1000 + b mod 1000) / 1000 = 1 <->
   1000 <= a mod 1000 + b mod 1000).
Proof.
  pose proof (Z.div_mod a 1000 ltac:(lia)) as Ha.
  pose proof (Z.div_mod b 1000 ltac:(lia)) as Hb.
  pose proof (Z.mod_pos_bound a 1000 ltac:(lia)) as Hra.
  pose proof (Z.mod_pos_bound b 1000 ltac:(lia)) as Hrb.
  set (qa := a / 1000) in *. set (ra := a mod 1000) in *.
  set (qb := b / 1000) in *. set (rb := b mod 1000) in *.
  assert (Hsum : a + b = (qa + qb) * 1000 + (ra + rb)) by lia.
  split.
  - rewrite Hsum, Z.div_add_l by lia. lia.
  - destruct (Z_lt_ge_dec (ra + rb) 1000) as [Hlt|Hge].
    + rewrite Z.div_small by lia. repeat split; lia.
    + assert (Hone : (ra + rb) / 1000 = 1).
      { replace (ra + rb) with (1 * 1000 + (ra + rb - 1000)) by lia.
        rewrite Z.div_add_l by lia. rewrite Z.div_small by lia. lia. }
      rewrite Hone. repeat split; lia.
Qed.

(** Against C7 as stated: the 10 s step began at 5000 and the tick at
    5900 showed 0 s.  Pause and resume at 5900, with no time between
    them: the tick at 6000 shows total 0 and 10 s remaining, where the
    uninterrupted run shows total 1 and 9 s remaining.  The 900 ms run
    before the pause are lost, nine times the 100 ms of a tick. *)
Lemma pause_resume_loses_time :
  exists s paused resumed after straight,
    run cue_plan (cue_start ++ [(PlaybackTick, 5900)]) (init cue_plan)
    = Some s /\
    totalElapsedTime s = 0 /\ remainingTime s = 10 /\
    step cue_plan ClickPause 5900 s = Some paused /\
    step cue_plan ClickStart 5900 paused = Some resumed /\
    step cue_plan PlaybackTick 6000 resumed = Some after /\
    step cue_plan PlaybackTick 6000 s = Some straight /\
    totalElapsedTime after = 0 /\ remainingTime after = 10 /\
    totalElapsedTime straight = 1 /\ remainingTime straight = 9.
Proof.
  do 5 eexists.
  split; [vm_compute; reflexivity|].
  repeat (split; [vm_compute; reflexivity|]).
  vm_compute; reflexivity.
Qed.

(** C7, amended.  From a reachable running state of a plan whose
    durations are not negative: pause at [t] freezes the displayed
    total and removes the interval; resume, with no time in between,
    shows the same total, the same elapsed time of the step and the
    same remaining time, and accumulation restarts from these frozen
    whole seconds, so that a tick less than a second later still shows
    them.  Measured from a display that is up to date at [t] (a tick
    has just shown the whole seconds elapsed), nothing is counted
    twice: at every later tick the total and the step's elapsed time
    are at most what the uninterrupted run would show, and the
    remaining time at least.  But the part of a second that had run
    when the pause came is dropped: the tick shows up to one second
    less than the uninterrupted run, exactly when that part and the
    part of a second since the resume add up to a second.  The cycle is
    an identity on the displayed whole seconds, not on the elapsed
    time. *)
Theorem pause_resume_drops_fraction (workout : WorkoutPlan) (s : Playback)
    (t t' : Z) :
  (forall ex, ex ∈ timeline workout -> 0 <= te_duration ex) ->
  reachable workout s -> timerState s = ts_running ->
  t <= t' ->
  exists s1 s2 s3 straight ex,
    timeline workout !! currentExerciseIndex s = Some ex /\
    step workout ClickPause t s = Some s1 /\
    step workout ClickStart t s1 = Some s2 /\
    step workout PlaybackTick t' s2 = Some s3 /\
    step workout PlaybackTick t' s = Some straight /\
    (timerState s1 = ts_paused /\ intervalRef s1 = None /\
     totalElapsedTime s1 = totalElapsedTime s /\
     pausedTimeRef s1 = totalElapsedTime s) /\
    (timerState s2 = ts_running /\
     totalElapsedTime s2 = totalElapsedTime s /\
     currentExerciseElapsed s2 = currentExerciseElapsed s /\
     remainingTime s2 = remainingTime s) /\
    (totalElapsedTime s3 = totalElapsedTime s + (t' - t) / 1000 /\
     currentExerciseElapsed s3
     = currentExerciseElapsed s + (t' - t) / 1000) /\
    (t' - t < 1000 ->
     totalElapsedTime s3 = totalElapsedTime s /\
     currentExerciseElapsed s3 = currentExerciseElapsed s /\
     remainingTime s3 = remainingTime s) /\
    (totalElapsedTime s = (t - startTimeRef s) / 1000 + pausedTimeRef s ->
     totalElapsedTime s3 <= totalElapsedTime straight
     <= totalElapsedTime s3 + 1 /\
     (totalElapsedTime straight = totalElapsedTime s3 + 1 <->
      1000 <= (t - startTimeRef s) mod 1000 + (t' - t) mod 1000)) /\
    (currentExerciseElapsed s = (t - currentExerciseStartRef s) / 1000 ->
     currentExerciseElapsed s3 <= currentExerciseElapsed straight
     <= currentExerciseElapsed s3 + 1 /\
     remainingTime straight <= remainingTime s3
     <= remainingTime straight + 1).
Proof.
  intros Hdur Hreach Hrun Hle.
  destruct (pause_resume_keeps_time workout s t t t' Hdur Hreach Hrun Hle)
    as (s1 & s2 & s3 & ex & Hex & H1 & H2 & H3 & Hp1 & Hp2 & Hp3 & Hsame).
  destruct (reachable_inv workout s Hreach) as [(_ & _ & Hst) _].
  rewrite Hrun in Hst. destruct Hst as (_ & (k & Hk & Hkidx) & _ & _).
  destruct (tick_effect workout s k ex t' Hrun Hk Hkidx Hex)
    as (straight & Hstraight & Hpost).
  unfold tick_post, remaining_at in Hpost.
  destruct Hpost as (Htot' & Hce' & Hrem' & _).
  exists s1, s2, s3, straight, ex.
  destruct Hp3 as (Htot3 & Hce3 & Hrem3).
  destruct (div_1000_add (t - startTimeRef s) (t' - t)) as (Ha & Hb & Hc).
  destruct (div_1000_add (t - currentExerciseStartRef s) (t' - t))
    as (Ha' & Hb' & _).
  replace (t - startTimeRef s + (t' - t)) with (t' - startTimeRef s)
    in Ha by lia.
  replace (t - currentExerciseStartRef s + (t' - t))
    with (t' - currentExerciseStartRef s) in Ha' by lia.
  split; [exact Hex|]. split; [exact H1|]. split; [exact H2|].
  split; [exact H3|]. split; [exact Hstraight|].
  split; [exact Hp1|]. split; [exact Hp2|].
  split; [split; assumption|]. split; [exact Hsame|].
  split.
  - intros Htot. split; [lia|]. rewrite <- Hc. lia.
  - intros Hce. split; lia.
Qed.

Lemma cue_plan_durations :
  forall ex, ex ∈ timeline cue_plan -> 0 <= te_duration ex.
Proof.
  intros ex Hin. apply list_elem_of_In in Hin. vm_compute in Hin.
  intuition (subst; simpl; lia).
Qed.

Lemma pause_resume_drops_fraction_witness :
  exists s s3 straight,
    run cue_plan cue_start (init cue_plan) = Some s /\
    timerState s = ts_running /\ 5900 <= 6000 /\
    totalElapsedTime s3 = totalElapsedTime s /\
    totalElapsedTime straight = totalElapsedTime s3 + 1.
Proof.
  destruct (run cue_plan cue_start (init cue_plan)) as [s|] eqn:E;
    [|vm_compute in E; discriminate].
  assert (Hst : timerState s = ts_running).
  { vm_compute in E. injection E as <-. reflexivity. }
  assert (Hstart : startTimeRef s = 5000).
  { vm_compute in E. injection E as <-. reflexivity. }
  assert (Htot : totalElapsedTime s
                 = (5900 - startTimeRef s) / 1000 + pausedTimeRef s).
  { vm_compute in E. injection E as <-. reflexivity. }
  assert (Hreach : reachable cue_plan s).
  { eapply run_reachable; [apply reachable_init | exact E]. }
  destruct (pause_resume_drops_fraction cue_plan s 5900 6000
              cue_plan_durations Hreach Hst ltac:(lia))
    as (s1 & s2 & s3 & straight & ex & _ & _ & _ & _ & _ & _ & _ & _
        & Hsame & Hlost & _).
  exists s, s3, straight. split; [reflexivity|]. split; [exact Hst|].
  split; [lia|]. split.
  - apply Hsame. lia.
  - apply (Hlost Htot). rewrite Hstart. vm_compute. discriminate.
Defined.

(** ** The warning cue

    Against C8 as stated: in one running step of 10 s that began at
    5000, the ticks at 12000 and 12100 both see 3 s remaining, and the
    cue sounds at both. *)
Lemma warning_cue_repeats :
  exists s,
    run cue_plan cue_start (init cue_plan) = Some s /\
    timerState s = ts_running /\
    warning_cues cue_plan [12000; 12100] s = [3; 3].
Proof.
  eexists. split; [vm_compute; reflexivity|].
  split; vm_compute; reflexivity.
Qed.

(** C8, amended.  Over consecutive ticks of a running step that has time
    left at each of them, the warning cue sounds at exactly the ticks
    whose remaining whole seconds are 3, 2 or 1, once per such tick:
    each threshold sounds as many times as ticks fall within its
    second. *)
Theorem warning_cue_every_tick (workout : WorkoutPlan) (ticks : list Z) :
  forall (s : Playback) (ex : TimerExercise),
    reachable workout s -> timerState s = ts_running ->
    timeline workout !! currentExerciseIndex s = Some ex ->
    (forall now, now ∈ ticks ->
       0 < remaining_at (te_duration ex) (currentExerciseStartRef s) now) ->
    warning_cues workout ticks s
    = List.filter is_threshold
        (map (remaining_at (te_duration ex) (currentExerciseStartRef s)) ticks).
Proof.
  induction ticks as [|now rest IH]; intros s ex Hreach Hrun Hex Hpos;
    [reflexivity|].
  destruct (reachable_inv workout s Hreach) as [(_ & _ & Hst) _].
  rewrite Hrun in Hst. destruct Hst as (_ & (k & Hk & Hkidx) & _ & _).
  destruct (tick_effect workout s k ex now Hrun Hk Hkidx Hex)
    as (s' & Hstep & Hpost).
  unfold tick_post in Hpost.
  destruct Hpost as (_ & _ & Hrm & Hbeeps & Hsame).
  assert (Hr : 0 < remaining_at (te_duration ex) (currentExerciseStartRef s) now)
    by (apply Hpos, list_elem_of_here).
  destruct (Hsame Hr) as (Hst' & _ & Hidx' & Hstart' & _).
  cbn [warning_cues map List.filter]. rewrite Hstep, Hbeeps, Hrm.
  rewrite (IH s' ex).
  - rewrite Hstart'.
    rewrite Z.max_r by lia.
    destruct (is_threshold _); simpl.
    + rewrite Nat.eqb_refl. reflexivity.
    + destruct (Nat.eqb_spec (length (beeps s)) (S (length (beeps s))));
        [lia|reflexivity].
  - eapply reachable_step; eauto.
  - congruence.
  - congruence.
  - intros now' Hin. rewrite Hstart'. apply Hpos, list_elem_of_further, Hin.
Qed.

Lemma warning_cue_every_tick_witness :
  exists s,
    run cue_plan cue_start (init cue_plan) = Some s /\
    warning_cues cue_plan [11900; 12000; 12100; 13000] s = [3; 3; 2].
Proof.
  destruct (run cue_plan cue_start (init cue_plan)) as [s|] eqn:E;
    [|vm_compute in E; discriminate].
  exists s. split; [reflexivity|].
  assert (Hst : timerState s = ts_running).
  { vm_compute in E. injection E as <-. reflexivity. }
  assert (Hstart : currentExerciseStartRef s = 5000).
  { vm_compute in E. injection E as <-. reflexivity. }
  assert (Hex : timeline cue_plan !! currentExerciseIndex s
                = Some (mkTimerExercise "e" "running" 10 None None 0 10)).
  { vm_compute in E. injection E as <-. vm_compute. reflexivity. }
  rewrite (warning_cue_every_tick cue_plan _ s _
             (run_reachable _ _ _ _ (reachable_init _) E) Hst Hex).
  - rewrite Hstart. vm_compute. reflexivity.
  - intros now Hin. rewrite Hstart. apply list_elem_of_In in Hin.
    simpl in Hin. unfold remaining_at.
    intuition (subst; vm_compute; reflexivity).
Defined.

(* ===================================================================== *)
(** * Further properties of the code                                      *)
(* ===================================================================== *)

(** ** Storage: writes and what is read after them *)

Section StorageFacts.

Variable json : Json.

Lemma saveWorkouts_healthy d ws :
  healthy d ->
  saveWorkouts json d ws
  = mkLocalStorage true
      (<[STORAGE_KEY := json_stringify json ws]> (ls_contents d))
      false (ls_setItem_throws d).
Proof.
  intros (Hw & Hg & Hs). unfold saveWorkouts, setItem.
  rewrite Hw, Hs, Hg. reflexivity.
Qed.

Lemma saveWorkouts_keeps_healthy d ws :
  healthy d -> healthy (saveWorkouts json d ws).
Proof.
  intros H. rewrite saveWorkouts_healthy by exact H.
  destruct H as (Hw & Hg & Hs). repeat split; auto.
Qed.

Lemma saved_is_stored d ws :
  healthy d -> codec_ok json ws ->
  stored json (saveWorkouts json d (map ElemPlan ws)) ws.
Proof.
  intros H [Hparse Hne]. unfold stored.
  rewrite saveWorkouts_healthy by exact H.
  unfold getWorkouts, browser_of. cbn.
  rewrite lookup_insert_eq. cbn.
  apply String.eqb_neq in Hne. rewrite Hne. cbn. rewrite Hparse. reflexivity.
Qed.

Lemma save_refused_unchanged d ws :
  ls_window d = false \/
  ls_setItem_throws d STORAGE_KEY (json_stringify json ws) = true ->
  saveWorkouts json d ws = d.
Proof.
  intros [H|H]; unfold saveWorkouts, setItem.
  - rewrite H. reflexivity.
  - rewrite H. destruct (ls_window d); reflexivity.
Qed.

Lemma getWorkout_stored d ws id0 :
  stored json d ws ->
  getWorkout (browser_of json d) id0
  = Returns (snd <$> list_find (fun w => id w = id0) ws).
Proof.
  intros H. unfold getWorkout. rewrite H. cbn [bind_completion array_method].
  apply find_by_id_plans.
Qed.

(** On an array of plans, [findIndex] and [filter] are the searches on
    the plans. *)
Lemma find_index_from_plans (k : nat) (id0 : string) (ws : list WorkoutPlan) :
  find_index_from k id0 (map ElemPlan ws)
  = Returns (prod_map (Nat.add k) Datatypes.id
               <$> list_find (fun w => id w = id0) ws).
Proof.
  revert k. induction ws as [|w ws IH]; intros k; [reflexivity|].
  cbn [map find_index_from list_find]. destruct (decide (id w = id0)).
  - simpl. rewrite Nat.add_0_r. reflexivity.
  - rewrite IH. destruct (list_find _ ws) as [[i x]|]; simpl; [|reflexivity].
    rewrite Nat.add_succ_r. reflexivity.
Qed.

Lemma find_index_plans (id0 : string) (ws : list WorkoutPlan) :
  find_index_from 0 id0 (map ElemPlan ws)
  = Returns (list_find (fun w => id w = id0) ws).
Proof.
  rewrite find_index_from_plans.
  destruct (list_find _ ws) as [[i x]|]; reflexivity.
Qed.

Lemma filter_out_plans (id0 : string) (ws : list WorkoutPlan) :
  filter_out id0 (map ElemPlan ws)
  = Returns (map ElemPlan (filter (fun w => id w <> id0) ws)).
Proof.
  induction ws as [|w ws IH]; [reflexivity|].
  cbn [map filter_out]. rewrite IH. cbn [bind_completion].
  rewrite filter_cons. destruct (decide (id w <> id0)); reflexivity.
Qed.

Lemma find_fresh_snoc (ws : list WorkoutPlan) w :
  (forall x, x ∈ ws -> id x <> id w) ->
  snd <$> list_find (fun x => id x = id w) (ws ++ [w]) = Some w.
Proof.
  intros Hfresh.
  destruct (list_find _ (ws ++ [w])) as [[i x]|] eqn:E.
  - apply list_find_Some in E. destruct E as (Hl & Hid & _).
    apply lookup_app_Some in Hl. destruct Hl as [Hl|[_ Hl]].
    + exfalso. eapply Hfresh; [eapply list_elem_of_lookup_2, Hl|exact Hid].
    + apply list_lookup_singleton_Some in Hl. destruct Hl as [_ ->]. reflexivity.
  - apply list_find_None in E. rewrite Forall_app, Forall_singleton in E.
    destruct E as [_ E]. congruence.
Qed.

Lemma find_other_snoc (ws : list WorkoutPlan) w id0 :
  id0 <> id w ->
  snd <$> list_find (fun x => id x = id0) (ws ++ [w])
  = snd <$> list_find (fun x => id x = id0) ws.
Proof.
  intros Hne.
  destruct (list_find (fun w => id w = id0) ws) as [[i x]|] eqn:E.
  - apply list_find_Some in E. destruct E as (Hl & Hid & Hmin).
    erewrite (proj2 (list_find_Some _ _ i x)); [reflexivity|].
    split; [apply lookup_app_l_Some, Hl|]. split; [exact Hid|].
    intros j y Hj Hlt. apply (Hmin j y); [|exact Hlt].
    apply lookup_lt_Some in Hl.
    rewrite lookup_app_l in Hj by lia. exact Hj.
  - apply list_find_None in E.
    erewrite (proj2 (list_find_None _ _)); [reflexivity|].
    rewrite Forall_app, Forall_singleton. split; [exact E|]. congruence.
Qed.

Lemma created_is_stored d ws (workout : WorkoutDraft) newId created updated :
  healthy d -> stored json d ws ->
  codec_ok json (ws ++ [plan_of_draft workout newId created updated]) ->
  exists d',
    createWorkout json d workout newId created updated
    = Returns (plan_of_draft workout newId created updated, d') /\
    healthy d' /\
    stored json d' (ws ++ [plan_of_draft workout newId created updated]).
Proof.
  intros Hh Hst Hc.
  exists (saveWorkouts json d
            (map ElemPlan
               (ws ++ [plan_of_draft workout newId created updated]))).
  split; [|split].
  - unfold createWorkout. unfold stored in Hst. rewrite Hst.
    cbn [bind_completion array_method]. rewrite map_app. reflexivity.
  - apply saveWorkouts_keeps_healthy, Hh.
  - apply saved_is_stored; assumption.
Qed.

Lemma updateWorkout_unfold d ws args now :
  stored json d ws ->
  updateWorkout json d args now
  = match list_find (fun w => id w = update_target args) ws with
    | None => Returns (None, d)
    | Some (index, current) =>
        let merged := merge_updates current (update_data args) now in
        Returns (Some merged,
                 saveWorkouts json d (map ElemPlan (<[index := merged]> ws)))
    end.
Proof.
  intros Hst. unfold updateWorkout. unfold stored in Hst. rewrite Hst.
  destruct args as [w|id1 updates];
    cbn [bind_completion array_method update_target update_data];
    rewrite find_index_plans; cbn [bind_completion];
    (destruct (list_find _ ws) as [[index current]|]; [|reflexivity]);
    cbv zeta; rewrite list_fmap_insert; reflexivity.
Qed.

Lemma find_first_middle (pre post : list WorkoutPlan) (w : WorkoutPlan) id0 :
  id w = id0 -> (forall x, x ∈ pre -> id x <> id0) ->
  list_find (fun x => id x = id0) (pre ++ w :: post) = Some (length pre, w).
Proof.
  intros Hid Hpre. apply list_find_Some. split; [|split].
  - apply list_lookup_middle. reflexivity.
  - exact Hid.
  - intros j y Hj Hlt. rewrite lookup_app_l in Hj by exact Hlt.
    apply Hpre. eapply list_elem_of_lookup_2, Hj.
Qed.

Lemma filter_length_eq (ws : list WorkoutPlan) id0 :
  length (filter (fun w => id w <> id0) ws) = length ws <->
  forall x, x ∈ ws -> id x <> id0.
Proof.
  induction ws as [|w ws IH].
  - split; [intros _ x Hx; inversion Hx | reflexivity].
  - rewrite filter_cons. pose proof (length_filter (fun w => id w <> id0) ws) as Hle.
    destruct (decide (id w <> id0)) as [Hne|Heq]; simpl.
    + split.
      * intros Hlen x Hx. apply elem_of_cons in Hx. destruct Hx as [->|Hx]; auto.
        apply IH; [lia|exact Hx].
      * intros Hall. f_equal. apply IH. intros x Hx. apply Hall.
        apply list_elem_of_further, Hx.
    + split; [lia|]. intros Hall. exfalso. apply Heq, Hall, list_elem_of_here.
Qed.

Lemma find_in_filtered (ws : list WorkoutPlan) id0 id1 :
  id1 <> id0 ->
  snd <$> list_find (fun w => id w = id1) (filter (fun w => id w <> id0) ws)
  = snd <$> list_find (fun w => id w = id1) ws.
Proof.
  intros Hne. induction ws as [|w ws IH]; [reflexivity|].
  rewrite filter_cons.
  destruct (decide (id w <> id0)) as [Hk|Hd].
  - cbn. destruct (decide (id w = id1)); [reflexivity|].
    destruct (list_find _ (filter _ ws)), (list_find _ ws);
      simpl in *; congruence.
  - cbn. destruct (decide (id w = id1)) as [E|E].
    + exfalso. apply Hd. congruence.
    + rewrite IH. destruct (list_find _ ws); reflexivity.
Qed.

Lemma deleted_is_gone d ws id0 :
  healthy d -> stored json d ws ->
  (exists x, x ∈ ws /\ id x = id0) ->
  codec_ok json (filter (fun w => id w <> id0) ws) ->
  exists d',
    deleteWorkout json d id0 = Returns (true, d') /\
    healthy d' /\
    stored json d' (filter (fun w => id w <> id0) ws).
Proof.
  intros Hh Hst (x & Hx & Hid) Hc.
  set (kept := filter (fun w => id w <> id0) ws) in *.
  exists (saveWorkouts json d (map ElemPlan kept)).
  split; [|split].
  - unfold deleteWorkout. pose proof Hst as Hst0. unfold stored in Hst0.
    rewrite Hst0. cbn [bind_completion array_method].
    rewrite filter_out_plans. cbn [bind_completion]. fold kept.
    rewrite !length_map.
    destruct (Nat.eqb_spec (length kept) (length ws)) as [E|E]; [|reflexivity].
    exfalso. subst kept.
    exact (proj1 (filter_length_eq ws id0) E x Hx Hid).
  - apply saveWorkouts_keeps_healthy, Hh.
  - apply saved_is_stored; assumption.
Qed.

Lemma filter_fresh_snoc (ws : list WorkoutPlan) w :
  (forall x, x ∈ ws -> id x <> id w) ->
  filter (fun x => id x <> id w) (ws ++ [w]) = ws.
Proof.
  intros Hfresh. rewrite filter_app, filter_cons, filter_nil.
  destruct (decide (id w <> id w)); [congruence|]. rewrite app_nil_r.
  induction ws as [|y ys IH]; [reflexivity|].
  rewrite filter_cons.
  destruct (decide (id y <> id w)) as [_|E].
  - f_equal. apply IH. intros x Hx. apply Hfresh, list_elem_of_further, Hx.
  - exfalso. apply E, Hfresh, list_elem_of_here.
Qed.

(** X1. On a store that reads and writes without throwing, and for a
    list that [JSON.parse] gives back from its [JSON.stringify],
    [getWorkouts] after [saveWorkouts] returns the saved list, whatever
    was stored before; the store still reads and writes. *)
Theorem saveWorkouts_round_trip (d : LocalStorage)
    (workouts : list WorkoutPlan) :
  healthy d -> codec_ok json workouts ->
  getWorkouts
    (browser_of json (saveWorkouts json d (map ElemPlan workouts)))
  = Returns (JsonArray (map ElemPlan workouts)) /\
  healthy (saveWorkouts json d (map ElemPlan workouts)).
Proof.
  intros Hh Hc. split.
  - apply saved_is_stored; assumption.
  - apply saveWorkouts_keeps_healthy, Hh.
Qed.

(** X2. [createWorkout] on a working store returns the draft completed
    with the new identifier and the two time stamps, appends it to the
    stored list, and leaves the lookup of every other identifier as it
    was; when no stored plan has the new identifier, [getWorkout] of it
    returns the new plan. *)
Theorem createWorkout_then_get (d : LocalStorage) (ws : list WorkoutPlan)
    (workout : WorkoutDraft) (newId : string) (created updated : Z) :
  healthy d -> stored json d ws ->
  codec_ok json (ws ++ [plan_of_draft workout newId created updated]) ->
  exists d',
    createWorkout json d workout newId created updated
    = Returns (plan_of_draft workout newId created updated, d') /\
    stored json d' (ws ++ [plan_of_draft workout newId created updated]) /\
    ((forall x, x ∈ ws -> id x <> newId) ->
     getWorkout (browser_of json d') newId
     = Returns (Some (plan_of_draft workout newId created updated))) /\
    (forall id0, id0 <> newId ->
       getWorkout (browser_of json d') id0
       = getWorkout (browser_of json d) id0).
Proof.
  intros Hh Hst Hc.
  destruct (created_is_stored d ws workout newId created updated Hh Hst Hc)
    as (d' & Hcreate & _ & Hst').
  exists d'. split; [exact Hcreate|]. split; [exact Hst'|]. split.
  - intros Hfresh. rewrite (getWorkout_stored _ _ _ Hst'). f_equal.
    apply (find_fresh_snoc ws (plan_of_draft workout newId created updated)).
    exact Hfresh.
  - intros id0 Hne.
    rewrite (getWorkout_stored _ _ _ Hst'), (getWorkout_stored _ _ _ Hst).
    f_equal. apply find_other_snoc. exact Hne.
Qed.

(** X3. When the write is refused (no [window], or [setItem] throws),
    [createWorkout] still returns the new plan and reports nothing: the
    store is unchanged, so the plan it returned is not found later
    unless a plan with that identifier was already stored. *)
Theorem createWorkout_unsaved_is_returned (d : LocalStorage)
    (ws : list WorkoutPlan) (workout : WorkoutDraft) (newId : string)
    (created updated : Z) :
  stored json d ws ->
  ls_window d = false \/
  ls_setItem_throws d STORAGE_KEY
    (json_stringify json
       (map ElemPlan (ws ++ [plan_of_draft workout newId created updated])))
  = true ->
  createWorkout json d workout newId created updated
  = Returns (plan_of_draft workout newId created updated, d) /\
  ((forall x, x ∈ ws -> id x <> newId) ->
   getWorkout (browser_of json d) newId = Returns None).
Proof.
  intros Hst Href. split.
  - unfold createWorkout. pose proof Hst as Hst0. unfold stored in Hst0.
    rewrite Hst0. cbn [bind_completion array_method].
    change (mkPlan newId (draft_name workout) (draft_description workout)
              (draft_warmupTime workout) (draft_cooldownTime workout)
              (draft_items workout) created updated)
      with (plan_of_draft workout newId created updated).
    cbv zeta. rewrite map_app in Href.
    rewrite save_refused_unchanged by exact Href. reflexivity.
  - intros Hfresh. rewrite (getWorkout_stored _ _ _ Hst).
    destruct (list_find _ ws) as [[i x]|] eqn:E; [|reflexivity].
    apply list_find_Some in E. destruct E as (Hl & Hid & _).
    exfalso. eapply Hfresh; [eapply list_elem_of_lookup_2, Hl | exact Hid].
Qed.

(** X4. [updateWorkout] on a working store, when the first stored plan
    with the target identifier is [current]: it returns [current] with
    the given fields replaced and [updatedAt] set to the clock, keeps
    its identifier and creation time, replaces that one cell of the
    stored list and no other, and [getWorkout] then returns the merged
    plan. *)
Theorem updateWorkout_found (d : LocalStorage)
    (pre : list WorkoutPlan) (current : WorkoutPlan)
    (post : list WorkoutPlan) (args : UpdateArgs) (now : Z) :
  healthy d -> stored json d (pre ++ current :: post) ->
  id current = update_target args ->
  (forall x, x ∈ pre -> id x <> update_target args) ->
  codec_ok json
    (pre ++ merge_updates current (update_data args) now :: post) ->
  exists d',
    updateWorkout json d args now
    = Returns (Some (merge_updates current (update_data args) now), d') /\
    stored json d'
      (pre ++ merge_updates current (update_data args) now :: post) /\
    getWorkout (browser_of json d') (update_target args)
    = Returns (Some (merge_updates current (update_data args) now)) /\
    id (merge_updates current (update_data args) now) = id current /\
    createdAt (merge_updates current (update_data args) now)
    = createdAt current /\
    updatedAt (merge_updates current (update_data args) now) = now.
Proof.
  intros Hh Hst Hid Hpre Hc.
  set (merged := merge_updates current (update_data args) now) in *.
  assert (Hins : <[length pre := merged]> (pre ++ current :: post)
                 = pre ++ merged :: post).
  { replace (length pre) with (length pre + 0)%nat by lia.
    rewrite insert_app_r. reflexivity. }
  exists (saveWorkouts json d (map ElemPlan (pre ++ merged :: post))).
  assert (Hst' : stored json
                   (saveWorkouts json d (map ElemPlan (pre ++ merged :: post)))
                   (pre ++ merged :: post))
    by (apply saved_is_stored; assumption).
  split; [|split; [|split]].
  - rewrite (updateWorkout_unfold _ _ _ _ Hst).
    rewrite (find_first_middle pre post current _ Hid Hpre).
    cbn zeta. fold merged. rewrite Hins. reflexivity.
  - exact Hst'.
  - rewrite (getWorkout_stored _ _ _ Hst').
    rewrite (find_first_middle pre post merged); [reflexivity| |exact Hpre].
    subst merged. simpl. exact Hid.
  - subst merged. repeat split.
Qed.

(** X5. [updateWorkout] for an identifier that no stored plan has
    returns [null] and writes nothing. *)
Theorem updateWorkout_missing (d : LocalStorage) (ws : list WorkoutPlan)
    (args : UpdateArgs) (now : Z) :
  stored json d ws ->
  (forall x, x ∈ ws -> id x <> update_target args) ->
  updateWorkout json d args now = Returns (None, d).
Proof.
  intros Hst Hnone. rewrite (updateWorkout_unfold _ ws) by exact Hst.
  destruct (list_find _ ws) as [[i x]|] eqn:E; [|reflexivity].
  apply list_find_Some in E. destruct E as (Hl & Hid & _).
  exfalso. eapply Hnone; [eapply list_elem_of_lookup_2, Hl | exact Hid].
Qed.

(** X6. [deleteWorkout] of an identifier that some stored plan has, on a
    working store: it returns [true], the stored list loses every plan
    with that identifier and keeps the others in order, [getWorkout] of
    the identifier then returns [null], and the lookup of every other
    identifier is as before. *)
Theorem deleteWorkout_found (d : LocalStorage) (ws : list WorkoutPlan)
    (id0 : string) :
  healthy d -> stored json d ws ->
  (exists x, x ∈ ws /\ id x = id0) ->
  codec_ok json (filter (fun w => id w <> id0) ws) ->
  exists d',
    deleteWorkout json d id0 = Returns (true, d') /\
    stored json d' (filter (fun w => id w <> id0) ws) /\
    getWorkout (browser_of json d') id0 = Returns None /\
    (forall id1, id1 <> id0 ->
       getWorkout (browser_of json d') id1
       = getWorkout (browser_of json d) id1).
Proof.
  intros Hh Hst Hex Hc.
  destruct (deleted_is_gone d ws id0 Hh Hst Hex Hc) as (d' & Hdel & _ & Hst').
  exists d'. split; [exact Hdel|]. split; [exact Hst'|]. split.
  - rewrite (getWorkout_stored _ _ _ Hst').
    destruct (list_find _ (filter _ ws)) as [[i y]|] eqn:E; [|reflexivity].
    apply list_find_Some in E. destruct E as (Hl & Hy & _).
    apply list_elem_of_lookup_2 in Hl. apply list_elem_of_filter in Hl.
    destruct Hl as [Hl _]. contradiction.
  - intros id1 Hne.
    rewrite (getWorkout_stored _ _ _ Hst'), (getWorkout_stored _ _ _ Hst).
    f_equal. apply find_in_filtered, Hne.
Qed.

(** X7. [deleteWorkout] of an identifier that no stored plan has returns
    [false] and writes nothing. *)
Theorem deleteWorkout_missing (d : LocalStorage) (ws : list WorkoutPlan)
    (id0 : string) :
  stored json d ws -> (forall x, x ∈ ws -> id x <> id0) ->
  deleteWorkout json d id0 = Returns (false, d).
Proof.
  intros Hst Hnone. unfold deleteWorkout. unfold stored in Hst. rewrite Hst.
  cbn [bind_completion array_method]. rewrite filter_out_plans.
  cbn [bind_completion]. rewrite !length_map.
  apply filter_length_eq in Hnone. rewrite Hnone, Nat.eqb_refl.
  reflexivity.
Qed.

(** X8. Creating a plan under an identifier that is not stored yet and
    deleting that identifier again gives back the stored list there was
    before. *)
Theorem create_then_delete (d : LocalStorage) (ws : list WorkoutPlan)
    (workout : WorkoutDraft) (newId : string) (created updated : Z) :
  healthy d -> stored json d ws ->
  (forall x, x ∈ ws -> id x <> newId) ->
  codec_ok json (ws ++ [plan_of_draft workout newId created updated]) ->
  codec_ok json ws ->
  exists d1 d2,
    createWorkout json d workout newId created updated
    = Returns (plan_of_draft workout newId created updated, d1) /\
    deleteWorkout json d1 newId = Returns (true, d2) /\
    stored json d2 ws.
Proof.
  intros Hh Hst Hfresh Hc1 Hc0.
  set (newWorkout := plan_of_draft workout newId created updated) in *.
  destruct (created_is_stored d ws workout newId created updated Hh Hst Hc1)
    as (d1 & Hcreate & Hh1 & Hst1).
  fold newWorkout in Hcreate, Hst1.
  assert (Hf : filter (fun x => id x <> newId) (ws ++ [newWorkout]) = ws)
    by (apply (filter_fresh_snoc ws newWorkout); exact Hfresh).
  destruct (deleted_is_gone d1 (ws ++ [newWorkout]) newId Hh1 Hst1)
    as (d2 & Hdel & _ & Hst2).
  { exists newWorkout. split; [|reflexivity].
    apply elem_of_app. right. apply list_elem_of_here. }
  { rewrite Hf. exact Hc0. }
  exists d1, d2. rewrite Hf in Hst2. auto.
Qed.

(** X9. [initializeSampleData] fills a store once: on a working store
    that holds no plan it stores the three sample plans in order, each
    under its own identifier and time stamps; on a store that holds a
    plan it does nothing; and in both cases a later call, with whatever
    identifiers and clock, changes nothing. *)
Theorem initializeSampleData_fills_once (d : LocalStorage)
    (ws : list WorkoutPlan) (ids : nat -> string) (clock : nat -> Z) :
  healthy d -> stored json d ws ->
  (forall n, (1 <= n <= 3)%nat ->
             codec_ok json (take n (sample_plans ids clock))) ->
  exists d',
    initializeSampleData json d ids clock = Returns d' /\
    stored json d'
      (match ws with [] => sample_plans ids clock | _ => ws end) /\
    (ws <> [] -> d' = d) /\
    length (sample_plans ids clock) = 3%nat /\
    (forall ids' clock',
        initializeSampleData json d' ids' clock' = Returns d').
Proof.
  intros Hh Hst Hc.
  unfold initializeSampleData at 1.
  pose proof Hst as Hst0. unfold stored in Hst0. rewrite Hst0.
  destruct ws as [|w ws].
  - cbn [bind_completion length_is_positive map length Nat.ltb Nat.leb].
    unfold sampleWorkouts. cbn [create_each].
    match goal with
    | |- context [createWorkout json d ?w ?i ?c ?u] =>
        destruct (created_is_stored d [] w i c u Hh Hst (Hc 1%nat ltac:(lia)))
          as (d1 & H1 & Hh1 & Hst1)
    end.
    rewrite H1. cbn [bind_completion snd].
    match goal with
    | |- context [createWorkout json d1 ?w ?i ?c ?u] =>
        destruct (created_is_stored d1 _ w i c u Hh1 Hst1
                    (Hc 2%nat ltac:(lia)))
          as (d2 & H2 & Hh2 & Hst2)
    end.
    rewrite H2. cbn [bind_completion snd].
    match goal with
    | |- context [createWorkout json d2 ?w ?i ?c ?u] =>
        destruct (created_is_stored d2 _ w i c u Hh2 Hst2
                    (Hc 3%nat ltac:(lia)))
          as (d3 & H3 & Hh3 & Hst3)
    end.
    rewrite H3. cbn [bind_completion snd].
    exists d3. split; [reflexivity|]. split; [exact Hst3|].
    split; [congruence|]. split; [reflexivity|].
    intros ids' clock'. unfold initializeSampleData.
    unfold stored in Hst3. rewrite Hst3. reflexivity.
  - exists d. split; [reflexivity|]. split; [exact Hst|].
    split; [reflexivity|]. split; [reflexivity|].
    intros ids' clock'. unfold initializeSampleData. rewrite Hst0.
    reflexivity.
Qed.

(** X10. The create page's [handleSave]: a name that is blank after
    trimming gives the name alert and a plan without items the items
    alert, both without touching the store.  Otherwise the page calls
    [createWorkout]: when [getWorkouts] gives an array the page
    navigates to the new plan's view, also when the write was refused
    and nothing was stored; when the stored text parses to a value that
    is not an array, [createWorkout] throws and the page shows the
    failure alert, the store left as it was. *)
Theorem handleSave_outcomes (trim : string -> string) (d : LocalStorage)
    (workout : WorkoutDraft) (newId : string) (created updated : Z) :
  let result := handleSave json trim d workout newId created updated in
  (trim (draft_name workout) = "" ->
   result = (AlertNameMissing, d)) /\
  (trim (draft_name workout) <> "" -> draft_items workout = [] ->
   result = (AlertNoItems, d)) /\
  (trim (draft_name workout) <> "" -> draft_items workout <> [] ->
   forall elements,
     getWorkouts (browser_of json d) = Returns (JsonArray elements) ->
     fst result = NavigatedToView newId /\
     createWorkout json d workout newId created updated
     = Returns (plan_of_draft workout newId created updated, snd result) /\
     (ls_window d = false \/
      ls_setItem_throws d STORAGE_KEY
        (json_stringify json
           (elements
            ++ [ElemPlan (plan_of_draft workout newId created updated)]))
      = true ->
      snd result = d)) /\
  (trim (draft_name workout) <> "" -> draft_items workout <> [] ->
   forall workouts,
     getWorkouts (browser_of json d) = Returns workouts ->
     (forall elements, workouts <> JsonArray elements) ->
     createWorkout json d workout newId created updated = Throws "TypeError" /\
     result = (AlertSaveFailed, d)).
Proof.
  intros result. subst result. unfold handleSave.
  destruct (String.eqb_spec (trim (draft_name workout)) "") as [Hn|Hn].
  { repeat split; congruence. }
  destruct (draft_items workout) as [|it its] eqn:Hit; cbn [length Nat.eqb].
  { repeat split; congruence. }
  split; [congruence|]. split; [congruence|]. split.
  - intros _ _ elements Hget.
    assert (Hcreate :
              createWorkout json d workout newId created updated
              = Returns
                  (plan_of_draft workout newId created updated,
                   saveWorkouts json d
                     (elements
                      ++ [ElemPlan
                            (plan_of_draft workout newId created updated)]))).
    { unfold createWorkout. rewrite Hget. reflexivity. }
    rewrite Hcreate. cbn [fst snd]. split; [reflexivity|].
    split; [reflexivity|]. intros Href. apply save_refused_unchanged, Href.
  - intros _ _ workouts Hget Hnot.
    assert (Hcreate :
              createWorkout json d workout newId created updated
              = Throws "TypeError").
    { unfold createWorkout. rewrite Hget. cbn [bind_completion].
      destruct workouts; try reflexivity. exfalso. eapply Hnot. reflexivity. }
    rewrite Hcreate. split; reflexivity.
Qed.

(** X11. The edit page's [handleSave]: the name alert and the items
    alert as on the create page; with a name and items, the failure
    alert is shown exactly when no stored plan has the edited plan's
    identifier any more (nothing is written then), and the page
    navigates to the plan's view when one has. *)
Theorem handleSaveEdit_outcomes (trim : string -> string) (d : LocalStorage)
    (ws : list WorkoutPlan) (workout : WorkoutPlan) (now : Z) :
  stored json d ws ->
  let result := handleSaveEdit json trim d workout now in
  (trim (name workout) = "" -> result = (AlertNameMissing, d)) /\
  (trim (name workout) <> "" -> items workout = [] ->
   result = (AlertNoItems, d)) /\
  (trim (name workout) <> "" -> items workout <> [] ->
   (forall x, x ∈ ws -> id x <> id workout) ->
   result = (AlertSaveFailed, d)) /\
  (trim (name workout) <> "" -> items workout <> [] ->
   (exists x, x ∈ ws /\ id x = id workout) ->
   fst result = NavigatedToView (id workout)).
Proof.
  intros Hst result. subst result. unfold handleSaveEdit.
  destruct (String.eqb_spec (trim (name workout)) "") as [Hn|Hn].
  { repeat split; congruence. }
  destruct (items workout) as [|it its] eqn:Hit; cbn [length Nat.eqb].
  { repeat split; congruence. }
  split; [congruence|]. split; [congruence|]. split.
  - intros _ _ Hnone.
    rewrite (updateWorkout_unfold d ws _ now Hst).
    destruct (list_find _ ws) as [[i y]|] eqn:E; [|reflexivity].
    apply list_find_Some in E. destruct E as (Hl & Hid & _).
    exfalso. eapply Hnone; [eapply list_elem_of_lookup_2, Hl | exact Hid].
  - intros _ _ (x & Hx & Hid).
    rewrite (updateWorkout_unfold d ws _ now Hst).
    destruct (list_find _ ws) as [[i y]|] eqn:E; [reflexivity|].
    apply list_find_None in E. rewrite Forall_forall in E.
    exfalso. exact (E x Hx Hid).
Qed.

End StorageFacts.

Lemma empty_storage_healthy : healthy empty_storage.
Proof. repeat split. Qed.

Lemma saveWorkouts_round_trip_witness :
  getWorkouts
    (browser_of (table_json [[skip_plan]])
       (saveWorkouts (table_json [[skip_plan]]) empty_storage
          (map ElemPlan [skip_plan])))
  = Returns (JsonArray (map ElemPlan [skip_plan])).
Proof.
  apply (saveWorkouts_round_trip (table_json [[skip_plan]]) empty_storage
           [skip_plan]).
  - exact empty_storage_healthy.
  - split; [vm_compute; reflexivity | vm_compute; discriminate].
Defined.

Lemma createWorkout_then_get_witness :
  exists d',
    createWorkout (table_json [[example_plan]]) empty_storage example_draft
      "n1" 1 2 = Returns (example_plan, d') /\
    getWorkout (browser_of (table_json [[example_plan]]) d') "n1"
    = Returns (Some example_plan).
Proof.
  destruct (createWorkout_then_get (table_json [[example_plan]])
              empty_storage [] example_draft "n1" 1 2)
    as (d' & Hcreate & _ & Hget & _).
  - exact empty_storage_healthy.
  - vm_compute. reflexivity.
  - split; [vm_compute; reflexivity | vm_compute; discriminate].
  - exists d'. split; [exact Hcreate|]. apply Hget.
    intros x Hx. inversion Hx.
Defined.

Lemma createWorkout_unsaved_is_returned_witness :
  createWorkout (table_json []) no_window example_draft "n1" 1 2
  = Returns (example_plan, no_window) /\
  getWorkout (browser_of (table_json []) no_window) "n1" = Returns None.
Proof.
  destruct (createWorkout_unsaved_is_returned (table_json []) no_window []
              example_draft "n1" 1 2) as [Hcreate Hget].
  - vm_compute. reflexivity.
  - left. reflexivity.
  - split; [exact Hcreate|]. apply Hget. intros x Hx. inversion Hx.
Defined.

Lemma updateWorkout_found_witness :
  exists d',
    updateWorkout (table_json [[skip_plan]; [example_renamed]])
      (saveWorkouts (table_json [[skip_plan]; [example_renamed]])
         empty_storage (map ElemPlan [skip_plan]))
      example_rename 7 = Returns (Some example_renamed, d') /\
    name example_renamed = "renamed" /\
    warmupTime example_renamed = 10 /\
    updatedAt example_renamed = 7.
Proof.
  destruct (updateWorkout_found (table_json [[skip_plan]; [example_renamed]])
              (saveWorkouts (table_json [[skip_plan]; [example_renamed]])
                 empty_storage (map ElemPlan [skip_plan]))
              [] skip_plan [] example_rename 7)
    as (d' & Hupdate & _).
  - vm_compute. repeat split.
  - vm_compute. reflexivity.
  - reflexivity.
  - intros x Hx. inversion Hx.
  - split; [vm_compute; reflexivity | vm_compute; discriminate].
  - exists d'. split; [exact Hupdate|]. repeat split.
Defined.

Lemma updateWorkout_missing_witness :
  updateWorkout (table_json [[skip_plan]])
    (saveWorkouts (table_json [[skip_plan]]) empty_storage
       (map ElemPlan [skip_plan]))
    (UpdateWhole cue_plan) 7
  = Returns
      (None,
       saveWorkouts (table_json [[skip_plan]]) empty_storage
         (map ElemPlan [skip_plan])).
Proof.
  apply (updateWorkout_missing (table_json [[skip_plan]]) _ [skip_plan]).
  - vm_compute. reflexivity.
  - intros x Hx. apply list_elem_of_singleton in Hx. subst x.
    vm_compute. discriminate.
Defined.

Lemma deleteWorkout_found_witness :
  exists d',
    deleteWorkout (table_json [[skip_plan; cue_plan]; [skip_plan]])
      (saveWorkouts (table_json [[skip_plan; cue_plan]; [skip_plan]])
         empty_storage (map ElemPlan [skip_plan; cue_plan])) "c"
    = Returns (true, d') /\
    stored (table_json [[skip_plan; cue_plan]; [skip_plan]]) d' [skip_plan].
Proof.
  destruct (deleteWorkout_found
              (table_json [[skip_plan; cue_plan]; [skip_plan]])
              (saveWorkouts (table_json [[skip_plan; cue_plan]; [skip_plan]])
                 empty_storage (map ElemPlan [skip_plan; cue_plan]))
              [skip_plan; cue_plan] "c")
    as (d' & Hdel & Hst & _).
  - vm_compute. repeat split.
  - vm_compute. reflexivity.
  - exists cue_plan. split; [|reflexivity].
    apply list_elem_of_further, list_elem_of_here.
  - split; [vm_compute; reflexivity | vm_compute; discriminate].
  - exists d'. split; [exact Hdel | exact Hst].
Defined.

Lemma deleteWorkout_missing_witness :
  deleteWorkout (table_json [[skip_plan]])
    (saveWorkouts (table_json [[skip_plan]]) empty_storage
       (map ElemPlan [skip_plan])) "c"
  = Returns
      (false,
       saveWorkouts (table_json [[skip_plan]]) empty_storage
         (map ElemPlan [skip_plan])).
Proof.
  apply (deleteWorkout_missing (table_json [[skip_plan]]) _ [skip_plan]).
  - vm_compute. reflexivity.
  - intros x Hx. apply list_elem_of_singleton in Hx. subst x.
    vm_compute. discriminate.
Defined.

Lemma create_then_delete_witness :
  exists d1 d2,
    createWorkout (table_json [[]; [example_plan]]) empty_storage
      example_draft "n1" 1 2 = Returns (example_plan, d1) /\
    deleteWorkout (table_json [[]; [example_plan]]) d1 "n1"
    = Returns (true, d2) /\
    stored (table_json [[]; [example_plan]]) d2 [].
Proof.
  apply (create_then_delete (table_json [[]; [example_plan]]) empty_storage
           [] example_draft "n1" 1 2).
  - exact empty_storage_healthy.
  - vm_compute. reflexivity.
  - intros x Hx. inversion Hx.
  - split; [vm_compute; reflexivity | vm_compute; discriminate].
  - split; [vm_compute; reflexivity | vm_compute; discriminate].
Defined.

Lemma initializeSampleData_fills_once_witness :
  exists d',
    initializeSampleData
      (table_json
         [take 1 (sample_plans example_ids example_clock);
          take 2 (sample_plans example_ids example_clock);
          sample_plans example_ids example_clock])
      empty_storage example_ids example_clock = Returns d' /\
    map id (sample_plans example_ids example_clock) = ["id15"; "id16"; "id17"].
Proof.
  destruct (initializeSampleData_fills_once
              (table_json
                 [take 1 (sample_plans example_ids example_clock);
                  take 2 (sample_plans example_ids example_clock);
                  sample_plans example_ids example_clock])
              empty_storage [] example_ids example_clock)
    as (d' & Hinit & _).
  - exact empty_storage_healthy.
  - vm_compute. reflexivity.
  - intros n Hn.
    assert (Hcases : n = 1%nat \/ n = 2%nat \/ n = 3%nat) by lia.
    destruct Hcases as [->|[->| ->]];
      (split; [vm_compute; reflexivity | vm_compute; discriminate]).
  - exists d'. split; [exact Hinit|]. vm_compute. reflexivity.
Defined.

Lemma handleSave_outcomes_witness :
  handleSave (table_json []) (fun s => s) (storage_holding "null")
    example_draft "n1" 1 2
  = (AlertSaveFailed, storage_holding "null").
Proof.
  destruct (handleSave_outcomes (table_json []) (fun s => s)
              (storage_holding "null") example_draft "n1" 1 2)
    as (_ & _ & _ & Hfail).
  apply (Hfail ltac:(vm_compute; discriminate) ltac:(discriminate) JsonNull).
  - vm_compute. reflexivity.
  - intros elements. discriminate.
Defined.

Lemma handleSaveEdit_outcomes_witness :
  fst (handleSaveEdit (table_json [[skip_plan]]) (fun s => s)
         (saveWorkouts (table_json [[skip_plan]]) empty_storage
            (map ElemPlan [skip_plan]))
         cue_plan 7)
  = AlertSaveFailed.
Proof.
  destruct (handleSaveEdit_outcomes (table_json [[skip_plan]]) (fun s => s)
              (saveWorkouts (table_json [[skip_plan]]) empty_storage
                 (map ElemPlan [skip_plan]))
              [skip_plan] cue_plan 7) as (_ & _ & Hfail & _).
  - vm_compute. reflexivity.
  - rewrite Hfail; [reflexivity| | |].
    + vm_compute. discriminate.
    + vm_compute. discriminate.
    + intros x Hx. apply list_elem_of_singleton in Hx. subst x.
      vm_compute. discriminate.
Defined.

(** ** Editor: add, remove, move *)

Lemma removeFromItem_set itemId i repetitions children nm :
  removeFromItem itemId (ItemSet i repetitions children nm)
  = ItemSet i repetitions (removeFromItems itemId children) nm.
Proof.
  unfold removeFromItems. simpl. f_equal.
  induction children as [|c cs IH]; [reflexivity|].
  rewrite filter_cons.
  destruct (String.eqb_spec (item_id c) itemId) as [E|E].
  - destruct (decide (item_id c <> itemId)); [contradiction|]. exact IH.
  - destruct (decide (item_id c <> itemId)); [|contradiction].
    simpl. f_equal. exact IH.
Qed.

Lemma removeFromItem_id itemId item :
  item_id (removeFromItem itemId item) = item_id item.
Proof. destruct item; reflexivity. Qed.

Lemma removeFromItems_cons itemId x xs :
  removeFromItems itemId (x :: xs)
  = if decide (item_id x <> itemId)
    then removeFromItem itemId x :: removeFromItems itemId xs
    else removeFromItems itemId xs.
Proof.
  unfold removeFromItems. rewrite filter_cons.
  destruct (decide (item_id x <> itemId)); reflexivity.
Qed.

Lemma passes_sublist {A} (r : Z) (l1 l2 : list A) :
  l1 `sublist_of` l2 -> passes r l1 `sublist_of` passes r l2.
Proof.
  intros H. destruct (Z.le_gt_cases r 0) as [Hr|Hr].
  - rewrite !passes_nonpositive by exact Hr. constructor.
  - rewrite <- (Z2Nat.id r) by lia. rewrite !passes_of_nat.
    induction (Z.to_nat r) as [|n IH]; simpl; [constructor|].
    apply sublist_app; assumption.
Qed.

Lemma removeFromItems_from_items itemId items :
  Forall (removal_facts itemId) items ->
  (itemId ∉ tree_ids (removeFromItems itemId items)) /\
  (tree_ids (removeFromItems itemId items) `sublist_of` tree_ids items) /\
  (flat_map flattenItem (removeFromItems itemId items)
   `sublist_of` flat_map flattenItem items) /\
  (itemId ∉ tree_ids items -> removeFromItems itemId items = items).
Proof.
  induction 1 as [|x xs (Hx1 & Hx2 & Hx3 & Hx4) _ (IH1 & IH2 & IH3 & IH4)].
  - repeat split; try constructor. intros H. inversion H.
  - rewrite removeFromItems_cons.
    destruct (decide (item_id x <> itemId)) as [Hk|Hd].
    + rewrite !tree_ids_cons. cbn [flat_map]. repeat split.
      * rewrite elem_of_app. intros [H|H]; [exact (Hx1 Hk H)|exact (IH1 H)].
      * apply sublist_app; assumption.
      * apply sublist_app; assumption.
      * intros Hnot. rewrite elem_of_app in Hnot. f_equal.
        -- apply Hx4. tauto.
        -- apply IH4. tauto.
    + rewrite tree_ids_cons. cbn [flat_map]. repeat split.
      * exact IH1.
      * apply sublist_inserts_l, IH2.
      * apply sublist_inserts_l, IH3.
      * intros Hnot. exfalso. apply Hnot. apply elem_of_app. left.
        destruct (decide (item_id x = itemId)) as [<-|E]; [|contradiction].
        apply item_id_in_item_ids.
Qed.

Lemma removal_facts_all itemId item : removal_facts itemId item.
Proof.
  induction item as [e|r|i repetitions children nm IH]
    using WorkoutItem_tree_ind.
  - unfold removal_facts. simpl. repeat split; auto.
    intros Hne H. apply list_elem_of_singleton in H. congruence.
  - unfold removal_facts. simpl. repeat split; auto.
    intros Hne H. apply list_elem_of_singleton in H. congruence.
  - destruct (removeFromItems_from_items itemId children IH)
      as (H1 & H2 & H3 & H4).
    unfold removal_facts. rewrite removeFromItem_set.
    cbn [item_id item_ids flattenItem].
    change (flat_map item_ids ?l) with (tree_ids l).
    repeat split.
    + intros Hne H. apply elem_of_cons in H. destruct H as [H|H];
        [congruence|exact (H1 H)].
    + apply sublist_skip, H2.
    + apply passes_sublist, H3.
    + intros Hnot. apply not_elem_of_cons in Hnot. f_equal. apply H4, Hnot.
Qed.

(** X12. [removeFromItems] (the editor's remove button): the removed
    identifier occurs nowhere in the result, at any depth; the result
    keeps the remaining identifiers and the remaining flattened steps in
    their order (a set that is removed takes its children with it);
    removing an identifier that does not occur changes nothing; and
    removing twice is removing once. *)
Theorem removeFromItems_removes (itemId : string) (items : list WorkoutItem) :
  (itemId ∉ tree_ids (removeFromItems itemId items)) /\
  (tree_ids (removeFromItems itemId items) `sublist_of` tree_ids items) /\
  (forall r, flattenWorkout (removeFromItems itemId items) r
             `sublist_of` flattenWorkout items r) /\
  (itemId ∉ tree_ids items -> removeFromItems itemId items = items) /\
  removeFromItems itemId (removeFromItems itemId items)
  = removeFromItems itemId items.
Proof.
  destruct (removeFromItems_from_items itemId items) as (H1 & H2 & H3 & H4).
  { apply Forall_forall. intros x _. apply removal_facts_all. }
  repeat split; auto.
  - intros r. apply passes_sublist, H3.
  - destruct (removeFromItems_from_items itemId (removeFromItems itemId items))
      as (_ & _ & _ & H).
    { apply Forall_forall. intros x _. apply removal_facts_all. }
    apply H, H1.
Qed.

Lemma children_in_set parentId i repetitions children nm :
  children_in parentId (ItemSet i repetitions children nm)
  = if String.eqb i parentId then Some children
    else children_of parentId children.
Proof.
  simpl. destruct (String.eqb i parentId); [reflexivity|].
  induction children as [|c cs IH]; [reflexivity|].
  simpl. destruct (children_in parentId c); [reflexivity|exact IH].
Qed.

Lemma set_ids_cons x xs : set_ids (x :: xs) = set_ids_of x ++ set_ids xs.
Proof. reflexivity. Qed.

Lemma addToParent_from_items parentId newItem items :
  Forall (adding_facts parentId newItem) items ->
  (parentId ∉ set_ids items ->
   addToParent items parentId newItem = items /\
   children_of parentId items = None) /\
  (parentId ∈ set_ids items ->
   children_of parentId (addToParent items parentId newItem)
   = (fun children => children ++ [newItem]) <$> children_of parentId items /\
   is_Some (children_of parentId items)) /\
  (parentId ∈ set_ids items -> NoDup (set_ids items) ->
   tree_ids (addToParent items parentId newItem)
   ≡ₚ tree_ids items ++ item_ids newItem).
Proof.
  unfold addToParent.
  induction 1 as [|x xs (Hx1 & Hx2 & Hx3) _ (IH1 & IH2 & IH3)].
  - split; [|split].
    + intros _. split; reflexivity.
    + intros Hin. inversion Hin.
    + intros Hin. inversion Hin.
  - rewrite set_ids_cons. cbn [map children_of]. rewrite !tree_ids_cons.
    split; [|split].
    + intros Hnot. rewrite elem_of_app in Hnot.
      destruct Hx1 as [E1 E2]; [tauto|]. destruct IH1 as [E3 E4]; [tauto|].
      rewrite E1, E2, E3. auto.
    + intros Hin.
      destruct (decide (parentId ∈ set_ids_of x)) as [Hx|Hx].
      * destruct (Hx2 Hx) as [E [found Hf]]. rewrite E, Hf. simpl. eauto.
      * destruct (Hx1 Hx) as [E1 E2]. rewrite E1, E2.
        apply elem_of_app in Hin. destruct Hin as [Hin|Hin]; [contradiction|].
        exact (IH2 Hin).
    + intros Hin Hnodup. apply NoDup_app in Hnodup.
      destruct Hnodup as (Hn1 & Hdisj & Hn2).
      apply elem_of_app in Hin. destruct Hin as [Hin|Hin].
      * destruct IH1 as [E _]; [exact (Hdisj _ Hin)|]. rewrite E.
        rewrite (Hx3 Hin Hn1). rewrite <- !app_assoc.
        apply Permutation_app_head, Permutation_app_comm.
      * destruct Hx1 as [E _].
        { intros Hx. exact (Hdisj _ Hx Hin). }
        rewrite E, (IH3 Hin Hn2), app_assoc. reflexivity.
Qed.

Lemma adding_facts_all parentId newItem item :
  adding_facts parentId newItem item.
Proof.
  induction item as [e|r|i repetitions children nm IH]
    using WorkoutItem_tree_ind.
  - unfold adding_facts. simpl.
    split; [auto|split; intros Hin; inversion Hin].
  - unfold adding_facts. simpl.
    split; [auto|split; intros Hin; inversion Hin].
  - destruct (addToParent_from_items parentId newItem children IH)
      as (H1 & H2 & H3).
    unfold adding_facts. cbn [set_ids_of addToParentItem item_ids].
    change (flat_map set_ids_of ?l) with (set_ids l).
    change (flat_map item_ids ?l) with (tree_ids l).
    change (map (addToParentItem parentId newItem) children)
      with (addToParent children parentId newItem).
    destruct (String.eqb_spec i parentId) as [->|Hne].
    + rewrite !children_in_set, String.eqb_refl.
      split; [|split].
      * intros Hnot. exfalso. apply Hnot, list_elem_of_here.
      * intros _. simpl. eauto.
      * intros _ _. cbn [item_ids].
        change (flat_map item_ids ?l) with (tree_ids l).
        rewrite tree_ids_app. unfold tree_ids at 3. simpl.
        rewrite app_nil_r. reflexivity.
    + rewrite !children_in_set.
      assert (Heqb : String.eqb i parentId = false)
        by (apply String.eqb_neq; exact Hne).
      rewrite Heqb. split; [|split].
      * intros Hnot. apply not_elem_of_cons in Hnot.
        destruct H1 as [E1 E2]; [tauto|]. rewrite E1. auto.
      * intros Hin. apply elem_of_cons in Hin.
        destruct Hin as [Hin|Hin]; [congruence|]. exact (H2 Hin).
      * intros Hin Hnodup. apply elem_of_cons in Hin.
        destruct Hin as [Hin|Hin]; [congruence|].
        apply NoDup_cons in Hnodup. cbn [item_ids].
        change (flat_map item_ids ?l) with (tree_ids l).
        simpl. constructor. apply H3; tauto.
Qed.

(** X13. [addToParent] (adding an item inside a set): when no set of
    the tree has the parent identifier the tree is returned as it is and
    the new item is dropped; when one has, the first such set gets the
    new item as its last child; and when the identifiers of the sets are
    distinct, the tree gains the identifiers of the new item once and
    nothing else. *)
Theorem addToParent_appends (items : list WorkoutItem) (parentId : string)
    (newItem : WorkoutItem) :
  (parentId ∉ set_ids items ->
   addToParent items parentId newItem = items) /\
  (parentId ∈ set_ids items ->
   exists children,
     children_of parentId items = Some children /\
     children_of parentId (addToParent items parentId newItem)
     = Some (children ++ [newItem])) /\
  (parentId ∈ set_ids items -> NoDup (set_ids items) ->
   tree_ids (addToParent items parentId newItem)
   ≡ₚ tree_ids items ++ item_ids newItem).
Proof.
  destruct (addToParent_from_items parentId newItem items) as (H1 & H2 & H3).
  { apply Forall_forall. intros x _. apply adding_facts_all. }
  split; [|split].
  - intros H. apply H1, H.
  - intros H. destruct (H2 H) as [E [children Hc]].
    exists children. rewrite E, Hc. auto.
  - exact H3.
Qed.

Lemma sum_durations_app xs ys :
  sum_durations (xs ++ ys) = sum_durations xs + sum_durations ys.
Proof.
  induction xs as [|x xs IH]; [reflexivity|].
  simpl. rewrite !sum_durations_cons, IH. lia.
Qed.

Lemma sum_durations_passes r pass :
  sum_durations (passes r pass) = Z.max 0 r * sum_durations pass.
Proof.
  destruct (Z.le_gt_cases r 0) as [H|H].
  - rewrite passes_nonpositive by exact H.
    rewrite Z.max_l by exact H. reflexivity.
  - rewrite Z.max_r by lia. rewrite <- (Z2Nat.id r) by lia.
    rewrite passes_of_nat.
    induction (Z.to_nat r) as [|n IH]; [reflexivity|].
    change (mjoin (replicate (S n) pass))
      with (pass ++ mjoin (replicate n pass)).
    rewrite sum_durations_app, IH. lia.
Qed.

Lemma length_passes {A} r (pass : list A) :
  Z.of_nat (length (passes r pass)) = Z.max 0 r * Z.of_nat (length pass).
Proof.
  destruct (Z.le_gt_cases r 0) as [H|H].
  - rewrite passes_nonpositive by exact H.
    rewrite Z.max_l by exact H. reflexivity.
  - rewrite Z.max_r by lia. rewrite <- (Z2Nat.id r) by lia.
    rewrite passes_of_nat.
    induction (Z.to_nat r) as [|n IH]; [reflexivity|].
    change (mjoin (replicate (S n) pass))
      with (pass ++ mjoin (replicate n pass)).
    rewrite length_app. lia.
Qed.

Lemma flat_map_totals items :
  Forall (fun item =>
            sum_durations (flattenItem item) = item_time item /\
            Z.of_nat (length (flattenItem item)) = item_steps item) items ->
  sum_durations (flat_map flattenItem items) = tree_time items /\
  Z.of_nat (length (flat_map flattenItem items)) = tree_steps items.
Proof.
  unfold tree_time, tree_steps.
  induction 1 as [|x xs [Hx1 Hx2] _ [IH1 IH2]]; [split; reflexivity|].
  cbn [flat_map map fold_right].
  rewrite sum_durations_app, length_app. lia.
Qed.

Lemma flattenItem_totals item :
  sum_durations (flattenItem item) = item_time item /\
  Z.of_nat (length (flattenItem item)) = item_steps item.
Proof.
  induction item as [e|r|i repetitions children nm IH]
    using WorkoutItem_tree_ind.
  - split; [|reflexivity]. simpl. rewrite sum_durations_cons. simpl.
    unfold sum_durations. simpl. lia.
  - split; [|reflexivity]. simpl. rewrite sum_durations_cons. simpl.
    unfold sum_durations. simpl. lia.
  - destruct (flat_map_totals children IH) as [H1 H2].
    cbn [flattenItem item_time item_steps].
    rewrite sum_durations_passes, length_passes.
    unfold tree_time, tree_steps in *. rewrite H1, H2. auto.
Qed.

(** X14. The totals follow the tree: [calculateTotalTime] is warm-up
    plus cool-down plus the time of the items, where an exercise or a
    rest counts its duration and a set counts its children's time once
    per repetition (not at all for a repetition count of zero or less);
    [countIntervals] counts steps the same way, plus one for a positive
    warm-up and one for a positive cool-down. *)
Theorem totals_by_tree (workout : WorkoutPlan) :
  calculateTotalTime workout
  = warmupTime workout + tree_time (items workout) + cooldownTime workout /\
  countIntervals workout
  = tree_steps (items workout)
    + (if 0 <? warmupTime workout then 1 else 0)
    + (if 0 <? cooldownTime workout then 1 else 0).
Proof.
  destruct (flat_map_totals (items workout)) as [H1 H2].
  { apply Forall_forall. intros x _. apply flattenItem_totals. }
  unfold calculateTotalTime, countIntervals.
  rewrite flattenWorkout_one, H1, H2.
  split; [reflexivity|].
  destruct (0 <? warmupTime workout), (0 <? cooldownTime workout); lia.
Qed.

Lemma passes_perm {A} r (xs ys : list A) :
  xs ≡ₚ ys -> passes r xs ≡ₚ passes r ys.
Proof.
  intros H. destruct (Z.le_gt_cases r 0) as [Hr|Hr].
  - rewrite !passes_nonpositive by exact Hr. reflexivity.
  - rewrite <- (Z2Nat.id r) by lia. rewrite !passes_of_nat.
    induction (Z.to_nat r) as [|n IH]; [reflexivity|].
    change (mjoin (replicate (S n) ?l))
      with (l ++ mjoin (replicate n l)).
    rewrite IH. apply Permutation_app_tail, H.
Qed.

Lemma sibling_move_flat itemId dir xs ys :
  sibling_move itemId dir xs ys ->
  flat_map flattenItem ys ≡ₚ flat_map flattenItem xs.
Proof.
  induction 1; try reflexivity.
  - rewrite !flat_map_app. cbn [flat_map].
    rewrite !app_assoc. apply Permutation_app_tail.
    rewrite <- !app_assoc. apply Permutation_app_head, Permutation_app_comm.
  - rewrite !flat_map_app. cbn [flat_map].
    rewrite !app_assoc. apply Permutation_app_tail.
    rewrite <- !app_assoc. apply Permutation_app_head, Permutation_app_comm.
  - rewrite !flat_map_app. cbn [flat_map flattenItem].
    apply Permutation_app_head, Permutation_app_tail, passes_perm.
    assumption.
Qed.

Lemma flat_map_perm_each (f : WorkoutItem -> WorkoutItem) items :
  Forall (fun item => flattenItem (f item) ≡ₚ flattenItem item) items ->
  flat_map flattenItem (map f items) ≡ₚ flat_map flattenItem items.
Proof.
  induction 1 as [|x xs Hx _ IH]; [reflexivity|].
  cbn [map flat_map]. rewrite Hx, IH. reflexivity.
Qed.

Lemma moveInItems_flat_from itemId dir items :
  Forall (fun item => flattenItem (moveInItem itemId dir item)
                      ≡ₚ flattenItem item) items ->
  flat_map flattenItem (moveInItems itemId dir items)
  ≡ₚ flat_map flattenItem items.
Proof.
  intros Hall. unfold moveInItems.
  destruct (findIndex itemId items) as [index|] eqn:E.
  - apply findIndex_Some in E. destruct E as (pre & x & post & -> & <- & Hid).
    eapply sibling_move_flat, move_at_sibling_move, Hid.
  - apply flat_map_perm_each, Hall.
Qed.

Lemma moveInItem_flat itemId dir item :
  flattenItem (moveInItem itemId dir item) ≡ₚ flattenItem item.
Proof.
  induction item as [e|r|i repetitions children nm IH]
    using WorkoutItem_tree_ind; try reflexivity.
  rewrite moveInItem_set. cbn [flattenItem].
  apply passes_perm, moveInItems_flat_from, IH.
Qed.

Lemma sum_durations_perm xs ys :
  xs ≡ₚ ys -> sum_durations xs = sum_durations ys.
Proof.
  induction 1 as [|x xs ys _ IH|x y xs|xs ys zs _ IH1 _ IH2].
  - reflexivity.
  - rewrite !sum_durations_cons, IH. reflexivity.
  - rewrite !sum_durations_cons. lia.
  - congruence.
Qed.

(** X15. Moving an item up or down ([moveInItems], for any identifier,
    present or not) only reorders the flattened steps: the steps of the
    moved plan are a permutation of the steps before, for every
    repetition count, so [calculateTotalTime] and [countIntervals] are
    unchanged. *)
Theorem moveInItems_keeps_steps (itemId : string) (direction : Direction)
    (workout : WorkoutPlan) :
  let moved :=
    with_items workout (moveInItems itemId direction (items workout)) in
  (forall r, flattenWorkout (items moved) r
             ≡ₚ flattenWorkout (items workout) r) /\
  calculateTotalTime moved = calculateTotalTime workout /\
  countIntervals moved = countIntervals workout.
Proof.
  assert (H : flat_map flattenItem
                (moveInItems itemId direction (items workout))
              ≡ₚ flat_map flattenItem (items workout)).
  { apply moveInItems_flat_from, Forall_forall.
    intros x _. apply moveInItem_flat. }
  destruct workout as [i n d w c its ca ua].
  intros moved. subst moved. unfold with_items.
  cbn [id name description warmupTime cooldownTime items createdAt
       updatedAt] in *.
  split; [|split].
  - intros r. apply passes_perm, H.
  - unfold calculateTotalTime. cbn [items warmupTime cooldownTime].
    rewrite !flattenWorkout_one. rewrite (sum_durations_perm _ _ H).
    reflexivity.
  - unfold countIntervals. cbn [items warmupTime cooldownTime].
    rewrite !flattenWorkout_one. rewrite (Permutation_length H).
    reflexivity.
Qed.

Lemma flatten_totals items :
  sum_durations (flat_map flattenItem items) = tree_time items /\
  Z.of_nat (length (flat_map flattenItem items)) = tree_steps items.
Proof.
  apply flat_map_totals, Forall_forall. intros x _. apply flattenItem_totals.
Qed.

Lemma addItem_top_level (workout : WorkoutPlan) (parentId : option string)
    (newItem : WorkoutItem) :
  truthy parentId = false ->
  let added :=
    with_items workout (addItem parentId newItem (items workout)) in
  items added = items workout ++ [newItem] /\
  calculateTotalTime added = calculateTotalTime workout + item_time newItem /\
  countIntervals added = countIntervals workout + item_steps newItem.
Proof.
  intros Hp added. subst added. unfold addItem. rewrite Hp.
  destruct workout as [i n d w c its ca ua]. unfold with_items.
  cbn [id name description warmupTime cooldownTime items createdAt updatedAt].
  split; [reflexivity|].
  unfold calculateTotalTime, countIntervals.
  cbn [items warmupTime cooldownTime].
  rewrite !flattenWorkout_one, flat_map_app, sum_durations_app, length_app.
  cbn [flat_map]. rewrite app_nil_r.
  destruct (flattenItem_totals newItem) as [H1 H2].
  rewrite H1, Nat2Z.inj_add, H2.
  split; [lia|].
  destruct (0 <? w), (0 <? c); lia.
Qed.

(** X16. Adding at the top level (no parent identifier, or the empty
    one): [addExercise] and [addRest] put the new item last, lengthen
    [calculateTotalTime] by its duration and add one to
    [countIntervals]; [addSet] puts an empty set last and changes
    neither total. *)
Theorem add_top_level_totals (workout : WorkoutPlan)
    (parentId : option string) (type : ExerciseType)
    (intensity : IntensityLevel) (duration0 repetitions : Z)
    (newId : string) :
  truthy parentId = false ->
  let withExercise :=
    with_items workout
      (addExercise type intensity duration0 parentId newId (items workout)) in
  let withRest :=
    with_items workout (addRest duration0 parentId newId (items workout)) in
  let withSet :=
    with_items workout (addSet repetitions parentId newId (items workout)) in
  (items withExercise
   = items workout
     ++ [ItemExercise (mkExercise newId type duration0 (Some intensity) None)]
   /\ calculateTotalTime withExercise = calculateTotalTime workout + duration0
   /\ countIntervals withExercise = countIntervals workout + 1) /\
  (items withRest = items workout ++ [ItemRest (mkRest newId duration0 None)]
   /\ calculateTotalTime withRest = calculateTotalTime workout + duration0
   /\ countIntervals withRest = countIntervals workout + 1) /\
  (items withSet = items workout ++ [ItemSet newId repetitions [] None]
   /\ calculateTotalTime withSet = calculateTotalTime workout
   /\ countIntervals withSet = countIntervals workout).
Proof.
  intros Hp withExercise withRest withSet.
  subst withExercise withRest withSet. unfold addExercise, addRest, addSet.
  split; [|split].
  - apply (addItem_top_level workout parentId
             (ItemExercise
                (mkExercise newId type duration0 (Some intensity) None)) Hp).
  - apply (addItem_top_level workout parentId
             (ItemRest (mkRest newId duration0 None)) Hp).
  - destruct (addItem_top_level workout parentId
                (ItemSet newId repetitions [] None) Hp) as (H1 & H2 & H3).
    cbn [item_time item_steps map fold_right] in H2, H3.
    rewrite Z.mul_0_r, Z.add_0_r in H2, H3. auto.
Qed.

Lemma add_top_level_totals_witness :
  calculateTotalTime
    (with_items skip_plan
       (addExercise walking low 20 None "w" (items skip_plan)))
  = calculateTotalTime skip_plan + 20.
Proof.
  apply (add_top_level_totals skip_plan None walking low 20 3 "w").
  reflexivity.
Defined.

(** ** Timelines and intensity *)

Lemma contiguous_snoc t tl e :
  contiguous t tl ->
  startTime e = t + fold_right Z.add 0 (map te_duration tl) ->
  endTime e = startTime e + te_duration e ->
  contiguous t (tl ++ [e]).
Proof.
  revert t. induction tl as [|x xs IH]; intros t; simpl.
  - intros _ Hs He. rewrite Hs in *. repeat split; lia.
  - intros (H1 & H2 & H3) Hs He. repeat split; try assumption.
    apply IH; [assumption| |assumption]. lia.
Qed.

Lemma fold_push_step_chain xs : forall tl t,
  contiguous 0 tl ->
  t = fold_right Z.add 0 (map te_duration tl) ->
  let result := fold_left push_step xs (tl, t) in
  contiguous 0 (fst result) /\
  snd result = fold_right Z.add 0 (map te_duration (fst result)) /\
  map te_duration (fst result) = map te_duration tl ++ map duration xs.
Proof.
  induction xs as [|x xs IH]; intros tl t Hc Ht.
  - simpl. rewrite app_nil_r. auto.
  - cbn [fold_left push_step].
    set (e := mkTimerExercise _ _ _ _ _ _ _).
    destruct (IH (tl ++ [e]) (t + duration x)) as (H1 & H2 & H3).
    + apply contiguous_snoc; [assumption|simpl; lia|reflexivity].
    + rewrite map_app, fold_right_app. simpl.
      rewrite Ht. clear.
      induction (map te_duration tl) as [|y ys IHys]; simpl; lia.
    + cbv zeta. split; [exact H1|]. split; [exact H2|].
      rewrite H3, map_app, <- app_assoc. reflexivity.
Qed.

Lemma fold_spans xs : forall tl vl t,
  map timer_span tl = map view_span vl ->
  map timer_span (fst (fold_left push_step xs (tl, t)))
  = map view_span (fst (fold_left view_push_step xs (vl, t))) /\
  snd (fold_left push_step xs (tl, t))
  = snd (fold_left view_push_step xs (vl, t)).
Proof.
  induction xs as [|x xs IH]; intros tl vl t H.
  - simpl. auto.
  - cbn [fold_left push_step view_push_step]. apply IH.
    rewrite !map_app, H. reflexivity.
Qed.

(** X17. The playback timeline starts at 0 and has no gap and no
    overlap: each entry ends at its start plus its duration and the
    next entry starts where it ends; its durations are the warm-up (if
    positive), the flattened steps in order, and the cool-down (if
    positive); and the view page's chart has the same entries with the
    same identifiers, start and end times. *)
Theorem timelines_contiguous (workout : WorkoutPlan) :
  contiguous 0 (completeTimeline workout) /\
  map te_duration (completeTimeline workout) = played_durations workout /\
  map view_span (timelineData workout)
  = map timer_span (completeTimeline workout).
Proof.
  unfold completeTimeline, timelineData, played_durations.
  unfold push_warmup, view_push_warmup. cbv zeta.
  set (xs := flattenWorkout (items workout) 1).
  destruct (0 <? warmupTime workout).
  - set (w := mkTimerExercise _ _ _ _ _ _ _).
    set (v := mkTimelineEntry _ _ _ _ _ _ _ _ _).
    destruct (fold_push_step_chain xs ([] ++ [w]) (0 + warmupTime workout))
      as (H1 & H2 & H3).
    { simpl. repeat split; lia. }
    { simpl. lia. }
    destruct (fold_spans xs ([] ++ [w]) ([] ++ [v]) (0 + warmupTime workout))
      as [H4 H5]; [reflexivity|].
    cbv zeta in H1, H2, H3.
    destruct (fold_left push_step xs _) as [tl t].
    destruct (fold_left view_push_step xs _) as [vl t'].
    cbn [fst snd] in *. subst t'.
    unfold push_cooldown, view_push_cooldown.
    destruct (0 <? cooldownTime workout); cbn [fst].
    + split; [|split].
      * apply contiguous_snoc; [assumption|simpl; lia|reflexivity].
      * rewrite map_app, H3. simpl. reflexivity.
      * rewrite !map_app, H4. reflexivity.
    + rewrite app_nil_r. auto.
  - destruct (fold_push_step_chain xs [] 0) as (H1 & H2 & H3);
      [exact I|reflexivity|].
    destruct (fold_spans xs [] [] 0) as [H4 H5]; [reflexivity|].
    cbv zeta in H1, H2, H3.
    destruct (fold_left push_step xs _) as [tl t].
    destruct (fold_left view_push_step xs _) as [vl t'].
    cbn [fst snd] in *. subst t'.
    unfold push_cooldown, view_push_cooldown.
    destruct (0 <? cooldownTime workout); cbn [fst].
    + split; [|split].
      * apply contiguous_snoc; [assumption|simpl; lia|reflexivity].
      * rewrite map_app, H3. simpl. reflexivity.
      * rewrite !map_app, H4. reflexivity.
    + rewrite app_nil_r. auto.
Qed.

(** ** Intensity of the chart's bars *)
Lemma calculateFinalIntensity_range type level :
  1 <= calculateFinalIntensity type level <= 5.
Proof.
  unfold calculateFinalIntensity.
  repeat match goal with
         | |- context [String.eqb ?a ?b] => destruct (String.eqb a b)
         end; lia.
Qed.

Lemma fold_view_intensity xs : forall vl t,
  Forall (fun e => 1 <= tl_finalIntensity e <= 5) vl ->
  Forall (fun e => 1 <= tl_finalIntensity e <= 5)
         (fst (fold_left view_push_step xs (vl, t))).
Proof.
  induction xs as [|x xs IH]; intros vl t H; [exact H|].
  cbn [fold_left view_push_step]. apply IH.
  apply Forall_app. split; [exact H|].
  constructor; [|constructor]. apply calculateFinalIntensity_range.
Qed.

(** X18. Every bar of the view page's chart has a final intensity
    between 1 and 5, whatever type and intensity strings the stored
    steps carry. *)
Theorem timelineData_intensity_range (workout : WorkoutPlan) :
  Forall (fun e => 1 <= tl_finalIntensity e <= 5) (timelineData workout).
Proof.
  unfold timelineData. cbv zeta.
  assert (Hw : Forall (fun e => 1 <= tl_finalIntensity e <= 5)
                 (fst (view_push_warmup workout ([], 0)))).
  { unfold view_push_warmup. destruct (0 <? warmupTime workout); simpl.
    - constructor; [simpl; unfold getWarmupCooldownIntensity; lia|constructor].
    - constructor. }
  destruct (view_push_warmup workout ([], 0)) as [vl t]. cbn [fst] in Hw.
  pose proof (fold_view_intensity (flattenWorkout (items workout) 1) vl t Hw)
    as H.
  destruct (fold_left view_push_step _ (vl, t)) as [vl' t']. cbn [fst] in H.
  unfold view_push_cooldown. destruct (0 <? cooldownTime workout); cbn [fst].
  - apply Forall_app. split; [exact H|].
    constructor; [simpl; unfold getWarmupCooldownIntensity; lia|constructor].
  - exact H.
Qed.

(** X19. The labels of the editor's intensity select are the labels
    [getIntensityLabel] shows elsewhere for the same type and level; the
    select lists low, medium, high, in the order of increasing final
    intensity; running is more intense than walking at every level; and
    any intensity string other than low and high is labelled as
    medium. *)
Theorem intensity_labels_agree (type : ExerciseType) :
  map fst (intensityOptions type) = [low; medium; high] /\
  Forall (fun option =>
            getIntensityLabel (type_tag type) (level_tag (fst option))
            = snd option)
         (intensityOptions type) /\
  (calculateFinalIntensity (type_tag type) (Some (level_tag low))
   < calculateFinalIntensity (type_tag type) (Some (level_tag medium))
   < calculateFinalIntensity (type_tag type) (Some (level_tag high))) /\
  (forall level,
      calculateFinalIntensity (type_tag walking) (Some (level_tag level))
      < calculateFinalIntensity (type_tag running) (Some (level_tag level))) /\
  (forall intensity,
      intensity <> "low" -> intensity <> "high" ->
      getIntensityLabel (type_tag type) intensity
      = getIntensityLabel (type_tag type) (level_tag medium)).
Proof.
  split; [destruct type; reflexivity|].
  split; [destruct type; repeat constructor|].
  split; [destruct type; vm_compute; split; reflexivity|].
  split; [intros []; vm_compute; reflexivity|].
  intros intensity Hl Hh. apply String.eqb_neq in Hl, Hh.
  destruct type; unfold getIntensityLabel; simpl; rewrite Hl, Hh; reflexivity.
Qed.

(** ** Playback: countdowns, transitions, stop *)

(** X20. In every state the page can reach, the playback interval is
    installed exactly while the state is running and the countdown
    interval exactly during a countdown, so the two are never live
    together and none is left behind in the ready, paused and completed
    states; outside ready and completed the current step exists. *)
Theorem timers_exclusive (workout : WorkoutPlan) (s : Playback) :
  reachable workout s ->
  (is_Some (intervalRef s) <-> timerState s = ts_running) /\
  (is_Some (countdownIntervalRef s) <->
   timerState s = ts_countdown_start \/
   timerState s = ts_countdown_transition) /\
  (timerState s <> ts_ready -> timerState s <> ts_completed ->
   is_Some (timeline workout !! currentExerciseIndex s)).
Proof.
  intros Hreach.
  destruct (reachable_inv workout s Hreach) as [(_ & _ & Hst) _].
  destruct (timerState s); open_hypotheses;
    repeat match goal with
           | H : _ = _ |- _ => rewrite H
           end.
  all: repeat split; intros; try congruence; eauto.
  all: try match goal with
           | H : is_Some None |- _ => destruct H; discriminate
           | H : _ \/ _ |- _ => destruct H; discriminate
           end.
  all: try (apply lookup_lt_is_Some; lia).
Qed.

Lemma reset_statuses_initial {B} (sts : list (option ExerciseStatus))
    (l : list B) :
  length sts = length l ->
  (forall i, (i < length l)%nat -> is_Some (js_get sts i)) ->
  imap (fun index cell => reset_status index <$> cell) sts
  = imap (fun index x => Some (reset_status index x)) l.
Proof.
  intros Hlen Hall. apply list_eq. intros i.
  rewrite !list_lookup_imap.
  destruct (Nat.lt_ge_cases i (length l)) as [Hi|Hi].
  - destruct (Hall i Hi) as [x Hx]. unfold js_get in Hx.
    destruct (sts !! i) as [cell|] eqn:E; [|discriminate].
    destruct (lookup_lt_is_Some_2 l i Hi) as [y ->].
    simpl. subst cell. reflexivity.
  - rewrite (lookup_ge_None_2 sts) by lia.
    rewrite (lookup_ge_None_2 l) by lia. reflexivity.
Qed.

(** X21. A confirmed stop, and the restart button of the completed
    view, bring a reachable page back to what it showed after loading:
    state ready, step 0, total and step elapsed time 0, the remaining
    time and the status array of the initial state, the dialog closed
    and no interval left.  (The recorded elapsed times become the empty
    array, not the zeros of the initial state.) *)
Theorem stop_restores_initial_display (workout : WorkoutPlan) (a : Action)
    (now : Z) (s : Playback) :
  reachable workout s ->
  a = ClickConfirmStop \/ (a = ClickStop /\ timerState s = ts_completed) ->
  enabled workout a s = true ->
  exists s', step workout a now s = Some s' /\ stopped workout s'.
Proof.
  intros Hreach Ha Hen.
  destruct (reachable_inv workout s Hreach) as [(Hlen & Hfill & Hst) _].
  rewrite (step_enabled workout a now s Hen).
  eexists. split; [reflexivity|].
  pose proof (reset_statuses_initial (exerciseStatuses s) (timeline workout)
                Hlen Hfill) as Hreset.
  unfold stopped, init, useState_defaults.
  destruct_playback s.
  cbn [timerState exerciseStatuses currentExerciseIndex intervalRef
       countdownIntervalRef nextExerciseIndex] in *.
  destruct Ha as [->|[-> ->]].
  - unfold enabled in Hen. cbn [timerState showStopConfirm] in Hen.
    destruct st; try discriminate; open_hypotheses; subst;
      reduce_goal;
      repeat first [ rewrite Nat.eqb_refl; reduce_goal
                   | split_condition; reduce_goal ];
      rewrite ?Hreset; repeat split; try reflexivity; try congruence.
  - open_hypotheses; subst. reduce_goal.
    repeat first [ rewrite Nat.eqb_refl; reduce_goal
                 | split_condition; reduce_goal ];
      rewrite ?Hreset; repeat split; try reflexivity; try congruence.
Qed.

(** ** Countdown ticks *)
Lemma countdown_continues workout s c now :
  countdownIntervalRef s = Some c ->
  1 < countdownValue s ->
  step workout CountdownTick now s
  = Some (set_countdownValue (countdownValue s - 1) (playBeep 800 200 s)).
Proof.
  intros Hc Hv. rewrite step_enabled.
  - destruct_playback s.
    cbn [countdownIntervalRef countdownValue] in *. subst cR.
    reduce_goal.
    destruct (Z.ltb_spec 0 (cdv - 1)); [|lia].
    destruct (Z.leb_spec (cdv - 1) 0); [lia|].
    reduce_goal. rewrite Nat.eqb_refl.
    destruct st; reflexivity.
  - unfold enabled. rewrite Hc.
    destruct (timerState s); reflexivity.
Qed.

Lemma countdown_ends_start workout s c ex now :
  timerState s = ts_countdown_start ->
  countdownIntervalRef s = Some c -> cd_type c = cd_start ->
  countdownValue s = 1 ->
  timeline workout !! currentExerciseIndex s = Some ex ->
  step workout CountdownTick now s
  = Some (set_intervalRef
            (Some (mkTick (currentExerciseIndex s) (totalElapsedTime s)))
            (set_countdownValue 0
               (set_timerState ts_running
                  (set_currentExerciseElapsed 0
                     (set_pausedTimeRef 0
                        (set_currentExerciseStartRef now
                           (set_startTimeRef now
                              (set_countdownIntervalRef None
                                 (playBeep 1000 400 s))))))))).
Proof.
  intros Hst Hc Hty Hv Hex. rewrite step_enabled.
  - destruct_playback s. destruct c as [ty tg cap].
    cbn [countdownIntervalRef countdownValue timerState cd_type
         currentExerciseIndex totalElapsedTime] in *.
    subst. reduce_goal.
    change (1 - 1) with 0. change (0 <? 0) with false.
    change (0 <=? 0) with true. reduce_goal.
    rewrite Nat.eqb_refl. reduce_goal.
    rewrite Hex. reflexivity.
  - unfold enabled. rewrite Hc. reflexivity.
Qed.

Lemma countdown_ends_transition workout s cap ex now :
  timerState s = ts_countdown_transition ->
  countdownIntervalRef s
  = Some (mkCountdown cd_transition
            (Some (currentExerciseIndex s + 1)%nat) cap) ->
  countdownValue s = 1 ->
  timeline workout !! (currentExerciseIndex s + 1)%nat = Some ex ->
  step workout CountdownTick now s
  = Some (set_currentExerciseStartRef now
            (set_remainingTime (te_duration ex)
               (set_intervalRef
                  (Some (mkTick (currentExerciseIndex s + 1)
                           (totalElapsedTime s)))
                  (set_countdownValue 0
                     (set_timerState ts_running
                        (set_currentExerciseElapsed 0
                           (set_pausedTimeRef cap
                              (set_currentExerciseStartRef now
                                 (set_startTimeRef now
                                    (set_currentExerciseIndex
                                       (currentExerciseIndex s + 1)
                                       (set_countdownIntervalRef None
                                          (playBeep 1000 400 s)))))))))))).
Proof.
  intros Hst Hc Hv Hex. rewrite step_enabled.
  - destruct_playback s.
    cbn [countdownIntervalRef countdownValue timerState
         currentExerciseIndex totalElapsedTime] in *.
    subst. reduce_goal.
    change (1 - 1) with 0. change (0 <? 0) with false.
    change (0 <=? 0) with true. reduce_goal.
    destruct (Nat.eqb_spec idx (idx + 1)); [lia|].
    reduce_goal. rewrite Hex. reflexivity.
  - unfold enabled. rewrite Hc. reflexivity.
Qed.

(** ** The tick that ends a step *)
Lemma tick_ends_step workout s k ex now :
  timerState s = ts_running ->
  intervalRef s = Some k ->
  tick_currentExerciseIndex k = currentExerciseIndex s ->
  timeline workout !! currentExerciseIndex s = Some ex ->
  remaining_at (te_duration ex) (currentExerciseStartRef s) now <= 0 ->
  let shown :=
    set_exerciseStatuses
      (advance_statuses es_completed (currentExerciseIndex s)
         (exerciseStatuses s))
      (set_remainingTime 0
         (set_currentExerciseElapsed
            ((now - currentExerciseStartRef s) / 1000)
            (set_totalElapsedTime
               ((now - startTimeRef s) / 1000 + pausedTimeRef s) s))) in
  step workout PlaybackTick now s
  = Some
      (if Z.of_nat (currentExerciseIndex s)
          <? Z.of_nat (length (timeline workout)) - 1
       then set_countdownIntervalRef
              (Some (mkCountdown cd_transition
                       (Some (currentExerciseIndex s + 1)%nat)
                       (tick_totalElapsedTime k)))
              (set_nextExerciseIndex (currentExerciseIndex s + 1)
                 (set_timerState ts_countdown_transition
                    (set_countdownValue 3 (set_intervalRef None shown))))
       else set_intervalRef None (set_timerState ts_completed shown)).
Proof.
  intros Hst Hk Hidx Hex Hrem. rewrite step_enabled.
  - destruct_playback s. destruct k as [kidx ktot].
    unfold remaining_at in Hrem.
    cbn [intervalRef currentExerciseIndex tick_currentExerciseIndex timerState
         currentExerciseStartRef tick_totalElapsedTime] in *.
    subst st iR kidx. reduce_goal. rewrite Hex. reduce_goal.
    assert (Hn : is_threshold
                   (te_duration ex - (now - ceR) / 1000) = false).
    { unfold is_threshold.
      repeat match goal with
             | |- context [(?a =? ?b)%Z] => destruct (Z.eqb_spec a b); [lia|]
             end. reflexivity. }
    rewrite Hn.
    destruct (Z.leb_spec (te_duration ex - (now - ceR) / 1000) 0); [|lia].
    rewrite Z.max_l by lia.
    destruct (Z.ltb_spec (Z.of_nat idx)
                (Z.of_nat (length (timeline workout)) - 1));
      reduce_goal; rewrite Nat.eqb_refl; reflexivity.
  - unfold enabled. rewrite Hk. destruct (timerState s); reflexivity.
Qed.

Lemma start_effect workout s ex now :
  timerState s = ts_ready ->
  timeline workout !! currentExerciseIndex s = Some ex ->
  step workout ClickStart now s
  = Some (set_intervalRef None
            (set_countdownIntervalRef
               (Some (mkCountdown cd_start None (totalElapsedTime s)))
               (set_timerState ts_countdown_start
                  (set_countdownValue 5 s)))).
Proof.
  intros Hst Hex. rewrite step_enabled.
  - destruct_playback s. cbn [timerState currentExerciseIndex] in *. subst.
    reduce_goal. rewrite Nat.eqb_refl. reflexivity.
  - unfold enabled. rewrite Hst. eapply enabled_on_step, Hex.
Qed.

(** X22. When a tick finds no time left on the last step, the page
    completes: the state is completed and the completed view is shown,
    the remaining time is 0, every step is completed or skipped, both
    intervals are gone, and stop (shown as restart) is the only action
    left. *)
Theorem last_tick_completes (workout : WorkoutPlan) (s : Playback)
    (ex : TimerExercise) (now : Z) :
  reachable workout s -> timerState s = ts_running ->
  timeline workout !! currentExerciseIndex s = Some ex ->
  (currentExerciseIndex s + 1 = length (timeline workout))%nat ->
  remaining_at (te_duration ex) (currentExerciseStartRef s) now <= 0 ->
  exists s',
    step workout PlaybackTick now s = Some s' /\
    timerState s' = ts_completed /\
    view_of s' = CompletedView /\
    remainingTime s' = 0 /\
    (forall i, (i < length (timeline workout))%nat ->
       js_get (exerciseStatuses s') i = Some es_completed \/
       js_get (exerciseStatuses s') i = Some es_skipped) /\
    intervalRef s' = None /\ countdownIntervalRef s' = None /\
    (forall a, enabled workout a s' = true -> a = ClickStop).
Proof.
  intros Hreach Hrun Hex Hlast Hrem.
  destruct (reachable_inv workout s Hreach) as [(Hlen & _ & Hst) _].
  rewrite Hrun in Hst. destruct Hst as (Hidx & (k & Hk & Hkidx) & Hcd & Hshape).
  pose proof (tick_ends_step workout s k ex now Hrun Hk Hkidx Hex Hrem)
    as Hstep.
  cbv zeta in Hstep.
  destruct (Z.ltb_spec (Z.of_nat (currentExerciseIndex s))
              (Z.of_nat (length (timeline workout)) - 1)) as [Hlt|_];
    [lia|].
  eexists. split; [exact Hstep|].
  assert (Hdone : forall i, (i < length (timeline workout))%nat ->
            js_get (advance_statuses es_completed (currentExerciseIndex s)
                      (exerciseStatuses s)) i = Some es_completed \/
            js_get (advance_statuses es_completed (currentExerciseIndex s)
                      (exerciseStatuses s)) i = Some es_skipped).
  { intros i Hi. rewrite advance_statuses_get by lia.
    destruct Hshape as (_ & Hbefore & _).
    repeat case_decide; auto; try lia. apply Hbefore. lia. }
  clear Hstep. destruct_playback s.
  cbn [timerState currentExerciseIndex exerciseStatuses intervalRef
       countdownIntervalRef] in *.
  subst. unfold view_of. reduce_goal.
  repeat split; try reflexivity; try assumption.
  intros a Ha. unfold enabled in Ha. reduce_playback.
  destruct a; try discriminate; try reflexivity;
    apply bool_decide_eq_true in Ha; destruct Ha; discriminate.
Qed.

(** X23. When a tick finds no time left on a step that has a
    successor, the step is marked completed and its successor running,
    and a three-second countdown starts; the first two countdown ticks
    only beep, the third enters the successor with its whole duration
    remaining.  The total elapsed time then restarts from the total
    that the finished step's interval had captured when it was
    installed: the next tick shows that captured value plus the seconds
    since the countdown ended, not the total shown at the end of the
    finished step. *)
Theorem automatic_transition (workout : WorkoutPlan) (s : Playback)
    (k : Tick) (ex next : TimerExercise) (now t1 t2 t3 t4 : Z) :
  reachable workout s -> timerState s = ts_running ->
  intervalRef s = Some k ->
  timeline workout !! currentExerciseIndex s = Some ex ->
  timeline workout !! (currentExerciseIndex s + 1)%nat = Some next ->
  remaining_at (te_duration ex) (currentExerciseStartRef s) now <= 0 ->
  exists s1 s4 s5,
    step workout PlaybackTick now s = Some s1 /\
    (timerState s1 = ts_countdown_transition /\
     countdownValue s1 = 3 /\
     currentExerciseIndex s1 = currentExerciseIndex s /\
     nextExerciseIndex s1 = (currentExerciseIndex s + 1)%nat /\
     totalElapsedTime s1 = (now - startTimeRef s) / 1000 + pausedTimeRef s /\
     exerciseStatuses s1
     = advance_statuses es_completed (currentExerciseIndex s)
         (exerciseStatuses s)) /\
    run workout [(CountdownTick, t1); (CountdownTick, t2)] s1
    = Some (set_countdownValue 1
              (playBeep 800 200 (playBeep 800 200 s1))) /\
    run workout [(CountdownTick, t1); (CountdownTick, t2); (CountdownTick, t3)]
      s1 = Some s4 /\
    (timerState s4 = ts_running /\
     currentExerciseIndex s4 = (currentExerciseIndex s + 1)%nat /\
     remainingTime s4 = te_duration next /\
     currentExerciseElapsed s4 = 0 /\
     totalElapsedTime s4 = totalElapsedTime s1 /\
     pausedTimeRef s4 = tick_totalElapsedTime k /\
     exerciseStatuses s4 = exerciseStatuses s1) /\
    step workout PlaybackTick t4 s4 = Some s5 /\
    totalElapsedTime s5 = (t4 - t3) / 1000 + tick_totalElapsedTime k.
Proof.
  intros Hreach Hrun Hk Hex Hnext Hrem.
  destruct (reachable_inv workout s Hreach) as [(Hlen & _ & Hst) _].
  rewrite Hrun in Hst.
  destruct Hst as (Hidx & (k' & Hk' & Hkidx) & Hcd & Hshape).
  rewrite Hk in Hk'. injection Hk' as <-.
  pose proof (tick_ends_step workout s k ex now Hrun Hk Hkidx Hex Hrem)
    as Hstep.
  cbv zeta in Hstep.
  pose proof (lookup_lt_Some _ _ _ Hnext) as Hlt.
  destruct (Z.ltb_spec (Z.of_nat (currentExerciseIndex s))
              (Z.of_nat (length (timeline workout)) - 1)) as [_|Hge];
    [|lia].
  set (s1 := set_countdownIntervalRef _ _) in Hstep.
  assert (F1 : countdownIntervalRef s1
               = Some (mkCountdown cd_transition
                         (Some (currentExerciseIndex s + 1)%nat)
                         (tick_totalElapsedTime k)) /\
               countdownValue s1 = 3).
  { subst s1. destruct_playback s. split; reflexivity. }
  destruct F1 as [Hc1 Hv1].
  pose proof (countdown_continues workout s1 _ t1 Hc1 ltac:(lia)) as H1.
  rewrite Hv1 in H1. change (3 - 1) with 2 in H1.
  set (s2 := set_countdownValue 2 _) in H1.
  assert (F2 : countdownIntervalRef s2
               = Some (mkCountdown cd_transition
                         (Some (currentExerciseIndex s + 1)%nat)
                         (tick_totalElapsedTime k)) /\
               countdownValue s2 = 2).
  { subst s2 s1. destruct_playback s. split; reflexivity. }
  destruct F2 as [Hc2 Hv2].
  pose proof (countdown_continues workout s2 _ t2 Hc2 ltac:(lia)) as H2.
  rewrite Hv2 in H2. change (2 - 1) with 1 in H2.
  set (s3 := set_countdownValue 1 _) in H2.
  assert (F3 : timerState s3 = ts_countdown_transition /\
               countdownIntervalRef s3
               = Some (mkCountdown cd_transition
                         (Some (currentExerciseIndex s3 + 1)%nat)
                         (tick_totalElapsedTime k)) /\
               countdownValue s3 = 1 /\
               timeline workout !! (currentExerciseIndex s3 + 1)%nat
               = Some next).
  { subst s3 s2 s1. destruct_playback s.
    repeat split; try reflexivity. exact Hnext. }
  destruct F3 as (Hst3 & Hc3 & Hv3 & Hnext3).
  pose proof (countdown_ends_transition workout s3 _ next t3
                Hst3 Hc3 Hv3 Hnext3) as H3.
  set (s4 := set_currentExerciseStartRef t3 _) in H3.
  destruct (tick_effect workout s4
              (mkTick (currentExerciseIndex s3 + 1) (totalElapsedTime s3))
              next t4) as (s5 & H5 & Hpost).
  { subst s4 s3 s2 s1. destruct_playback s. reflexivity. }
  { subst s4 s3 s2 s1. destruct_playback s. reflexivity. }
  { subst s4 s3 s2 s1. destruct_playback s. reflexivity. }
  { subst s4 s3 s2 s1. destruct_playback s. exact Hnext. }
  destruct Hpost as (Htot & _).
  exists s1, s4, s5.
  split; [exact Hstep|].
  split; [subst s1; destruct_playback s; repeat split; reflexivity|].
  split.
  { cbn [run]. rewrite H1. cbn [run]. rewrite H2.
    subst s3 s2. destruct_playback s. reflexivity. }
  split.
  { cbn [run]. rewrite H1. cbn [run]. rewrite H2. cbn [run]. rewrite H3.
    reflexivity. }
  split.
  { subst s4 s3 s2 s1. destruct_playback s. repeat split; reflexivity. }
  split; [exact H5|].
  rewrite Htot. subst s4 s3 s2 s1. destruct_playback s. reflexivity.
Qed.

(** X24. From a reachable ready state of a plan with at least one
    step, start runs a five-second countdown: after four countdown
    ticks the page is still counting down, with four short beeps; the
    fifth tick gives the long beep and enters the first step, with the
    statuses and the remaining time untouched; and the ticks of the
    first step count total and step elapsed time from that moment. *)
Theorem start_countdown_five_ticks (workout : WorkoutPlan) (s : Playback)
    (ex : TimerExercise) (t0 t1 t2 t3 t4 t5 t6 : Z) :
  reachable workout s -> timerState s = ts_ready ->
  timeline workout !! 0%nat = Some ex ->
  exists s4 s5 s6,
    run workout
      [(ClickStart, t0); (CountdownTick, t1); (CountdownTick, t2);
       (CountdownTick, t3); (CountdownTick, t4)] s = Some s4 /\
    (timerState s4 = ts_countdown_start /\ countdownValue s4 = 1 /\
     intervalRef s4 = None /\
     beeps s4 = replicate 4 (800, 200) ++ beeps s) /\
    step workout CountdownTick t5 s4 = Some s5 /\
    (timerState s5 = ts_running /\
     currentExerciseIndex s5 = 0%nat /\
     countdownIntervalRef s5 = None /\
     beeps s5 = (1000, 400) :: replicate 4 (800, 200) ++ beeps s /\
     exerciseStatuses s5 = exerciseStatuses s /\
     remainingTime s5 = remainingTime s) /\
    step workout PlaybackTick t6 s5 = Some s6 /\
    totalElapsedTime s6 = (t6 - t5) / 1000 /\
    currentExerciseElapsed s6 = (t6 - t5) / 1000.
Proof.
  intros Hreach Hready Hex.
  destruct (reachable_inv workout s Hreach) as [(Hlen & _ & Hst) _].
  rewrite Hready in Hst. destruct Hst as (Hidx & Hint & Hcd & _).
  assert (Hex0 : timeline workout !! currentExerciseIndex s = Some ex)
    by (rewrite Hidx; exact Hex).
  pose proof (start_effect workout s ex t0 Hready Hex0) as H0.
  set (c := mkCountdown cd_start None (totalElapsedTime s)) in H0.
  set (r0 := set_intervalRef None _) in H0.
  assert (F0 : countdownIntervalRef r0 = Some c /\ countdownValue r0 = 5).
  { subst r0. destruct_playback s. split; reflexivity. }
  destruct F0 as [Hc0 Hv0].
  pose proof (countdown_continues workout r0 c t1 Hc0 ltac:(lia)) as H1.
  rewrite Hv0 in H1. change (5 - 1) with 4 in H1.
  set (r1 := set_countdownValue 4 _) in H1.
  assert (F1 : countdownIntervalRef r1 = Some c /\ countdownValue r1 = 4).
  { subst r1 r0. destruct_playback s. split; reflexivity. }
  destruct F1 as [Hc1 Hv1].
  pose proof (countdown_continues workout r1 c t2 Hc1 ltac:(lia)) as H2.
  rewrite Hv1 in H2. change (4 - 1) with 3 in H2.
  set (r2 := set_countdownValue 3 _) in H2.
  assert (F2 : countdownIntervalRef r2 = Some c /\ countdownValue r2 = 3).
  { subst r2 r1 r0. destruct_playback s. split; reflexivity. }
  destruct F2 as [Hc2 Hv2].
  pose proof (countdown_continues workout r2 c t3 Hc2 ltac:(lia)) as H3.
  rewrite Hv2 in H3. change (3 - 1) with 2 in H3.
  set (r3 := set_countdownValue 2 _) in H3.
  assert (F3 : countdownIntervalRef r3 = Some c /\ countdownValue r3 = 2).
  { subst r3 r2 r1 r0. destruct_playback s. split; reflexivity. }
  destruct F3 as [Hc3 Hv3].
  pose proof (countdown_continues workout r3 c t4 Hc3 ltac:(lia)) as H4.
  rewrite Hv3 in H4. change (2 - 1) with 1 in H4.
  set (r4 := set_countdownValue 1 _) in H4.
  assert (F4 : timerState r4 = ts_countdown_start /\
               countdownIntervalRef r4 = Some c /\
               countdownValue r4 = 1 /\
               timeline workout !! currentExerciseIndex r4 = Some ex).
  { subst r4 r3 r2 r1 r0. destruct_playback s.
    repeat split; try reflexivity. exact Hex0. }
  destruct F4 as (Hst4 & Hc4 & Hv4 & Hex4).
  pose proof (countdown_ends_start workout r4 c ex t5 Hst4 Hc4 eq_refl
                Hv4 Hex4) as H5.
  set (r5 := set_intervalRef (Some _) _) in H5.
  destruct (tick_effect workout r5
              (mkTick (currentExerciseIndex r4) (totalElapsedTime r4))
              ex t6) as (s6 & H6 & Hpost).
  { subst r5 r4 r3 r2 r1 r0. destruct_playback s. reflexivity. }
  { subst r5 r4 r3 r2 r1 r0. destruct_playback s. reflexivity. }
  { subst r5 r4 r3 r2 r1 r0. destruct_playback s. reflexivity. }
  { subst r5 r4 r3 r2 r1 r0. destruct_playback s. exact Hex0. }
  destruct Hpost as (Htot & Hce & _).
  exists r4, r5, s6.
  split.
  { cbn [run]. rewrite H0. cbn [run]. rewrite H1. cbn [run]. rewrite H2.
    cbn [run]. rewrite H3. cbn [run]. rewrite H4. reflexivity. }
  split.
  { subst r4 r3 r2 r1 r0. destruct_playback s.
    cbn [intervalRef] in Hint. repeat split; reflexivity. }
  split; [exact H5|].
  split.
  { subst r5 r4 r3 r2 r1 r0. destruct_playback s.
    cbn [currentExerciseIndex] in Hidx. subst idx.
    repeat split; reflexivity. }
  split; [exact H6|].
  rewrite Htot, Hce. subst r5 r4 r3 r2 r1 r0. destruct_playback s.
  reduce_goal. split; [lia|reflexivity].
Qed.

(** ** Skip, in general *)
Lemma js_get_set_same {A} (arr : list (option A)) i (v : A) :
  js_get (js_set i v arr) i = Some v.
Proof.
  destruct (Nat.lt_ge_cases i (length arr)) as [H|H].
  - apply js_get_set_eq, H.
  - unfold js_set, js_get.
    destruct (Nat.ltb_spec i (length arr)) as [H'|_]; [lia|].
    rewrite lookup_app_r by lia.
    rewrite lookup_app_r by (rewrite length_replicate; lia).
    rewrite length_replicate.
    replace (i - length arr - (i - length arr))%nat with 0%nat by lia.
    reflexivity.
Qed.

Lemma skip_effect workout s ex next now :
  timerState s = ts_running ->
  timeline workout !! currentExerciseIndex s = Some ex ->
  timeline workout !! (currentExerciseIndex s + 1)%nat = Some next ->
  step workout ClickSkip now s
  = Some
      (set_intervalRef None
         (set_countdownIntervalRef
            (Some (mkCountdown cd_transition
                     (Some (currentExerciseIndex s + 1)%nat)
                     (totalElapsedTime s)))
            (set_nextExerciseIndex (currentExerciseIndex s + 1)
               (set_timerState ts_countdown_transition
                  (set_countdownValue 3
                     (set_pausedTimeRef (endTime ex)
                        (set_totalElapsedTime (endTime ex)
                           (set_intervalRef None
                              (set_exerciseStatuses
                                 (advance_statuses es_skipped
                                    (currentExerciseIndex s)
                                    (exerciseStatuses s))
                                 (set_exerciseElapsedTimes
                                    (js_set (currentExerciseIndex s)
                                       (currentExerciseElapsed s)
                                       (exerciseElapsedTimes s))
                                    s)))))))))).
Proof.
  intros Hst Hex Hnext. rewrite step_enabled.
  - pose proof (lookup_lt_Some _ _ _ Hnext) as Hlt.
    destruct_playback s.
    cbn [timerState currentExerciseIndex] in *. subst st. reduce_goal.
    destruct (Z.ltb_spec (Z.of_nat idx)
                (Z.of_nat (length (timeline workout)) - 1)); [|lia].
    rewrite Hex. reduce_goal. rewrite Nat.eqb_refl. reflexivity.
  - unfold enabled. rewrite Hst.
    rewrite (enabled_on_step workout s ex Hex).
    apply bool_decide_eq_true_2. eauto.
Qed.

(** X25. Skip on a running step that has a successor, from any such
    state: the elapsed time of the skipped step is recorded, the step
    is marked skipped and its successor running, the total jumps to the
    end time of the skipped step and a three-second countdown starts;
    when the countdown ends the successor runs, but the total elapsed
    time restarts from the total shown at the moment of the click: the
    next tick shows that value plus the seconds since the countdown
    ended. *)
Theorem skip_restores_stale_total (workout : WorkoutPlan) (s : Playback)
    (ex next : TimerExercise) (now t1 t2 t3 t4 : Z) :
  timerState s = ts_running ->
  timeline workout !! currentExerciseIndex s = Some ex ->
  timeline workout !! (currentExerciseIndex s + 1)%nat = Some next ->
  exists s1 s4 s5,
    step workout ClickSkip now s = Some s1 /\
    (timerState s1 = ts_countdown_transition /\
     countdownValue s1 = 3 /\
     intervalRef s1 = None /\
     nextExerciseIndex s1 = (currentExerciseIndex s + 1)%nat /\
     totalElapsedTime s1 = endTime ex /\
     js_get (exerciseElapsedTimes s1) (currentExerciseIndex s)
     = Some (currentExerciseElapsed s) /\
     exerciseStatuses s1
     = advance_statuses es_skipped (currentExerciseIndex s)
         (exerciseStatuses s)) /\
    run workout [(CountdownTick, t1); (CountdownTick, t2); (CountdownTick, t3)]
      s1 = Some s4 /\
    (timerState s4 = ts_running /\
     currentExerciseIndex s4 = (currentExerciseIndex s + 1)%nat /\
     remainingTime s4 = te_duration next /\
     totalElapsedTime s4 = endTime ex /\
     pausedTimeRef s4 = totalElapsedTime s) /\
    step workout PlaybackTick t4 s4 = Some s5 /\
    totalElapsedTime s5 = (t4 - t3) / 1000 + totalElapsedTime s.
Proof.
  intros Hrun Hex Hnext.
  pose proof (skip_effect workout s ex next now Hrun Hex Hnext) as Hstep.
  set (c := mkCountdown cd_transition _ _) in Hstep.
  set (s1 := set_intervalRef None _) in Hstep.
  assert (F1 : countdownIntervalRef s1 = Some c /\ countdownValue s1 = 3).
  { subst s1. destruct_playback s. split; reflexivity. }
  destruct F1 as [Hc1 Hv1].
  pose proof (countdown_continues workout s1 _ t1 Hc1 ltac:(lia)) as H1.
  rewrite Hv1 in H1. change (3 - 1) with 2 in H1.
  set (s2 := set_countdownValue 2 _) in H1.
  assert (F2 : countdownIntervalRef s2 = Some c /\ countdownValue s2 = 2).
  { subst s2 s1. destruct_playback s. split; reflexivity. }
  destruct F2 as [Hc2 Hv2].
  pose proof (countdown_continues workout s2 _ t2 Hc2 ltac:(lia)) as H2.
  rewrite Hv2 in H2. change (2 - 1) with 1 in H2.
  set (s3 := set_countdownValue 1 _) in H2.
  assert (F3 : timerState s3 = ts_countdown_transition /\
               countdownIntervalRef s3
               = Some (mkCountdown cd_transition
                         (Some (currentExerciseIndex s3 + 1)%nat)
                         (totalElapsedTime s)) /\
               countdownValue s3 = 1 /\
               timeline workout !! (currentExerciseIndex s3 + 1)%nat
               = Some next).
  { subst s3 s2 s1 c. destruct_playback s.
    repeat split; try reflexivity. exact Hnext. }
  destruct F3 as (Hst3 & Hc3 & Hv3 & Hnext3).
  pose proof (countdown_ends_transition workout s3 _ next t3
                Hst3 Hc3 Hv3 Hnext3) as H3.
  set (s4 := set_currentExerciseStartRef t3 _) in H3.
  destruct (tick_effect workout s4
              (mkTick (currentExerciseIndex s3 + 1) (totalElapsedTime s3))
              next t4) as (s5 & H5 & Hpost).
  { subst s4 s3 s2 s1. destruct_playback s. reflexivity. }
  { subst s4 s3 s2 s1. destruct_playback s. reflexivity. }
  { subst s4 s3 s2 s1. destruct_playback s. reflexivity. }
  { subst s4 s3 s2 s1. destruct_playback s. exact Hnext. }
  destruct Hpost as (Htot & _).
  exists s1, s4, s5.
  split; [exact Hstep|].
  split.
  { subst s1. destruct_playback s. reduce_goal.
    repeat split; try reflexivity. apply js_get_set_same. }
  split.
  { cbn [run]. rewrite H1. cbn [run]. rewrite H2. cbn [run]. rewrite H3.
    reflexivity. }
  split.
  { subst s4 s3 s2 s1. destruct_playback s. repeat split; reflexivity. }
  split; [exact H5|].
  rewrite Htot. subst s4 s3 s2 s1. destruct_playback s. reflexivity.
Qed.

Lemma timers_exclusive_witness :
  exists s,
    run skip_plan skip_prefix (init skip_plan) = Some s /\
    timerState s = ts_running /\
    is_Some (intervalRef s).
Proof.
  destruct (run skip_plan skip_prefix (init skip_plan)) as [s|] eqn:E;
    [|vm_compute in E; discriminate].
  assert (Hst : timerState s = ts_running).
  { vm_compute in E. injection E as <-. reflexivity. }
  assert (Hreach : reachable skip_plan s).
  { eapply run_reachable; [apply reachable_init | exact E]. }
  exists s. split; [reflexivity|]. split; [exact Hst|].
  destruct (timers_exclusive skip_plan s Hreach) as [Hlive _].
  apply Hlive, Hst.
Defined.

Lemma stop_restores_initial_display_witness :
  exists s s',
    run skip_plan (skip_prefix ++ [(ClickStop, 23100)]) (init skip_plan)
    = Some s /\
    step skip_plan ClickConfirmStop 23200 s = Some s' /\
    stopped skip_plan s'.
Proof.
  destruct (run skip_plan (skip_prefix ++ [(ClickStop, 23100)])
              (init skip_plan)) as [s|] eqn:E;
    [|vm_compute in E; discriminate].
  assert (Hen : enabled skip_plan ClickConfirmStop s = true).
  { vm_compute in E. injection E as <-. reflexivity. }
  assert (Hreach : reachable skip_plan s).
  { eapply run_reachable; [apply reachable_init | exact E]. }
  destruct (stop_restores_initial_display skip_plan ClickConfirmStop 23200 s
              Hreach (or_introl eq_refl) Hen) as (s' & Hstep & Hstopped).
  exists s, s'. split; [reflexivity|]. split; [exact Hstep | exact Hstopped].
Defined.

Lemma last_tick_completes_witness :
  exists s s',
    run cue_plan cue_start (init cue_plan) = Some s /\
    step cue_plan PlaybackTick 15000 s = Some s' /\
    timerState s' = ts_completed.
Proof.
  destruct (run cue_plan cue_start (init cue_plan)) as [s|] eqn:E;
    [|vm_compute in E; discriminate].
  assert (Hst : timerState s = ts_running).
  { vm_compute in E. injection E as <-. reflexivity. }
  assert (Hreach : reachable cue_plan s).
  { eapply run_reachable; [apply reachable_init | exact E]. }
  assert (Hex : timeline cue_plan !! currentExerciseIndex s
                = Some (mkTimerExercise "e" "running" 10 None None 0 10)).
  { vm_compute in E. injection E as <-. vm_compute. reflexivity. }
  assert (Hlast : (currentExerciseIndex s + 1
                   = length (timeline cue_plan))%nat).
  { vm_compute in E. injection E as <-. vm_compute. reflexivity. }
  assert (Hrem : remaining_at 10 (currentExerciseStartRef s) 15000 <= 0).
  { vm_compute in E. injection E as <-. vm_compute. discriminate. }
  destruct (last_tick_completes cue_plan s _ 15000 Hreach Hst Hex Hlast Hrem)
    as (s' & Hstep & Hdone & _).
  exists s, s'. split; [reflexivity|]. split; [exact Hstep | exact Hdone].
Defined.

Lemma automatic_transition_witness :
  exists s s1 s4 s5,
    run skip_plan cue_start (init skip_plan) = Some s /\
    step skip_plan PlaybackTick 15000 s = Some s1 /\
    totalElapsedTime s1 = 10 /\
    run skip_plan
      [(CountdownTick, 16000); (CountdownTick, 17000); (CountdownTick, 18000)]
      s1 = Some s4 /\
    step skip_plan PlaybackTick 18100 s4 = Some s5 /\
    totalElapsedTime s5 = 0.
Proof.
  destruct (run skip_plan cue_start (init skip_plan)) as [s|] eqn:E;
    [|vm_compute in E; discriminate].
  assert (Hst : timerState s = ts_running).
  { vm_compute in E. injection E as <-. reflexivity. }
  assert (Hreach : reachable skip_plan s).
  { eapply run_reachable; [apply reachable_init | exact E]. }
  assert (Hk : intervalRef s = Some (mkTick 0 0)).
  { vm_compute in E. injection E as <-. reflexivity. }
  assert (Hex : timeline skip_plan !! currentExerciseIndex s
                = Some (mkTimerExercise "warmup" "walking" 10 None
                          (Some "웜업") 0 10)).
  { vm_compute in E. injection E as <-. vm_compute. reflexivity. }
  assert (Hnext : timeline skip_plan !! (currentExerciseIndex s + 1)%nat
                  = Some (mkTimerExercise "e" "running" 30 None None 10 40)).
  { vm_compute in E. injection E as <-. vm_compute. reflexivity. }
  assert (Hrem : remaining_at 10 (currentExerciseStartRef s) 15000 <= 0).
  { vm_compute in E. injection E as <-. vm_compute. discriminate. }
  assert (Htot : (15000 - startTimeRef s) / 1000 + pausedTimeRef s = 10).
  { vm_compute in E. injection E as <-. reflexivity. }
  destruct (automatic_transition skip_plan s _ _ _ 15000 16000 17000 18000
              18100 Hreach Hst Hk Hex Hnext Hrem)
    as (s1 & s4 & s5 & H1 & (_ & _ & _ & _ & Htot1 & _) & _ & H4 & _ & H5
        & Htot5).
  exists s, s1, s4, s5.
  split; [reflexivity|]. split; [exact H1|].
  split; [rewrite Htot1; exact Htot|].
  split; [exact H4|]. split; [exact H5|].
  rewrite Htot5. reflexivity.
Defined.

Lemma start_countdown_five_ticks_witness :
  exists s4 s5 s6,
    run skip_plan
      [(ClickStart, 0); (CountdownTick, 1000); (CountdownTick, 2000);
       (CountdownTick, 3000); (CountdownTick, 4000)] (init skip_plan)
    = Some s4 /\
    timerState s4 = ts_countdown_start /\
    step skip_plan CountdownTick 5000 s4 = Some s5 /\
    timerState s5 = ts_running /\
    step skip_plan PlaybackTick 7500 s5 = Some s6 /\
    totalElapsedTime s6 = 2.
Proof.
  destruct (start_countdown_five_ticks skip_plan (init skip_plan)
              (mkTimerExercise "warmup" "walking" 10 None (Some "웜업") 0 10)
              0 1000 2000 3000 4000 5000 7500)
    as (s4 & s5 & s6 & H4 & (Hst4 & _) & H5 & (Hst5 & _) & H6 & Htot & _).
  - apply reachable_init.
  - reflexivity.
  - vm_compute. reflexivity.
  - exists s4, s5, s6. repeat split; assumption.
Defined.

Lemma skip_restores_stale_total_witness :
  exists s s1 s4 s5,
    run skip_plan skip_prefix (init skip_plan) = Some s /\
    step skip_plan ClickSkip 23050 s = Some s1 /\
    totalElapsedTime s1 = 40 /\
    run skip_plan
      [(CountdownTick, 24050); (CountdownTick, 25050); (CountdownTick, 26050)]
      s1 = Some s4 /\
    step skip_plan PlaybackTick 26150 s4 = Some s5 /\
    totalElapsedTime s5 = 5.
Proof.
  destruct (run skip_plan skip_prefix (init skip_plan)) as [s|] eqn:E;
    [|vm_compute in E; discriminate].
  assert (Hst : timerState s = ts_running).
  { vm_compute in E. injection E as <-. reflexivity. }
  assert (Hex : timeline skip_plan !! currentExerciseIndex s
                = Some (mkTimerExercise "e" "running" 30 None None 10 40)).
  { vm_compute in E. injection E as <-. vm_compute. reflexivity. }
  assert (Hnext : timeline skip_plan !! (currentExerciseIndex s + 1)%nat
                  = Some (mkTimerExercise "cooldown" "walking" 10 None
                            (Some "쿨다운") 40 50)).
  { vm_compute in E. injection E as <-. vm_compute. reflexivity. }
  assert (Htot : totalElapsedTime s = 5).
  { vm_compute in E. injection E as <-. reflexivity. }
  destruct (skip_restores_stale_total skip_plan s _ _ 23050 24050 25050 26050
              26150 Hst Hex Hnext)
    as (s1 & s4 & s5 & H1 & (_ & _ & _ & _ & Htot1 & _) & H4 & _ & H5 & Htot5).
  exists s, s1, s4, s5.
  split; [reflexivity|]. split; [exact H1|].
  split; [rewrite Htot1; reflexivity|].
  split; [exact H4|]. split; [exact H5|].
  rewrite Htot5, Htot. reflexivity.
Defined.

(** ** Time display *)

Lemma parseInt_toString n : parseInt (toString n) = Some n.
Proof.
  unfold parseInt, toString.
  rewrite DecimalString.NilZero.isi.
  - unfold fmap, option_fmap, option_map. rewrite DecimalZ.of_to. reflexivity.
  - destruct n as [|p|p]; simpl; try discriminate.
    intros [= E]. exact (DecimalPos.Unsigned.to_uint_nonnil p E).
  - destruct n as [|p|p]; simpl; try discriminate.
    intros [= E]. exact (DecimalPos.Unsigned.to_uint_nonnil p E).
Qed.

Lemma string_length_append m rest :
  String.length (m ++ rest)%string
  = (String.length m + String.length rest)%nat.
Proof. induction m as [|a m IH]; simpl; [reflexivity|]. rewrite IH. reflexivity. Qed.

Lemma substring_prefix m rest :
  String.substring 0 (String.length m) (m ++ rest)%string = m.
Proof. induction m as [|a m IH]; simpl; [|rewrite IH]; try reflexivity.
  destruct rest; reflexivity. Qed.

Lemma get_after m rest k :
  String.get (String.length m + k) (m ++ rest)%string = String.get k rest.
Proof. induction m as [|a m IH]; simpl; [reflexivity|exact IH]. Qed.

Lemma substring_after m rest j k :
  String.substring (String.length m + j) k (m ++ rest)%string
  = String.substring j k rest.
Proof. induction m as [|a m IH]; simpl; [reflexivity|exact IH]. Qed.

Lemma seconds_field secs :
  0 <= secs < 60 ->
  String.length (padStart 2 "0" (toString secs)) = 2%nat /\
  parseInt (padStart 2 "0" (toString secs)) = Some secs.
Proof.
  intros H.
  assert (Hall : forallb two_digits (map Z.of_nat (seq 0 60)) = true)
    by (vm_compute; reflexivity).
  rewrite forallb_forall in Hall.
  specialize (Hall secs). unfold two_digits in Hall.
  apply bool_decide_eq_true in Hall; [exact Hall|].
  apply in_map_iff. exists (Z.to_nat secs). split; [lia|].
  apply in_seq. lia.
Qed.

(** X26. For a number of seconds that is not negative, [formatTime]
    gives the minutes, a colon and a seconds field of exactly two
    characters that reads as the seconds modulo 60; reading the string
    back gives the number of seconds, so distinct durations are
    displayed differently. *)
Theorem formatTime_reads_back (seconds : Z) :
  0 <= seconds ->
  parse_clock (formatTime seconds) = Some seconds /\
  exists field,
    formatTime seconds
    = (toString (seconds / 60) ++ ":" ++ field)%string /\
    String.length field = 2%nat /\
    parseInt field = Some (seconds mod 60).
Proof.
  intros H.
  assert (Hrem : Z.rem seconds 60 = seconds mod 60)
    by (apply Z.rem_mod_nonneg; lia).
  destruct (seconds_field (seconds mod 60)) as [Hlen Hparse].
  { apply Z.mod_pos_bound. lia. }
  unfold formatTime. cbv zeta. rewrite Hrem.
  set (m := toString (seconds / 60)) in *.
  set (field := padStart 2 "0" (toString (seconds mod 60))) in *.
  split; [|exists field; auto].
  unfold parse_clock.
  assert (Hn : String.length (m ++ ":" ++ field)%string
               = (String.length m + 3)%nat).
  { rewrite !string_length_append. simpl. lia. }
  rewrite Hn.
  replace (String.length m + 3 - 3)%nat with (String.length m) by lia.
  replace (String.length m + 3 - 2)%nat with (String.length m + 1)%nat by lia.
  rewrite substring_prefix.
  pose proof (get_after m (":" ++ field) 0) as Hget.
  rewrite Nat.add_0_r in Hget. rewrite Hget, substring_after.
  change (String.get 0 (":" ++ field)) with (Some ":"%char).
  change (String.substring 1 2 (":" ++ field))
    with (String.substring 0 2 field).
  subst m. rewrite parseInt_toString.
  assert (Hfield : String.substring 0 2 field = field).
  { destruct field as [|a [|b [|c rest]]]; simpl in Hlen; try lia.
    reflexivity. }
  rewrite Hfield, Hparse. f_equal.
  pose proof (Z.div_mod seconds 60 ltac:(lia)). lia.
Qed.

Lemma formatTime_reads_back_witness :
  0 <= 125 /\ parse_clock (formatTime 125) = Some 125.
Proof.
  split; [lia|]. apply (formatTime_reads_back 125). lia.
Defined.
